(** * Dining Concierge: the chat API (LF0), the Lex code hook (LF1) and the
     queue worker (LF2)

  A shallow embedding of [lambda-functions/LF1/index.mjs] and of
  [lambda-functions/LF2/index.mjs] (the worker, its request to the
  search index and the chat API that the file also holds), with the
  properties of the slot validation and of the fulfilment pipeline
  proved over it. The rules of the six slots are stated a second time
  from the wording of the specification ([Spec.rule]) and compared with
  the validation blocks of the code.

  Conventions of the embedding.
  - A JavaScript string is a [string] whose characters are code units
    below 256; [toLowerCase], [trim] and the regular-expression class
    [\s] are the ECMAScript ones restricted to that range. [toUpperCase]
    is the ECMAScript one on every code unit but the three whose upper
    case lies outside the range (see [JS.upperChar]).
  - A JavaScript number that the code only compares with small integer
    constants is a [Z]; [NaN] is [None].
  - A value that may be [null] or [undefined] is an [option].
  - The AWS services, the clock and the engine's [Array.prototype.sort]
    and [Date] parser are not part of the repository: they are fields of
    an explicit platform record, and every theorem quantifies over it.
  - Callbacks are steps on the state they share, run on the sequence of
    events that reach them. *)

From Stdlib Require Import ZArith List Ascii String Bool Lia Permutation.
From Stdlib Require Import DecimalString DecimalPos.
From stdpp Require Import base strings gmap.

Import ListNotations.
Local Open Scope string_scope.
Local Open Scope Z_scope.

(** ** JavaScript strings, numbers and regular expressions *)

Module JS.

Definition code (c : ascii) : nat := nat_of_ascii c.

Definition between (lo hi n : nat) : bool := Nat.leb lo n && Nat.leb n hi.

(** [WhiteSpace] and [LineTerminator] code units below 256: TAB, LF, VT,
    FF, CR, SP and NBSP. Used by [trim], by [parseInt] and by [\s]. *)
Definition isWhiteSpace (c : ascii) : bool :=
  between 9 13 (code c) || Nat.eqb (code c) 32 || Nat.eqb (code c) 160.

(** [\d] without the unicode flag: exactly the ten ASCII digits. *)
Definition isDigit (c : ascii) : bool := between 48 57 (code c).

Definition digitValue (c : ascii) : Z := Z.of_nat (code c) - 48.

(** Code units with a lower-case counterpart below 256: A-Z and the
    Latin-1 capitals (all of 0xC0-0xDE but the multiplication sign). *)
Definition isUpper (c : ascii) : bool :=
  between 65 90 (code c)
  || (between 192 222 (code c) && negb (Nat.eqb (code c) 215)).

Definition lowerChar (c : ascii) : ascii :=
  if isUpper c then ascii_of_nat (code c + 32) else c.

(** Code units with an upper-case counterpart below 256. Three code
    units have an upper case outside the range: the engine turns the
    sharp s (223) into the two letters SS, the micro sign (181) into
    U+039C and the y with diaeresis (255) into U+0178. [upperChar] keeps
    these three as they are, so [toUpperCase] is exact on the strings
    without them. The code uses it only for the first letter of a
    cuisine in a message, and a cuisine that passes validation does not
    start with one of the three. *)
Definition isLower (c : ascii) : bool :=
  between 97 122 (code c)
  || (between 224 254 (code c) && negb (Nat.eqb (code c) 247)).

Definition upperChar (c : ascii) : ascii :=
  if isLower c then ascii_of_nat (code c - 32) else c.

(** The three code units whose upper case lies outside the range. *)
Definition upperOutside (c : ascii) : bool :=
  Nat.eqb (code c) 181 || Nat.eqb (code c) 223 || Nat.eqb (code c) 255.

Fixpoint toLowerCase (s : string) : string :=
  match s with
  | EmptyString => EmptyString
  | String c r => String (lowerChar c) (toLowerCase r)
  end.

Fixpoint toUpperCase (s : string) : string :=
  match s with
  | EmptyString => EmptyString
  | String c r => String (upperChar c) (toUpperCase r)
  end.

Fixpoint trimStart (s : string) : string :=
  match s with
  | String c r => if isWhiteSpace c then trimStart r else s
  | EmptyString => EmptyString
  end.

Fixpoint trimEnd (s : string) : string :=
  match s with
  | EmptyString => EmptyString
  | String c r =>
      match trimEnd r with
      | EmptyString => if isWhiteSpace c then EmptyString else String c EmptyString
      | r' => String c r'
      end
  end.

Definition trim (s : string) : string := trimEnd (trimStart s).

(** [s.charAt(0)] and [s.slice(1)]. *)
Definition charAt0 (s : string) : string :=
  match s with
  | EmptyString => EmptyString
  | String c _ => String c EmptyString
  end.

Definition slice1 (s : string) : string :=
  match s with
  | EmptyString => EmptyString
  | String _ r => r
  end.

(** Truthiness of a string: every string but the empty one. *)
Definition truthy (s : string) : bool :=
  match s with
  | EmptyString => false
  | String _ _ => true
  end.

(** [a || b] on values that are a string, [null] or [undefined]. *)
Definition orElse (a b : option string) : option string :=
  match a with
  | Some s => if truthy s then Some s else b
  | None => b
  end.

(** [if (x)] on such a value. *)
Definition present (a : option string) : bool :=
  match a with
  | Some s => truthy s
  | None => false
  end.

(** [arr.includes(x)] on an array of strings. *)
Definition includes (arr : list string) (x : string) : bool :=
  existsb (String.eqb x) arr.

(** [arr.join(sep)]. *)
Fixpoint join (sep : string) (arr : list string) : string :=
  match arr with
  | [] => ""
  | [x] => x
  | x :: rest => x ++ sep ++ join sep rest
  end.

(** [s.split(sep)] for a separator of one code unit. *)
Fixpoint split (sep : ascii) (s : string) : list string :=
  match s with
  | EmptyString => [EmptyString]
  | String c r =>
      if Ascii.eqb c sep then EmptyString :: split sep r
      else match split sep r with
           | x :: xs => String c x :: xs
           | [] => [String c EmptyString]
           end
  end.

(** The longest prefix of decimal digits, read in base ten, and whether
    it has a digit at all. *)
Fixpoint digitsPrefix (acc : Z) (seen : bool) (s : string) : option Z :=
  match s with
  | String c r =>
      if isDigit c then digitsPrefix (10 * acc + digitValue c) true r
      else if seen then Some acc else None
  | EmptyString => if seen then Some acc else None
  end.

(** [parseInt(s, 10)]: leading white space is skipped, one sign is
    read, then the longest run of digits; [None] is [NaN]. The result
    is used only in comparisons with 1 and 20, which rounding a long
    digit string to a double does not change. *)
Definition parseInt10 (s : string) : option Z :=
  match trimStart s with
  | String "-" r => option_map Z.opp (digitsPrefix 0 false r)
  | String "+" r => digitsPrefix 0 false r
  | t => digitsPrefix 0 false t
  end.

(** [Number(s)] where [s] is a run of decimal digits, the only strings
    the code passes to it (the parts of a string that matched
    [\d{2}:\d{2}]); the empty string is 0 and anything else is [NaN]
    here. *)
Fixpoint allDigits (s : string) : bool :=
  match s with
  | EmptyString => true
  | String c r => isDigit c && allDigits r
  end.

Definition Number (s : string) : option Z :=
  if allDigits s then
    match s with
    | EmptyString => Some 0
    | _ => digitsPrefix 0 false s
    end
  else None.

(** [String(n)] of an integer, in decimal. *)
Definition showZ (n : Z) : string := NilZero.string_of_int (Z.to_int n).

(** *** Regular expressions

    The two patterns of the code are anchored at both ends and have no
    flags, so [re.test(s)] is a match of the whole string. The matcher
    takes derivatives; [matches] is the language it decides. *)

Inductive regex : Type :=
| Void : regex
| Eps : regex
| Class : (ascii -> bool) -> regex
| Cat : regex -> regex -> regex
| Alt : regex -> regex -> regex
| Star : regex -> regex.

Definition Plus (r : regex) : regex := Cat r (Star r).

Fixpoint nullable (r : regex) : bool :=
  match r with
  | Void => false
  | Eps => true
  | Class _ => false
  | Cat a b => nullable a && nullable b
  | Alt a b => nullable a || nullable b
  | Star _ => true
  end.

Fixpoint deriv (c : ascii) (r : regex) : regex :=
  match r with
  | Void => Void
  | Eps => Void
  | Class p => if p c then Eps else Void
  | Cat a b =>
      if nullable a then Alt (Cat (deriv c a) b) (deriv c b)
      else Cat (deriv c a) b
  | Alt a b => Alt (deriv c a) (deriv c b)
  | Star a => Cat (deriv c a) (Star a)
  end.

Fixpoint test (r : regex) (s : string) : bool :=
  match s with
  | EmptyString => nullable r
  | String c t => test (deriv c r) t
  end.

Inductive matches : regex -> string -> Prop :=
| MEps : matches Eps ""
| MClass p c : p c = true -> matches (Class p) (String c "")
| MCat a b s t : matches a s -> matches b t -> matches (Cat a b) (s ++ t)
| MAltL a b s : matches a s -> matches (Alt a b) s
| MAltR a b s : matches b s -> matches (Alt a b) s
| MStarNil a : matches (Star a) ""
| MStarCons a c s t :
    matches a (String c s) -> matches (Star a) t ->
    matches (Star a) (String c s ++ t).

End JS.

(** ** Effects: a state and exception monad

    An [async] function that awaits each service call in turn is a
    computation over the state of the outside world that either returns
    or throws; [try { .. } catch { .. }] is [tryCatch]. *)

Module Eff.

(** A thrown value. Everything the two Lambdas can throw is an [Error]
    object (their own [new Error(..)], a [TypeError] of the engine or an
    error of the AWS SDK); only its [message] is ever read. *)
Record Error : Type := mkError { message : string }.

Inductive Result (A : Type) : Type :=
| Ok : A -> Result A
| Throw : Error -> Result A.

Arguments Ok {A} _.
Arguments Throw {A} _.

Definition M (W A : Type) : Type := W -> Result A * W.

Definition ret {W A} (a : A) : M W A := fun w => (Ok a, w).

Definition bind {W A B} (m : M W A) (k : A -> M W B) : M W B :=
  fun w =>
    match m w with
    | (Ok a, w') => k a w'
    | (Throw e, w') => (Throw e, w')
    end.

Definition throw {W A} (e : Error) : M W A := fun w => (Throw e, w).

Definition tryCatch {W A} (body : M W A) (handler : Error -> M W A) : M W A :=
  fun w =>
    match body w with
    | (Ok a, w') => (Ok a, w')
    | (Throw e, w') => handler e w'
    end.

Definition modify {W} (f : W -> W) : M W unit := fun w => (Ok tt, f w).

(** A settled promise: [await] returns its value or throws its reason. *)
Definition settle {W A} (r : Result A) : M W A := fun w => (r, w).

(** [await Promise.all(xs.map(f))]: every call is started, in order, and
    the result is the array of the values, or the reason of a rejected
    call (here the first one in array order). *)
Fixpoint promiseAll {W A B} (f : A -> M W B) (xs : list A) : M W (list B) :=
  match xs with
  | [] => ret []
  | x :: rest =>
      fun w =>
        let '(r, w1) := f x w in
        let '(rs, w2) := promiseAll f rest w1 in
        (match r, rs with
         | Ok b, Ok bs => Ok (b :: bs)
         | Throw e, _ => Throw e
         | Ok _, Throw e => Throw e
         end, w2)
  end.

End Eff.

Import Eff.

Declare Scope eff_scope.
Delimit Scope eff_scope with eff.
Notation "x <- m ;; k" := (Eff.bind m (fun x => k))
  (at level 100, m at next level, right associativity) : eff_scope.
Notation "m ;;; k" := (Eff.bind m (fun _ => k))
  (at level 100, right associativity) : eff_scope.

(** ** The [Date] object

    A [Date] is its time value: milliseconds since the epoch. The local
    time zone is a fixed offset from UTC (AWS Lambda runs in UTC, offset
    0), so [setDate(getDate() + n)] moves by whole days of 86400000 ms. *)

Module JSDate.

Definition msPerDay : Z := 86400000.
Definition msPerHour : Z := 3600000.
Definition msPerMinute : Z := 60000.

Section WithOffset.

(** Local time minus UTC, in milliseconds. *)
Variable utcOffset : Z.

Definition localDay (t : Z) : Z := (t + utcOffset) / msPerDay.

(** The time value of local midnight at the start of local day [d]. *)
Definition midnightOf (d : Z) : Z := d * msPerDay - utcOffset.

(** [t.setHours(0, 0, 0, 0)]. *)
Definition setHours0 (t : Z) : Z := midnightOf (localDay t).

(** [t.setDate(t.getDate() + n)]. *)
Definition addDays (t n : Z) : Z := t + n * msPerDay.

(** [t.getHours()] and [t.getMinutes()]. *)
Definition getHours (t : Z) : Z := ((t + utcOffset) mod msPerDay) / msPerHour.
Definition getMinutes (t : Z) : Z := ((t + utcOffset) mod msPerHour) / msPerMinute.

End WithOffset.

(** Year, month and day of the day number [z] (days since 1970-01-01) in
    the proleptic Gregorian calendar. *)
Definition civilFromDays (z : Z) : Z * Z * Z :=
  let z := z + 719468 in
  let era := z / 146097 in
  let doe := z - era * 146097 in
  let yoe := (doe - doe / 1460 + doe / 36524 - doe / 146096) / 365 in
  let doy := doe - (365 * yoe + yoe / 4 - yoe / 100) in
  let mp := (5 * doy + 2) / 153 in
  let d := doy - (153 * mp + 2) / 5 + 1 in
  let m := if mp <? 10 then mp + 3 else mp - 9 in
  let y := yoe + era * 400 + (if m <=? 2 then 1 else 0) in
  (y, m, d).

(** The day number of a year, month and day. *)
Definition daysFromCivil (y m d : Z) : Z :=
  let y := if m <=? 2 then y - 1 else y in
  let era := y / 400 in
  let yoe := y - era * 400 in
  let doy := (153 * (if m >? 2 then m - 3 else m + 9) + 2) / 5 + d - 1 in
  let doe := yoe * 365 + yoe / 4 - yoe / 100 + doy in
  era * 146097 + doe - 719468.

Definition showNat (n : Z) : string := NilZero.string_of_uint (N.to_uint (Z.to_N n)).

Fixpoint zeros (k : nat) : string :=
  match k with
  | O => ""
  | S k' => String "0" (zeros k')
  end.

(** [n] in decimal, padded with zeros on the left to [width] digits. *)
Definition pad (width : nat) (n : Z) : string :=
  let s := showNat n in
  zeros (width - String.length s) ++ s.

(** [t.toISOString().split("T")[0]]: the UTC date, [YYYY-MM-DD] for the
    years 0 to 9999 and a signed six-digit year outside them. *)
Definition toISODate (t : Z) : string :=
  let '(y, m, d) := civilFromDays (t / msPerDay) in
  let year :=
    if (0 <=? y) && (y <=? 9999) then pad 4 y
    else if y <? 0 then "-" ++ pad 6 (- y) else "+" ++ pad 6 y in
  year ++ "-" ++ pad 2 m ++ "-" ++ pad 2 d.

End JSDate.

(** ** LF1: the Lex V2 code hook *)

Module LF1.

(** *** Configuration *)

Definition VALID_CUISINES : list string :=
  ["chinese"; "japanese"; "italian"; "mexican"; "indian"; "thai"].

(** The own properties of the object literal [LOCATION_ALIASES]. *)
Definition LOCATION_ALIASES : list (string * string) :=
  [ ("manhattan", "manhattan");
    ("new york", "manhattan");
    ("new york city", "manhattan");
    ("nyc", "manhattan");
    ("ny", "manhattan");
    ("brooklyn", "brooklyn");
    ("queens", "queens");
    ("bronx", "bronx");
    ("the bronx", "bronx");
    ("staten island", "staten island") ].

(** What a property read can give: nothing, a string, or a member that an
    object literal inherits from [Object.prototype] (a function, or the
    prototype itself for [__proto__]). *)
Inductive value : Type :=
| Absent : value
| Str : string -> value
| Inherited : string -> value.

(** The properties every object literal inherits from [Object.prototype]. *)
Definition Object_prototype : list string :=
  [ "constructor"; "__defineGetter__"; "__defineSetter__"; "hasOwnProperty";
    "__lookupGetter__"; "__lookupSetter__"; "isPrototypeOf";
    "propertyIsEnumerable"; "toString"; "valueOf"; "__proto__";
    "toLocaleString" ].

Fixpoint ownProperty (props : list (string * string)) (key : string) : option string :=
  match props with
  | [] => None
  | (k, v) :: rest => if String.eqb k key then Some v else ownProperty rest key
  end.

(** [obj[key]] on an object literal: the own property, else the one found
    on the prototype chain. *)
Definition getProperty (props : list (string * string)) (key : string) : value :=
  match ownProperty props key with
  | Some v => Str v
  | None => if JS.includes Object_prototype key then Inherited key else Absent
  end.

Definition truthyValue (v : value) : bool :=
  match v with
  | Absent => false
  | Str s => JS.truthy s
  | Inherited _ => true
  end.

(** [a || b]. *)
Definition orValue (a b : value) : value := if truthyValue a then a else b.

Definition ofOption (o : option string) : value :=
  match o with
  | Some s => Str s
  | None => Absent
  end.

(** [normalizeLocation(raw)]. *)
Definition normalizeLocation (raw : option string) : value :=
  match raw with
  | None => Absent
  | Some r =>
      if negb (JS.truthy r) then Absent
      else
        let key := JS.trim (JS.toLowerCase r) in
        orValue (getProperty LOCATION_ALIASES key) Absent
  end.

(** *** The Lex V2 event and response *)

Record SlotValue : Type := mkSlotValue {
  interpretedValue : option string;
  originalValue : option string
}.

Record Slot : Type := mkSlot { slot_value : option SlotValue }.

(** The [slots] object: a slot name is bound to a slot or to [null]. *)
Abbreviation Slots := (gmap string (option Slot)).

Record Intent : Type := mkIntent {
  intent_name : string;
  intent_slots : Slots;
  intent_state : string
}.

Record SessionState : Type := mkSessionState {
  intent : Intent;
  sessionAttributes : option (gmap string string)
}.

(** The event of a code hook as Lex V2 sends it: it has a session state
    and the session state has an intent. The handler can also be run on
    an event without them; see [AnyEvent] below. *)
Record Event : Type := mkEvent {
  invocationSource : string;
  sessionState : SessionState
}.

Inductive DialogAction : Type :=
| Close : DialogAction
| ElicitSlot (slotToElicit : string) : DialogAction
| Delegate : DialogAction.

Record Message : Type := mkMessage { contentType : string; content : string }.

Record Response : Type := mkResponse {
  dialogAction : DialogAction;
  resp_intent : Intent;
  resp_sessionAttributes : gmap string string;
  messages : option (list Message)
}.

(** [getSlotValue(slots, slotName)]. *)
Definition getSlotValue (slots : Slots) (slotName : string) : option string :=
  match slots !! slotName with
  | Some (Some slot) =>
      match slot_value slot with
      | Some v => JS.orElse (interpretedValue v) (JS.orElse (originalValue v) None)
      | None => None
      end
  | _ => None
  end.

Definition attrsOrEmpty (event : Event) : gmap string string :=
  match sessionAttributes (sessionState event) with
  | Some a => a
  | None => ∅
  end.

(** [buildFulfillmentResponse(event, messageContent)]. *)
Definition buildFulfillmentResponse (event : Event) (messageContent : string) : Response :=
  {| dialogAction := Close;
     resp_intent :=
       {| intent_name := intent_name (intent (sessionState event));
          intent_slots := intent_slots (intent (sessionState event));
          intent_state := "Fulfilled" |};
     resp_sessionAttributes := attrsOrEmpty event;
     messages := Some [ {| contentType := "PlainText"; content := messageContent |} ] |}.

(** [buildElicitSlotResponse(event, slotToElicit, messageContent)]: the
    slots are copied and the elicited one is set to [null]. *)
Definition buildElicitSlotResponse (event : Event) (slotToElicit messageContent : string)
  : Response :=
  let slots : Slots := <[ slotToElicit := None ]> (intent_slots (intent (sessionState event))) in
  {| dialogAction := ElicitSlot slotToElicit;
     resp_intent :=
       {| intent_name := intent_name (intent (sessionState event));
          intent_slots := slots;
          intent_state := "InProgress" |};
     resp_sessionAttributes := attrsOrEmpty event;
     messages := Some [ {| contentType := "PlainText"; content := messageContent |} ] |}.

(** [buildDelegateResponse(event)]. *)
Definition buildDelegateResponse (event : Event) : Response :=
  {| dialogAction := Delegate;
     resp_intent :=
       {| intent_name := intent_name (intent (sessionState event));
          intent_slots := intent_slots (intent (sessionState event));
          intent_state := "InProgress" |};
     resp_sessionAttributes := attrsOrEmpty event;
     messages := None |}.

(** *** The platform: environment, clock and AWS clients *)

(** The body of the queue message, before [JSON.stringify]. *)
Record SqsMessage : Type := mkSqsMessage {
  msg_Location : value;
  msg_Cuisine : string;
  msg_NumberOfPeople : option string;
  msg_DiningDate : option string;
  msg_DiningTime : option string;
  msg_Email : option string
}.

(** The item written to the [user-state] table; the timestamp is the time
    value whose ISO string is stored. *)
Record UserStateItem : Type := mkUserStateItem {
  item_Email : option string;
  item_Location : value;
  item_Cuisine : string;
  item_NumberOfPeople : string;
  item_DiningDate : option string;
  item_DiningTime : option string;
  item_LastSearchTimestamp : Z
}.

Record Platform : Type := mkPlatform {
  (** [process.env.SQS_QUEUE_URL] *)
  SQS_QUEUE_URL : option string;
  (** local time minus UTC, in milliseconds *)
  utcOffset : Z;
  (** [clock k] is the time value of the k-th [new Date()] of the invocation *)
  clock : nat -> Z;
  (** the time value of [new Date(s)], [None] for an invalid date *)
  Date_parse : string -> option Z;
  (** how [sqsClient.send(new SendMessageCommand(..))] settles *)
  sqs_send : string -> SqsMessage -> Result unit;
  (** how [dynamoClient.send(new PutItemCommand(..))] settles *)
  dynamo_put : UserStateItem -> Result unit
}.

(** What the invocation has done to the outside world: the messages put
    on the queue and the items put in the table, latest first. *)
Record World : Type := mkWorld {
  enqueued : list SqsMessage;
  saved : list UserStateItem
}.

Definition dq : string := String (ascii_of_nat 34) EmptyString.

(** A value interpolated in a template literal. *)
Definition interp (o : option string) : string :=
  match o with
  | Some s => s
  | None => "null"
  end.

Definition capitalize (c : string) : string :=
  JS.toUpperCase (JS.charAt0 c) ++ JS.slice1 c.

(** *** Dialog validation

    [handleDialogValidation] is a sequence of blocks, one per slot; each
    either returns a response or falls through to the next. A block is
    [Some r] when it returns [r]. *)

Definition orReturn (block : option Response) (rest : Response) : Response :=
  match block with
  | Some r => r
  | None => rest
  end.

Notation "block ?> rest" := (orReturn block rest)
  (at level 70, right associativity, only parsing).

Definition check_Location (event : Event) (location : option string) : option Response :=
  if JS.present location then
    let normalized := normalizeLocation location in
    if negb (truthyValue normalized) then
      Some (buildElicitSlotResponse event "Location"
        ("Sorry, we only serve the New York City area right now. " ++
         dq ++ interp location ++ dq ++ " isn't in our coverage. " ++
         "Try Manhattan, Brooklyn, Queens, or just " ++ dq ++ "NYC" ++ dq ++ "."))
    else None
  else None.

Definition check_Cuisine (event : Event) (cuisine : option string) : option Response :=
  if JS.present cuisine then
    if negb (JS.includes VALID_CUISINES (JS.trim (JS.toLowerCase (interp cuisine)))) then
      Some (buildElicitSlotResponse event "Cuisine"
        ("Hmm, I don't have " ++ dq ++ interp cuisine ++ dq ++ " in my list yet. " ++
         "I can help with: " ++ JS.join ", " (map capitalize VALID_CUISINES) ++ ". " ++
         "Which one sounds good?"))
    else None
  else None.

Definition msg_notANumber : string :=
  "That doesn't look right. How many people will be dining? Please enter a number (e.g., 2).".

(** The characters of a message that are not ASCII are kept as the bytes
    they have in the source file. *)
Definition msg_largeParty : string :=
  "That's a large party! For groups over 20, please contact the restaurant directly. " ++
  "How many people (1â€“20)?".

Definition check_NumberOfPeople (event : Event) (numberOfPeople : option string)
  : option Response :=
  if JS.present numberOfPeople then
    match JS.parseInt10 (interp numberOfPeople) with
    | None => Some (buildElicitSlotResponse event "NumberOfPeople" msg_notANumber)
    | Some num =>
        if num <? 1 then
          Some (buildElicitSlotResponse event "NumberOfPeople" msg_notANumber)
        else if num >? 20 then
          Some (buildElicitSlotResponse event "NumberOfPeople" msg_largeParty)
        else None
    end
  else None.

Definition check_DiningDate (P : Platform) (event : Event) (diningDate : option string)
  : option Response :=
  if JS.present diningDate then
    let today := JSDate.setHours0 (utcOffset P) (clock P 0) in
    match Date_parse P (interp diningDate ++ "T00:00:00") with
    | None =>
        Some (buildElicitSlotResponse event "DiningDate"
          ("I couldn't understand that date. Could you try again? " ++
           "You can say " ++ dq ++ "today" ++ dq ++ ", " ++ dq ++ "tomorrow" ++ dq ++
           ", or a date like " ++ dq ++ "March 5th" ++ dq ++ "."))
    | Some requested =>
        if requested <? today then
          Some (buildElicitSlotResponse event "DiningDate"
            ("That date (" ++ interp diningDate ++ ") is in the past! " ++
             "Please pick today or a future date."))
        else
          let maxFuture := JSDate.addDays today 90 in
          if requested >? maxFuture then
            Some (buildElicitSlotResponse event "DiningDate"
              ("That's quite far out! I can only take reservations up to 90 days ahead. " ++
               "Could you pick a closer date?"))
          else None
    end
  else None.

(** [/^\d{2}:\d{2}$/] *)
Definition timeRegex : JS.regex :=
  JS.Cat (JS.Class JS.isDigit) (JS.Cat (JS.Class JS.isDigit)
    (JS.Cat (JS.Class (Ascii.eqb ":"))
      (JS.Cat (JS.Class JS.isDigit) (JS.Class JS.isDigit)))).

(** [a < b], [a > b], [a <= b], [a === b] on numbers: false when either
    side is [NaN]. *)
Definition numLt (a b : option Z) : bool :=
  match a, b with Some x, Some y => x <? y | _, _ => false end.
Definition numGt (a b : option Z) : bool := numLt b a.
Definition numLe (a b : option Z) : bool :=
  match a, b with Some x, Some y => x <=? y | _, _ => false end.
Definition numEq (a b : option Z) : bool :=
  match a, b with Some x, Some y => x =? y | _, _ => false end.

Definition check_DiningTime (P : Platform) (event : Event)
  (diningDate diningTime : option string) : option Response :=
  if JS.present diningTime then
    if negb (JS.test timeRegex (interp diningTime)) then
      Some (buildElicitSlotResponse event "DiningTime"
        ("I couldn't parse that time. Try something like " ++ dq ++ "7 pm" ++ dq ++
         " or " ++ dq ++ "19:30" ++ dq ++ "."))
    else
      let parts := map JS.Number (JS.split ":" (interp diningTime)) in
      let hours := nth 0 parts None in
      let minutes := nth 1 parts None in
      if numLt hours (Some 6) || numGt hours (Some 23) then
        Some (buildElicitSlotResponse event "DiningTime"
          ("Most restaurants are open between 6 AM and 11 PM. " ++
           "Could you pick a time in that range?"))
      else if JS.present diningDate then
        let now := clock P 1 in
        let todayStr := JSDate.toISODate now in
        if String.eqb (interp diningDate) todayStr then
          let nowHours := Some (JSDate.getHours (utcOffset P) now) in
          let nowMinutes := Some (JSDate.getMinutes (utcOffset P) now) in
          if numLt hours nowHours || (numEq hours nowHours && numLe minutes nowMinutes) then
            Some (buildElicitSlotResponse event "DiningTime"
              ("It's already past " ++ interp diningTime ++ " today! Please pick a later time, " ++
               "or choose a future date."))
          else None
        else None
      else None
  else None.

(** [[^\s@]] *)
Definition notSpaceAt (c : ascii) : bool :=
  negb (JS.isWhiteSpace c || Ascii.eqb c "@").

(** [/^[^\s@]+@[^\s@]+\.[^\s@]+$/] *)
Definition emailRegex : JS.regex :=
  JS.Cat (JS.Plus (JS.Class notSpaceAt)) (JS.Cat (JS.Class (Ascii.eqb "@"))
    (JS.Cat (JS.Plus (JS.Class notSpaceAt)) (JS.Cat (JS.Class (Ascii.eqb "."))
      (JS.Plus (JS.Class notSpaceAt))))).

Definition check_Email (event : Event) (email : option string) : option Response :=
  if JS.present email then
    if negb (JS.test emailRegex (interp email)) then
      Some (buildElicitSlotResponse event "Email"
        ("That doesn't look like a valid email. " ++
         "Please enter an email like yourname@example.com."))
    else None
  else None.

(** [handleDialogValidation(event, slots, sessionAttrs)]. *)
Definition handleDialogValidation (P : Platform) (event : Event) (slots : Slots)
  (sessionAttrs : gmap string string) : Response :=
  let location := getSlotValue slots "Location" in
  let cuisine := getSlotValue slots "Cuisine" in
  let numberOfPeople := getSlotValue slots "NumberOfPeople" in
  let diningDate := getSlotValue slots "DiningDate" in
  let diningTime := getSlotValue slots "DiningTime" in
  let email := getSlotValue slots "Email" in
  check_Location event location ?>
  check_Cuisine event cuisine ?>
  check_NumberOfPeople event numberOfPeople ?>
  check_DiningDate P event diningDate ?>
  check_DiningTime P event diningDate diningTime ?>
  check_Email event email ?>
  buildDelegateResponse event.

(** *** Fulfilment *)

Local Open Scope eff_scope.

(** [await sqsClient.send(new SendMessageCommand(..))]: when the call
    resolves the message is on the queue. *)
Definition sendMessage (P : Platform) (url : string) (body : SqsMessage) : M World unit :=
  _ <- settle (sqs_send P url body) ;;
  modify (fun w => {| enqueued := body :: enqueued w; saved := saved w |}).

(** [await dynamoClient.send(new PutItemCommand(..))]. *)
Definition putItem (P : Platform) (item : UserStateItem) : M World unit :=
  _ <- settle (dynamo_put P item) ;;
  modify (fun w => {| enqueued := enqueued w; saved := item :: saved w |}).

(** [saveUserState(email, location, cuisine, numberOfPeople, diningDate,
    diningTime)]: the write is inside a [try] whose [catch] only logs. *)
Definition saveUserState (P : Platform) (email : option string) (location : value)
  (cuisine : string) (numberOfPeople diningDate diningTime : option string)
  : M World unit :=
  tryCatch
    (putItem P
       {| item_Email := email;
          item_Location := location;
          item_Cuisine := cuisine;
          item_NumberOfPeople := interp numberOfPeople;
          item_DiningDate := diningDate;
          item_DiningTime := diningTime;
          item_LastSearchTimestamp := clock P 0 |})
    (fun err => ret tt).

Definition msg_notConfigured : string :=
  "I'm sorry, the restaurant suggestion service isn't configured yet. " ++
  "Please try again later.".

Definition msg_confirmation (cuisine : string)
  (numberOfPeople diningDate diningTime email : option string) : string :=
  let cuisineDisplay :=
    JS.toUpperCase (JS.charAt0 cuisine) ++ JS.toLowerCase (JS.slice1 cuisine) in
  "You're all set! Expect my " ++ cuisineDisplay ++ " restaurant suggestions " ++
  "for " ++ interp numberOfPeople ++ " people on " ++ interp diningDate ++
  " around " ++ interp diningTime ++ " " ++
  "in your inbox at " ++ interp email ++ " shortly. Have a great day!".

Definition msg_fulfillmentError : string :=
  "I'm sorry, something went wrong while processing your request. " ++
  "Please try again in a moment.".

(** [handleFulfillment(event, slots, sessionAttrs)]. Reading
    [cuisine.toLowerCase()] of an absent cuisine throws a [TypeError]
    before the [try]. *)
Definition handleFulfillment (P : Platform) (event : Event) (slots : Slots)
  (sessionAttrs : gmap string string) : M World Response :=
  let locationRaw := getSlotValue slots "Location" in
  let cuisine := getSlotValue slots "Cuisine" in
  let numberOfPeople := getSlotValue slots "NumberOfPeople" in
  let diningDate := getSlotValue slots "DiningDate" in
  let diningTime := getSlotValue slots "DiningTime" in
  let email := getSlotValue slots "Email" in
  let location := orValue (normalizeLocation locationRaw) (ofOption locationRaw) in
  match cuisine with
  | None =>
      throw (mkError "Cannot read properties of null (reading 'toLowerCase')")
  | Some cuisine =>
      let sqsMessage :=
        {| msg_Location := location;
           msg_Cuisine := JS.trim (JS.toLowerCase cuisine);
           msg_NumberOfPeople := numberOfPeople;
           msg_DiningDate := diningDate;
           msg_DiningTime := diningTime;
           msg_Email := email |} in
      tryCatch
        (match SQS_QUEUE_URL P with
         | Some sqsQueueUrl =>
             if JS.truthy sqsQueueUrl then
               _ <- sendMessage P sqsQueueUrl sqsMessage ;;
               _ <- saveUserState P email location cuisine numberOfPeople diningDate diningTime ;;
               ret (buildFulfillmentResponse event
                      (msg_confirmation cuisine numberOfPeople diningDate diningTime email))
             else ret (buildFulfillmentResponse event msg_notConfigured)
         | None => ret (buildFulfillmentResponse event msg_notConfigured)
         end)
        (fun error => ret (buildFulfillmentResponse event msg_fulfillmentError))
  end.

(** *** The handler *)

Definition msg_greeting : string :=
  "Hi there! I can help you find restaurant suggestions. " ++
  "Just say something like " ++ dq ++ "I'm looking for Italian food" ++ dq ++
  " to get started.".

Definition msg_thankYou : string :=
  "You're welcome! If you want to search again, just say " ++
  dq ++ "find me a restaurant" ++ dq ++ " anytime. Enjoy your meal! ðŸ˜Š".

Definition msg_fallback : string :=
  "I'm not sure I understood that. I can help you find restaurant suggestions â€” " ++
  "just say something like " ++ dq ++ "I want to eat" ++ dq ++ " or " ++
  dq ++ "find me a restaurant" ++ dq ++ ". " ++
  "If you already made a request, I can't modify it, but you can start a new one!".

Definition msg_oops : string :=
  "Oops, something went wrong on my end. Please try again in a moment.".

(** [handler(event)]. *)
Definition handler (P : Platform) (event : Event) : M World Response :=
  let intentName := intent_name (intent (sessionState event)) in
  let invocationSource := invocationSource event in
  let slots := intent_slots (intent (sessionState event)) in
  let sessionAttrs := attrsOrEmpty event in
  tryCatch
    (if String.eqb intentName "GreetingIntent" then
       ret (buildFulfillmentResponse event msg_greeting)
     else if String.eqb intentName "ThankYouIntent" then
       ret (buildFulfillmentResponse event msg_thankYou)
     else if String.eqb intentName "DiningSuggestionsIntent"
             && String.eqb invocationSource "DialogCodeHook" then
       ret (handleDialogValidation P event slots sessionAttrs)
     else if String.eqb intentName "DiningSuggestionsIntent"
             && String.eqb invocationSource "FulfillmentCodeHook" then
       handleFulfillment P event slots sessionAttrs
     else ret (buildFulfillmentResponse event msg_fallback))
    (fun err => ret (buildFulfillmentResponse event msg_oops)).

(** *** Events without an intent

    The handler reads [event.sessionState?.intent?.name] and the slots
    through [?.], so it runs on an event that has no [sessionState], or
    whose [sessionState] has no [intent]: [intentName] is [undefined] and
    [slots] is an empty object. The response builders read
    [event.sessionState.intent.name] without [?.], which throws a
    [TypeError] on such an event. *)

Inductive AnyEvent : Type :=
| WithIntent (event : Event) : AnyEvent
| WithoutIntent (hasSessionState : bool) : AnyEvent.

(** The [TypeError] of [event.sessionState.intent.name]. *)
Definition missingIntent (hasSessionState : bool) : Error :=
  mkError (if hasSessionState
           then "Cannot read properties of undefined (reading 'name')"
           else "Cannot read properties of undefined (reading 'intent')").

(** [buildFulfillmentResponse(event, messageContent)] on any event. *)
Definition buildFulfillmentResponse_any (event : AnyEvent) (messageContent : string)
  : M World Response :=
  match event with
  | WithIntent event => ret (buildFulfillmentResponse event messageContent)
  | WithoutIntent hasSessionState => throw (missingIntent hasSessionState)
  end.

(** [handler(event)] on any event. Without an intent, [intentName] is
    [undefined] and equals none of the three names, so the [try] goes to
    the fallback response; the [catch] builds its response from the same
    event. *)
Definition handler_any (P : Platform) (event : AnyEvent) : M World Response :=
  let intentName :=
    match event with
    | WithIntent e => Some (intent_name (intent (sessionState e)))
    | WithoutIntent _ => None
    end in
  let named (name : string) : bool :=
    match intentName with
    | Some n => String.eqb n name
    | None => false
    end in
  tryCatch
    (if named "GreetingIntent" then
       buildFulfillmentResponse_any event msg_greeting
     else if named "ThankYouIntent" then
       buildFulfillmentResponse_any event msg_thankYou
     else
       match event with
       | WithIntent e =>
           let slots := intent_slots (intent (sessionState e)) in
           let sessionAttrs := attrsOrEmpty e in
           if named "DiningSuggestionsIntent"
              && String.eqb (invocationSource e) "DialogCodeHook" then
             ret (handleDialogValidation P e slots sessionAttrs)
           else if named "DiningSuggestionsIntent"
                   && String.eqb (invocationSource e) "FulfillmentCodeHook" then
             handleFulfillment P e slots sessionAttrs
           else buildFulfillmentResponse_any event msg_fallback
       | WithoutIntent _ => buildFulfillmentResponse_any event msg_fallback
       end)
    (fun err => buildFulfillmentResponse_any event msg_oops).

Local Close Scope eff_scope.

End LF1.

(** ** LF2: the queue worker *)

Module LF2.

(** *** Random choice

    [Math.random()] is a double [k / 2^bits] with [0 <= k < 2^bits], for
    the [bits] of precision of the engine. A computation that draws
    random numbers reads them off a tape of such numerators [k]; a tape
    that runs out keeps returning 0. *)

Definition Rand (A : Type) : Type := list Z -> A * list Z.

Definition Math_random : Rand Z :=
  fun tape =>
    match tape with
    | [] => (0, [])
    | k :: rest => (k, rest)
    end.

(** [() => 0.5 - Math.random()], scaled by [2^(bits+1)] to stay an
    integer: the comparator ignores the two elements it is given. A sort
    reads the sign only. *)
Definition randomComparator {A : Type} (bits : nat) (a b : A) : Rand Z :=
  fun tape =>
    let '(k, rest) := Math_random tape in
    (2 ^ Z.of_nat bits - 2 * k, rest).

(** [array.slice(0, k)]. *)
Definition slice0 {A : Type} (k : nat) (array : list A) : list A := firstn k array.

(** The type of [Array.prototype.sort] applied to a comparator. *)
Definition Sort (A : Type) : Type := (A -> A -> Rand Z) -> list A -> Rand (list A).

(** [getRandomItems(array, n)]: a copy of the array is sorted with the
    random comparator and its first [min(n, length)] elements are taken. *)
Definition getRandomItems {A : Type} (sort : Sort A) (bits : nat)
  (array : list A) (n : nat) : Rand (list A) :=
  fun tape =>
    let '(shuffled, rest) := sort (randomComparator bits) array tape in
    (slice0 (Nat.min n (length shuffled)) shuffled, rest).

(** What every engine's [sort] does whatever the comparator answers: the
    result is a rearrangement of the array (with a comparator that is
    not consistent only the order is left to the implementation). *)
Definition permutes {A : Type} (sort : Sort A) : Prop :=
  forall cmp array tape, Permutation (fst (sort cmp array tape)) array.

(** *** Messages, records and the platform *)

Record QueueMessage : Type := mkQueueMessage {
  Body : string;
  ReceiptHandle : string
}.

(** [JSON.parse(message.Body)], destructured. *)
Record MessageBody : Type := mkMessageBody {
  Location : option string;
  Cuisine : option string;
  NumberOfPeople : option string;
  DiningDate : option string;
  DiningTime : option string;
  Email : option string
}.

(** An item of the [yelp-restaurants] table: the [S] or [N] of each
    attribute, when the attribute is there. *)
Record Item : Type := mkItem {
  item_Name : option string;
  item_Address : option string;
  item_Rating : option string;
  item_NumberOfReviews : option string;
  item_ZipCode : option string
}.

Record Restaurant : Type := mkRestaurant {
  name : string;
  address : string;
  rating : option string;
  numberOfReviews : option string;
  zipCode : option string
}.

Record EmailMessage : Type := mkEmailMessage {
  Source : string;
  ToAddresses : list (option string);
  Subject : string;
  Text : string;
  Html : string
}.

Record Response : Type := mkResponse { statusCode : Z; body : string }.

(** A call to an AWS service or to the search index. *)
Inductive Call : Type :=
| ReceiveMessage (queueUrl : string)
| Search (cuisine : string)
| GetItem (businessId : string)
| SendEmail (email : EmailMessage)
| DeleteMessage (queueUrl receiptHandle : string).

Record Platform : Type := mkPlatform {
  (** [process.env]; the user name and password of the search index only
      go into a header of the request *)
  SQS_QUEUE_URL : option string;
  OPENSEARCH_ENDPOINT : option string;
  SES_SENDER_EMAIL : option string;
  (** the engine: precision of [Math.random], [Array.prototype.sort], [JSON.parse] *)
  randomBits : nat;
  Array_sort : Sort string;
  JSON_parse : string -> Result MessageBody;
  (** how [ReceiveMessageCommand] settles on a queue: its [Messages] *)
  sqs_receive : list QueueMessage -> Result (option (list QueueMessage));
  (** how the search for a lower-cased cuisine settles (the request, the
      parse of its response and the reading of the hits): the
      [RestaurantID] of each hit, or nothing when there is no [hits.hits] *)
  opensearch : string -> Result (option (list string));
  (** how [GetItemCommand] settles: its [Item] *)
  dynamo_get : string -> Result (option Item);
  (** how [SendEmailCommand] settles *)
  ses_send : EmailMessage -> Result unit;
  (** how [DeleteMessageCommand] settles *)
  sqs_delete : string -> Result unit
}.

(** The outside world of one invocation: the queue, the random tape, the
    mail delivered and the calls made, in order. *)
Record World : Type := mkWorld {
  queue : list QueueMessage;
  tape : list Z;
  delivered : list EmailMessage;
  calls : list Call
}.

Local Open Scope eff_scope.

Definition call (c : Call) : M World unit :=
  modify (fun w => {| queue := queue w; tape := tape w;
                      delivered := delivered w; calls := calls w ++ [c] |}).

Definition random {A : Type} (r : Rand A) : M World A :=
  fun w =>
    let '(a, rest) := r (tape w) in
    (Ok a, {| queue := queue w; tape := rest;
              delivered := delivered w; calls := calls w |}).

Definition getQueue : M World (list QueueMessage) := fun w => (Ok (queue w), w).

(** A value interpolated in a template literal. *)
Definition interp (o : option string) : string :=
  match o with
  | Some s => s
  | None => "undefined"
  end.

Definition nl : string := String (ascii_of_nat 10) EmptyString.

(** [searchOpenSearch(cuisine)]. *)
Definition searchOpenSearch (P : Platform) (cuisine : option string) : M World (list string) :=
  match OPENSEARCH_ENDPOINT P with
  | Some endpoint =>
      if JS.truthy endpoint then
        match cuisine with
        | Some c =>
            _ <- call (Search (JS.toLowerCase c)) ;;
            result <- settle (opensearch P (JS.toLowerCase c)) ;;
            match result with
            | None => ret []
            | Some hits => ret hits
            end
        | None =>
            throw (mkError "Cannot read properties of undefined (reading 'toLowerCase')")
        end
      else throw (mkError "OPENSEARCH_ENDPOINT not configured")
  | None => throw (mkError "OPENSEARCH_ENDPOINT not configured")
  end.

Definition orDefault (o : option string) (d : string) : string :=
  match JS.orElse o None with
  | Some s => s
  | None => d
  end.

(** [getRestaurantFromDynamoDB(businessId)]. *)
Definition getRestaurantFromDynamoDB (P : Platform) (businessId : string)
  : M World Restaurant :=
  _ <- call (GetItem businessId) ;;
  result <- settle (dynamo_get P businessId) ;;
  match result with
  | None =>
      ret {| name := "Unknown Restaurant"; address := "Address not available";
             rating := None; numberOfReviews := None; zipCode := None |}
  | Some item =>
      ret {| name := orDefault (item_Name item) "Unknown Restaurant";
             address := orDefault (item_Address item) "Address not available";
             rating := Some (orDefault (item_Rating item) "N/A");
             numberOfReviews := Some (orDefault (item_NumberOfReviews item) "N/A");
             zipCode := Some (orDefault (item_ZipCode item) "") |}
  end.

Definition showNat (n : nat) : string := NilZero.string_of_uint (Nat.to_uint n).

(** [restaurants.map((r, i) => ..)] of the text body. *)
Fixpoint restaurantLines (i : nat) (restaurants : list Restaurant) : list string :=
  match restaurants with
  | [] => []
  | r :: rest =>
      (showNat (i + 1) ++ ". " ++ name r ++ ", located at " ++ address r)
        :: restaurantLines (S i) rest
  end.

Definition restaurantHtml (r : Restaurant) : string :=
  "<li><strong>" ++ name r ++ "</strong>, located at " ++ address r ++
  " (Rating: " ++ interp (rating r) ++ "/5, " ++ interp (numberOfReviews r) ++
  " reviews)</li>".

(** [sendEmailViaSES(recipientEmail, cuisine, numberOfPeople, diningDate,
    diningTime, restaurants)]. *)
Definition sendEmailViaSES (P : Platform)
  (recipientEmail cuisine numberOfPeople diningDate diningTime : option string)
  (restaurants : list Restaurant) : M World unit :=
  match JS.orElse (SES_SENDER_EMAIL P) None with
  | None => throw (mkError "SES_SENDER_EMAIL not configured")
  | Some senderEmail =>
      let restaurantList := JS.join nl (restaurantLines 0 restaurants) in
      let emailBody :=
        "Hello! Here are my " ++ interp cuisine ++ " restaurant suggestions for " ++
        interp numberOfPeople ++ " people, for " ++ interp diningDate ++ " at " ++
        interp diningTime ++ ":" ++ nl ++ nl ++ restaurantList ++ nl ++ nl ++
        "Enjoy your meal!" in
      let emailHtml :=
        nl ++ "    <html>" ++ nl ++ "      <body>" ++ nl ++
        "        <p>Hello!</p>" ++ nl ++
        "        <p>Here are my <strong>" ++ interp cuisine ++
        "</strong> restaurant suggestions for <strong>" ++ interp numberOfPeople ++
        "</strong> people, for <strong>" ++ interp diningDate ++
        "</strong> at <strong>" ++ interp diningTime ++ "</strong>:</p>" ++ nl ++
        "        <ol>" ++ nl ++
        "          " ++ JS.join "" (map restaurantHtml restaurants) ++ nl ++
        "        </ol>" ++ nl ++
        "        <p>Enjoy your meal!</p>" ++ nl ++
        "      </body>" ++ nl ++ "    </html>" ++ nl ++ "  " in
      let email :=
        {| Source := senderEmail;
           ToAddresses := [recipientEmail];
           Subject := "Your " ++ interp cuisine ++ " Restaurant Suggestions";
           Text := emailBody;
           Html := emailHtml |} in
      _ <- call (SendEmail email) ;;
      _ <- settle (ses_send P email) ;;
      modify (fun w => {| queue := queue w; tape := tape w;
                          delivered := delivered w ++ [email]; calls := calls w |})
  end.

(** [deleteSQSMessage(queueUrl, receiptHandle)]: when the call resolves
    the message with that receipt handle is gone from the queue. *)
Definition deleteSQSMessage (P : Platform) (queueUrl receiptHandle : string) : M World unit :=
  _ <- call (DeleteMessage queueUrl receiptHandle) ;;
  _ <- settle (sqs_delete P receiptHandle) ;;
  modify (fun w =>
    {| queue := List.filter (fun m => negb (String.eqb (ReceiptHandle m) receiptHandle)) (queue w);
       tape := tape w; delivered := delivered w; calls := calls w |}).

(** [handler(event)]. *)
Definition handler (P : Platform) : M World Response :=
  match JS.orElse (SQS_QUEUE_URL P) None with
  | None => ret {| statusCode := 500; body := "SQS_QUEUE_URL not configured" |}
  | Some sqsQueueUrl =>
      tryCatch
        (_ <- call (ReceiveMessage sqsQueueUrl) ;;
         q <- getQueue ;;
         receiveResult <- settle (sqs_receive P q) ;;
         match receiveResult with
         | None | Some [] => ret {| statusCode := 200; body := "No messages to process" |}
         | Some (message :: _) =>
             messageBody <- settle (JSON_parse P (Body message)) ;;
             restaurantIds <- searchOpenSearch P (Cuisine messageBody) ;;
             if Nat.eqb (length restaurantIds) 0 then
               _ <- deleteSQSMessage P sqsQueueUrl (ReceiptHandle message) ;;
               ret {| statusCode := 200; body := "No restaurants found" |}
             else
               selectedIds <-
                 random (getRandomItems (Array_sort P) (randomBits P) restaurantIds 3) ;;
               restaurants <- promiseAll (getRestaurantFromDynamoDB P) selectedIds ;;
               _ <- tryCatch
                      (sendEmailViaSES P (Email messageBody) (Cuisine messageBody)
                         (NumberOfPeople messageBody) (DiningDate messageBody)
                         (DiningTime messageBody) restaurants)
                      (fun emailError => ret tt) ;;
               _ <- deleteSQSMessage P sqsQueueUrl (ReceiptHandle message) ;;
               ret {| statusCode := 200; body := "Message processed" |}
         end)
        (fun error => ret {| statusCode := 500; body := message error |})
  end.

Local Close Scope eff_scope.

End LF2.

(** ** LF2: the HTTP request to the search index

    [makeHttpRequest] registers callbacks on the request and on the
    response; the network is the sequence of events that reach them. The
    promise it returns is a state that the callbacks settle. *)

Module Http.

Inductive Transport : Type := ViaHttp | ViaHttps.

(** The [options] object: the fields that [searchOpenSearch] sets. *)
Record Options : Type := mkOptions {
  hostname : string;
  port : string;
  path : string;
  method : string;
  headers : list (string * string);
  body : option string;
  protocol : option string
}.

(** What [makeHttpRequest] does with the request: the module whose
    [request] it calls, the options it passes (after the two [delete]s)
    and what it writes before [req.end()]. *)
Record Request : Type := mkRequest {
  transport : Transport;
  requestOptions : Options;
  written : list string
}.

(** The events, in the order in which their callbacks run: the response
    arrives (the callback of [request], with [res.statusCode]), a chunk
    of it arrives ([chunk] as [data += chunk] appends it), it ends, or the
    request fails. *)
Inductive NetEvent : Type :=
| OnResponse (statusCode : Z)
| OnData (chunk : string)
| OnEnd
| OnError (e : Error).

(** A promise: pending, or settled once and for all. *)
Inductive Promise : Type :=
| Pending
| Settled (r : Result string).

(** The variables that the callbacks share: the response whose listeners
    are registered, [data], and the promise. *)
Record State : Type := mkState {
  response : option Z;
  data : string;
  promise : Promise
}.

(** [resolve] and [reject] have no effect on a settled promise. *)
Definition settleWith (r : Result string) (p : Promise) : Promise :=
  match p with
  | Pending => Settled r
  | Settled _ => p
  end.

Definition requestFailed (statusCode : Z) (data : string) : Error :=
  mkError ("OpenSearch request failed: " ++ JS.showZ statusCode ++ " - " ++ data).

Definition step (s : State) (ev : NetEvent) : State :=
  match ev with
  | OnResponse statusCode =>
      {| response := Some statusCode; data := ""; promise := promise s |}
  | OnData chunk =>
      match response s with
      | Some _ => {| response := response s; data := data s ++ chunk; promise := promise s |}
      | None => s
      end
  | OnEnd =>
      match response s with
      | Some statusCode =>
          {| response := response s; data := data s;
             promise :=
               settleWith
                 (if (200 <=? statusCode) && (statusCode <? 300) then Ok (data s)
                  else Throw (requestFailed statusCode (data s)))
                 (promise s) |}
      | None => s
      end
  | OnError e =>
      {| response := response s; data := data s;
         promise := settleWith (Throw e) (promise s) |}
  end.

(** [makeHttpRequest(options)] on a network that answers with [events]:
    the request made and the promise after the events. *)
Definition makeHttpRequest (options : Options) (events : list NetEvent)
  : Request * Promise :=
  let client :=
    match protocol options with
    | Some p => if String.eqb p "http:" then ViaHttp else ViaHttps
    | None => ViaHttps
    end in
  let request :=
    {| transport := client;
       requestOptions :=
         {| hostname := hostname options; port := port options; path := path options;
            method := method options; headers := headers options;
            body := None; protocol := None |};
       written := if JS.present (body options) then [LF2.interp (body options)] else [] |} in
  (request,
   promise (fold_left step events
              {| response := None; data := ""; promise := Pending |})).

End Http.

(** ** LF0: the chat API in front of Lex

    The handler behind [POST /chatbot]. The [body] of a response is the
    object that the code passes to [JSON.stringify]; a request is the
    part of the event that the code reads. *)

Module LF0.

(** [messages[i].unstructured] of a request: its [text]. *)
Record RequestUnstructured : Type := mkRequestUnstructured {
  req_text : option string
}.

(** [messages[i]] of a request; [None] is a falsy [unstructured]. *)
Record RequestMessage : Type := mkRequestMessage {
  req_unstructured : option RequestUnstructured
}.

(** A request body: its [messages], whose elements may be [null]. *)
Record RequestBody : Type := mkRequestBody {
  req_messages : option (list (option RequestMessage))
}.

(** [event.body]: a string, an object, or nothing (a falsy value). *)
Inductive EventBody : Type :=
| BodyString (s : string)
| BodyObject (b : RequestBody)
| BodyMissing.

(** The event: its [body], the [messages] of the event itself, which
    are read when it has no body, and
    [requestContext.identity.sourceIp]. *)
Record Event : Type := mkEvent {
  event_body : EventBody;
  event_self : RequestBody;
  sourceIp : option string
}.

Record Unstructured : Type := mkUnstructured {
  id : string;
  text : string;
  (** the time value whose ISO string is sent *)
  timestamp : Z
}.

Record BotMessage : Type := mkBotMessage {
  type : string;
  unstructured : Unstructured
}.

Record Response : Type := mkResponse {
  statusCode : Z;
  headers : list (string * string);
  body : list BotMessage
}.

Record LexCommand : Type := mkLexCommand {
  botId : string;
  botAliasId : string;
  localeId : string;
  sessionId : string;
  lex_text : option string
}.

Record LexMessage : Type := mkLexMessage { lex_content : option string }.

Record LexResponse : Type := mkLexResponse {
  lex_messages : option (list LexMessage)
}.

Record Platform : Type := mkPlatform {
  (** [process.env] *)
  BOT_ID : option string;
  BOT_ALIAS_ID : option string;
  (** the time value of the [new Date()] of the invocation *)
  now : Z;
  (** [JSON.parse] of a request body; [Ok None] is a body that parses to
      [null] *)
  JSON_parse : string -> Result (option RequestBody);
  (** how [lexClient.send(new RecognizeTextCommand(..))] settles *)
  lex_send : LexCommand -> Result LexResponse
}.

(** The commands sent to Lex, in order. *)
Record World : Type := mkWorld { recognized : list LexCommand }.

Local Open Scope eff_scope.

Definition corsHeaders : list (string * string) :=
  [ ("Access-Control-Allow-Origin", "*");
    ("Access-Control-Allow-Headers",
     "Content-Type,X-Amz-Date,Authorization,X-Api-Key,X-Amz-Security-Token");
    ("Access-Control-Allow-Methods", "OPTIONS,POST");
    ("Content-Type", "application/json") ].

(** The response that each [return] of the handler builds. *)
Definition reply (P : Platform) (status : Z) (responseText : string) : Response :=
  {| statusCode := status;
     headers := corsHeaders;
     body := [ {| type := "unstructured";
                  unstructured := {| id := "1"; text := responseText;
                                     timestamp := now P |} |} ] |}.

Definition msg_noMessage : string := "I didn't receive a message. Could you try again?".
Definition msg_development : string :=
  "I'm still under development. Please come back later.".
Definition msg_notUnderstood : string :=
  "Sorry, I didn't understand that. Could you try again?".
Definition msg_oops : string := "Oops, something went wrong. Please try again.".

(** An element of an array in [join]: [undefined] counts as empty. *)
Definition joined (o : option string) : string :=
  match o with
  | Some s => s
  | None => ""
  end.

Definition recognizeText (P : Platform) (command : LexCommand) : M World LexResponse :=
  _ <- modify (fun w => {| recognized := recognized w ++ [command] |}) ;;
  settle (lex_send P command).

(** [handler(event)]. *)
Definition handler (P : Platform) (event : Event) : M World Response :=
  tryCatch
    (body <-
       match event_body event with
       | BodyString s => settle (JSON_parse P s)
       | BodyObject b => ret (Some b)
       | BodyMissing => ret (Some (event_self event))
       end ;;
     match body with
     | None => throw (mkError "Cannot read properties of null (reading 'messages')")
     | Some body =>
         let messages :=
           match req_messages body with
           | Some ms => ms
           | None => []
           end in
         match messages with
         | [] => ret (reply P 400 msg_noMessage)
         | None :: _ =>
             throw (mkError "Cannot read properties of null (reading 'unstructured')")
         | Some first :: _ =>
             match req_unstructured first with
             | None => ret (reply P 400 msg_noMessage)
             | Some u =>
                 let userMessage := req_text u in
                 match JS.orElse (BOT_ID P) None, JS.orElse (BOT_ALIAS_ID P) None with
                 | Some botId, Some botAliasId =>
                     let sessionId :=
                       match JS.orElse (sourceIp event) None with
                       | Some ip => ip
                       | None => "default-user"
                       end in
                     lexResponse <-
                       recognizeText P
                         {| botId := botId; botAliasId := botAliasId;
                            localeId := "en_US"; sessionId := sessionId;
                            lex_text := userMessage |} ;;
                     let lexMessages :=
                       match lex_messages lexResponse with
                       | Some ms => ms
                       | None => []
                       end in
                     let responseText :=
                       if (0 <? length lexMessages)%nat
                       then JS.join " " (map (fun m => joined (lex_content m)) lexMessages)
                       else msg_notUnderstood in
                     ret (reply P 200 responseText)
                 | _, _ => ret (reply P 200 msg_development)
                 end
             end
         end
     end)
    (fun error => ret (reply P 500 msg_oops)).

Local Close Scope eff_scope.

End LF0.

(** ** Sample platforms and events

    A platform in UTC whose clock reads 2026-02-21 20:00, with a strict
    parser for [YYYY-MM-DDT00:00:00], a queue that accepts every message
    and a [user-state] table that does not exist. *)

Module Samples.

Definition digitsValue (s : string) : option Z :=
  if JS.allDigits s then JS.digitsPrefix 0 false s else None.

(** The time value of a string of the form [YYYY-MM-DDT00:00:00] naming a
    month 1-12 and a day 1-31, in UTC. *)
Definition parseMidnight (s : string) : option Z :=
  match digitsValue (substring 0 4 s),
        digitsValue (substring 5 2 s),
        digitsValue (substring 8 2 s) with
  | Some y, Some m, Some d =>
      if String.eqb (substring 4 1 s) "-" && String.eqb (substring 7 1 s) "-"
         && String.eqb (substring 10 9 s) "T00:00:00"
         && Nat.eqb (String.length s) 19
         && (1 <=? m) && (m <=? 12) && (1 <=? d) && (d <=? 31)
      then Some (JSDate.daysFromCivil y m d * JSDate.msPerDay)
      else None
  | _, _, _ => None
  end.

(** 2026-02-21T20:00:00Z *)
Definition eightPM : Z := 1771704000000.

Definition lexPlatform : LF1.Platform :=
  {| LF1.SQS_QUEUE_URL := Some "https://sqs.us-east-1.amazonaws.com/1/DiningRequestsQueue";
     LF1.utcOffset := 0;
     LF1.clock := fun _ => eightPM;
     LF1.Date_parse := parseMidnight;
     LF1.sqs_send := fun _ _ => Ok tt;
     LF1.dynamo_put := fun _ => Throw (mkError "Requested resource not found") |}.

Definition filled (v : string) : option LF1.Slot :=
  Some {| LF1.slot_value :=
            Some {| LF1.interpretedValue := Some v; LF1.originalValue := Some v |} |}.

Definition eventWith (source : string) (slots : gmap string (option LF1.Slot)) : LF1.Event :=
  {| LF1.invocationSource := source;
     LF1.sessionState :=
       {| LF1.intent :=
            {| LF1.intent_name := "DiningSuggestionsIntent";
               LF1.intent_slots := slots;
               LF1.intent_state := "InProgress" |};
          LF1.sessionAttributes := None |} |}.

Definition dialogEvent (slots : gmap string (option LF1.Slot)) : LF1.Event :=
  eventWith "DialogCodeHook" slots.

Definition emptyWorld : LF1.World := {| LF1.enqueued := []; LF1.saved := [] |}.

(** A complete request for Thai food, and the same with a party of 25. *)
Definition thaiSlots : gmap string (option LF1.Slot) :=
  <[ "Location" := filled "NYC" ]>
  (<[ "Cuisine" := filled "Thai" ]>
  (<[ "NumberOfPeople" := filled "4" ]>
  (<[ "DiningDate" := filled "2026-02-22" ]>
  (<[ "DiningTime" := filled "19:30" ]>
  (<[ "Email" := filled "ann@example.com" ]> ∅))))).

Definition largePartySlots : gmap string (option LF1.Slot) :=
  <[ "NumberOfPeople" := filled "25" ]> thaiSlots.

(** A sort an engine may use on short arrays: insertion from the right,
    which calls the comparator once per step. *)
Fixpoint insertSorted {A : Type} (cmp : A -> A -> LF2.Rand Z) (x : A) (sorted : list A)
  : LF2.Rand (list A) :=
  match sorted with
  | [] => fun tape => ([x], tape)
  | y :: rest =>
      fun tape =>
        let '(c, tape1) := cmp x y tape in
        if c <=? 0 then (x :: y :: rest, tape1)
        else
          let '(rest', tape2) := insertSorted cmp x rest tape1 in
          (y :: rest', tape2)
  end.

Fixpoint insertionSort {A : Type} (cmp : A -> A -> LF2.Rand Z) (array : list A)
  : LF2.Rand (list A) :=
  match array with
  | [] => fun tape => ([], tape)
  | x :: rest =>
      fun tape =>
        let '(sorted, tape1) := insertionSort cmp rest tape in
        insertSorted cmp x sorted tape1
  end.

(** The worker's platform: one request for Thai food on the queue, a
    search index with five hits, a record store without the records and
    a mail service that refuses the recipient. The body of the message
    stands for the JSON text of [thaiBody]: the sample parser answers
    [thaiBody] whatever it is given. *)
Definition thaiRequest : LF2.QueueMessage :=
  {| LF2.Body := "thai"; LF2.ReceiptHandle := "rh-1" |}.

Definition thaiBody : LF2.MessageBody :=
  {| LF2.Location := Some "manhattan"; LF2.Cuisine := Some "thai";
     LF2.NumberOfPeople := Some "4"; LF2.DiningDate := Some "2026-02-22";
     LF2.DiningTime := Some "19:30"; LF2.Email := Some "ann@example.com" |}.

Definition workerPlatform (hits : list string) : LF2.Platform :=
  {| LF2.SQS_QUEUE_URL := Some "https://sqs.us-east-1.amazonaws.com/1/DiningRequestsQueue";
     LF2.OPENSEARCH_ENDPOINT := Some "https://search.example.com";
     LF2.SES_SENDER_EMAIL := Some "concierge@example.com";
     LF2.randomBits := 1;
     LF2.Array_sort := insertionSort;
     LF2.JSON_parse := fun _ => Ok thaiBody;
     LF2.sqs_receive := fun q => Ok (Some (firstn 1 q));
     LF2.opensearch := fun _ => Ok (Some hits);
     LF2.dynamo_get := fun _ => Ok None;
     LF2.ses_send := fun _ => Throw (mkError "Email address is not verified");
     LF2.sqs_delete := fun _ => Ok tt |}.

Definition fiveIds : list string := ["r1"; "r2"; "r3"; "r4"; "r5"].

Definition workerWorld : LF2.World :=
  {| LF2.queue := [thaiRequest]; LF2.tape := [1; 0; 0; 1; 1; 0; 1; 0; 0; 1];
     LF2.delivered := []; LF2.calls := [] |}.

(** Today at 20:00, a table at 19:30 is too late. *)
Definition tonightSlots : gmap string (option LF1.Slot) :=
  <[ "DiningDate" := filled "2026-02-21" ]> thaiSlots.

(** A time whose minutes are out of range, tomorrow. *)
Definition lateMinutesSlots : gmap string (option LF1.Slot) :=
  <[ "DiningTime" := filled "19:99" ]> thaiSlots.

(** The platform of the code hook without a queue. *)
Definition noQueuePlatform : LF1.Platform :=
  {| LF1.SQS_QUEUE_URL := None;
     LF1.utcOffset := 0;
     LF1.clock := fun _ => eightPM;
     LF1.Date_parse := parseMidnight;
     LF1.sqs_send := fun _ _ => Ok tt;
     LF1.dynamo_put := fun _ => Ok tt |}.

(** The worker's platform with five hits and with the record store, the
    mail service and the delete call behaving as given. *)
Definition pipelinePlatform (get : string -> Result (option LF2.Item))
  (send : LF2.EmailMessage -> Result unit) (delete : string -> Result unit)
  : LF2.Platform :=
  {| LF2.SQS_QUEUE_URL := Some "https://sqs.us-east-1.amazonaws.com/1/DiningRequestsQueue";
     LF2.OPENSEARCH_ENDPOINT := Some "https://search.example.com";
     LF2.SES_SENDER_EMAIL := Some "concierge@example.com";
     LF2.randomBits := 1;
     LF2.Array_sort := insertionSort;
     LF2.JSON_parse := fun _ => Ok thaiBody;
     LF2.sqs_receive := fun q => Ok (Some (firstn 1 q));
     LF2.opensearch := fun _ => Ok (Some fiveIds);
     LF2.dynamo_get := get;
     LF2.ses_send := send;
     LF2.sqs_delete := delete |}.

Definition thaiItem : LF2.Item :=
  {| LF2.item_Name := Some "Thai Villa"; LF2.item_Address := Some "5 E 19th St";
     LF2.item_Rating := Some "4.5"; LF2.item_NumberOfReviews := None;
     LF2.item_ZipCode := Some "10003" |}.

(** Everything resolves; the record store is down; the delete fails. *)
Definition happyPlatform : LF2.Platform :=
  pipelinePlatform (fun _ => Ok (Some thaiItem)) (fun _ => Ok tt) (fun _ => Ok tt).

Definition noRecordsPlatform : LF2.Platform :=
  pipelinePlatform (fun _ => Throw (mkError "Requested resource not found"))
    (fun _ => Ok tt) (fun _ => Ok tt).

Definition stuckDeletePlatform : LF2.Platform :=
  pipelinePlatform (fun _ => Ok (Some thaiItem)) (fun _ => Ok tt)
    (fun _ => Throw (mkError "The receipt handle has expired")).

(** A queue whose message is not JSON. *)
Definition poisonPlatform : LF2.Platform :=
  {| LF2.SQS_QUEUE_URL := Some "https://sqs.us-east-1.amazonaws.com/1/DiningRequestsQueue";
     LF2.OPENSEARCH_ENDPOINT := Some "https://search.example.com";
     LF2.SES_SENDER_EMAIL := Some "concierge@example.com";
     LF2.randomBits := 1;
     LF2.Array_sort := insertionSort;
     LF2.JSON_parse := fun _ => Throw (mkError "Unexpected token h in JSON at position 1");
     LF2.sqs_receive := fun q => Ok (Some (firstn 1 q));
     LF2.opensearch := fun _ => Ok (Some fiveIds);
     LF2.dynamo_get := fun _ => Ok (Some thaiItem);
     LF2.ses_send := fun _ => Ok tt;
     LF2.sqs_delete := fun _ => Ok tt |}.

(** The chat API with a bot that answers in two messages, and a request
    with one message from a caller whose address is known. *)
Definition chatPlatform : LF0.Platform :=
  {| LF0.BOT_ID := Some "BOT123"; LF0.BOT_ALIAS_ID := Some "ALIAS1";
     LF0.now := eightPM;
     LF0.JSON_parse := fun _ => Throw (mkError "Unexpected token");
     LF0.lex_send := fun _ =>
       Ok {| LF0.lex_messages :=
               Some [ {| LF0.lex_content := Some "Great." |};
                      {| LF0.lex_content := Some "What city?" |} ] |} |}.

Definition chatRequest (text : string) : LF0.RequestBody :=
  {| LF0.req_messages :=
       Some [ Some {| LF0.req_unstructured := Some {| LF0.req_text := Some text |} |} ] |}.

Definition chatEvent : LF0.Event :=
  {| LF0.event_body := LF0.BodyObject (chatRequest "I want Thai food");
     LF0.event_self := {| LF0.req_messages := None |};
     LF0.sourceIp := Some "203.0.113.7" |}.

Definition chatWorld : LF0.World := {| LF0.recognized := [] |}.

(** 2026-02-22T02:00:00Z, which is 21:00 on 2026-02-21 five hours behind
    UTC. *)
Definition ninePMEastern : Z := 1771725600000.

(** The platform of the code hook five hours behind UTC at that time; its
    parser reads [YYYY-MM-DDT00:00:00] as local midnight. *)
Definition easternPlatform : LF1.Platform :=
  {| LF1.SQS_QUEUE_URL := Some "https://sqs.us-east-1.amazonaws.com/1/DiningRequestsQueue";
     LF1.utcOffset := -18000000;
     LF1.clock := fun _ => ninePMEastern;
     LF1.Date_parse := fun s => option_map (fun t => t + 18000000) (parseMidnight s);
     LF1.sqs_send := fun _ _ => Ok tt;
     LF1.dynamo_put := fun _ => Ok tt |}.

(** A location that names a member every object inherits, with a party
    of 25. *)
Definition inheritedNameSlots : gmap string (option LF1.Slot) :=
  <[ "Location" := filled "constructor" ]>
  (<[ "NumberOfPeople" := filled "25" ]> ∅).

End Samples.

(** ** Vocabulary of the statements *)

Module Spec.

Import LF1.

(** The string [HH:MM] made of four characters, and the number that two
    decimal digits write. *)
Definition hhmm (h1 h2 m1 m2 : ascii) : string :=
  String h1 (String h2 (String ":" (String m1 (String m2 EmptyString)))).

Definition twoDigits (a b : ascii) : Z := 10 * JS.digitValue a + JS.digitValue b.

(** The slots in the order in which [handleDialogValidation] checks them. *)
Definition validationOrder : list string :=
  ["Location"; "Cuisine"; "NumberOfPeople"; "DiningDate"; "DiningTime"; "Email"].

(** The block of [handleDialogValidation] that checks one slot, run on
    its own on the slots of the event. *)
Definition verdict (P : Platform) (event : Event) (field : string) : option Response :=
  let slots := intent_slots (intent (sessionState event)) in
  if String.eqb field "Location" then check_Location event (getSlotValue slots "Location")
  else if String.eqb field "Cuisine" then check_Cuisine event (getSlotValue slots "Cuisine")
  else if String.eqb field "NumberOfPeople" then
    check_NumberOfPeople event (getSlotValue slots "NumberOfPeople")
  else if String.eqb field "DiningDate" then
    check_DiningDate P event (getSlotValue slots "DiningDate")
  else if String.eqb field "DiningTime" then
    check_DiningTime P event (getSlotValue slots "DiningDate") (getSlotValue slots "DiningTime")
  else if String.eqb field "Email" then check_Email event (getSlotValue slots "Email")
  else None.

(** A slot is invalid when its block rejects it. *)
Definition invalid (P : Platform) (event : Event) (field : string) : bool :=
  match verdict P event field with
  | Some _ => true
  | None => false
  end.

(** The first invalid slot in validation order, if any. *)
Definition firstInvalid (P : Platform) (event : Event) : option string :=
  head (List.filter (fun f => invalid P event f) validationOrder).

(** The slots checked up to and including [field]. *)
Fixpoint upTo (field : string) (order : list string) : list string :=
  match order with
  | [] => []
  | f :: rest => if String.eqb f field then [f] else f :: upTo field rest
  end.

(** The response of a whole dialog turn on an event. *)
Definition dialogTurn (P : Platform) (event : Event) : Response :=
  handleDialogValidation P event (intent_slots (intent (sessionState event)))
    (attrsOrEmpty event).

(** The number that a decimal numeral writes after the digits read so
    far amount to [acc]. *)
Fixpoint numeralValue (acc : Z) (d : Decimal.uint) : Z :=
  match d with
  | Decimal.Nil => acc
  | Decimal.D0 l => numeralValue (10 * acc + 0) l
  | Decimal.D1 l => numeralValue (10 * acc + 1) l
  | Decimal.D2 l => numeralValue (10 * acc + 2) l
  | Decimal.D3 l => numeralValue (10 * acc + 3) l
  | Decimal.D4 l => numeralValue (10 * acc + 4) l
  | Decimal.D5 l => numeralValue (10 * acc + 5) l
  | Decimal.D6 l => numeralValue (10 * acc + 6) l
  | Decimal.D7 l => numeralValue (10 * acc + 7) l
  | Decimal.D8 l => numeralValue (10 * acc + 8) l
  | Decimal.D9 l => numeralValue (10 * acc + 9) l
  end.

(** The platform [P] with another [user-state] table behind it. *)
Definition withDynamoPut (P : Platform) (put : UserStateItem -> Result unit) : Platform :=
  {| SQS_QUEUE_URL := SQS_QUEUE_URL P;
     utcOffset := utcOffset P;
     clock := clock P;
     Date_parse := Date_parse P;
     sqs_send := sqs_send P;
     dynamo_put := put |}.

(** A string without an ASCII capital letter. *)
Definition isCapital (c : ascii) : bool := JS.between 65 90 (JS.code c).

Fixpoint noCapital (s : string) : bool :=
  match s with
  | EmptyString => true
  | String c r => negb (isCapital c) && noCapital r
  end.

(** The keys of the alias table. *)
Definition aliasKeys : list string := map fst LOCATION_ALIASES.

(** A block lets the value through. *)
Definition accepts (block : option Response) : bool :=
  match block with
  | None => true
  | Some _ => false
  end.

(** A block asks again for [field]. *)
Definition elicits (field : string) (event : Event) (block : option Response) : Prop :=
  exists messageContent, block = Some (buildElicitSlotResponse event field messageContent).

(** Uniformity of the choice among five hits.

    All tapes of [m] draws, each draw one of the [2^bits] numerators, are
    equally likely. A choice is uniform when every set of three of the
    five hit positions is chosen on the same number of tapes. *)

Fixpoint tapes (draws : list Z) (m : nat) : list (list Z) :=
  match m with
  | O => [[]]
  | S m' => flat_map (fun k => map (cons k) (tapes draws m')) draws
  end.

Definition numerators (bits : nat) : list Z :=
  map Z.of_nat (seq 0 (2 ^ bits)).

Definition sameMembers (a b : list nat) : bool :=
  forallb (fun x => existsb (Nat.eqb x) b) a
  && forallb (fun x => existsb (Nat.eqb x) a) b.

(** The ten ways to choose three of the hits [0; 1; 2; 3; 4]. *)
Definition triples : list (list nat) :=
  [ [0;1;2]; [0;1;3]; [0;1;4]; [0;2;3]; [0;2;4];
    [0;3;4]; [1;2;3]; [1;2;4]; [1;3;4]; [2;3;4] ]%nat.

Definition fiveHits : list nat := [0; 1; 2; 3; 4]%nat.

(** On how many tapes of [m] draws the three chosen hits are [choice]. *)
Definition timesChosen (sort : LF2.Sort nat) (bits m : nat) (choice : list nat) : nat :=
  length (List.filter
    (fun tape => sameMembers (fst (LF2.getRandomItems sort bits fiveHits 3 tape)) choice)
    (tapes (numerators bits) m)).

Definition uniform (sort : LF2.Sort nat) (bits m : nat) : Prop :=
  forall c1 c2, In c1 triples -> In c2 triples ->
    timesChosen sort bits m c1 = timesChosen sort bits m c2.

(** The worker's world after further calls are logged. *)
Definition logged (w : LF2.World) (cs : list LF2.Call) : LF2.World :=
  {| LF2.queue := LF2.queue w; LF2.tape := LF2.tape w;
     LF2.delivered := LF2.delivered w; LF2.calls := LF2.calls w ++ cs |}.

(** The queue without the messages of a receipt handle. *)
Definition without (receiptHandle : string) (q : list LF2.QueueMessage)
  : list LF2.QueueMessage :=
  List.filter (fun m => negb (String.eqb (LF2.ReceiptHandle m) receiptHandle)) q.

(** The calls that one invocation of the worker adds to the log. *)
Definition callsMade (P : LF2.Platform) (w : LF2.World) : list LF2.Call :=
  skipn (length (LF2.calls w)) (LF2.calls (snd (LF2.handler P w))).

Definition isDelete (c : LF2.Call) : bool :=
  match c with
  | LF2.DeleteMessage _ _ => true
  | _ => false
  end.

(** The worker's answer to an error it caught. *)
Definition failed (e : Error) : LF2.Response :=
  {| LF2.statusCode := 500; LF2.body := Eff.message e |}.

(** The call that was made, if one was. *)
Definition optCall {A : Type} (f : A -> LF2.Call) (o : option A) : list LF2.Call :=
  match o with
  | Some a => [f a]
  | None => []
  end.

(** An event that settles the promise of [makeHttpRequest] when its
    callback runs: the end of the response, or an error. *)
Definition settles (ev : Http.NetEvent) : bool :=
  match ev with
  | Http.OnEnd | Http.OnError _ => true
  | _ => false
  end.

(** Events none of which settles the promise. *)
Definition quiet (events : list Http.NetEvent) : bool :=
  forallb (fun ev => negb (settles ev)) events.

(** The chunks of a response, one after the other. *)
Definition implode (chunks : list string) : string :=
  fold_right String.append EmptyString chunks.

(** The body of a request to the chat API, as the handler reads it. *)
Definition requestBody (P : LF0.Platform) (event : LF0.Event) (body : LF0.RequestBody)
  : Prop :=
  match LF0.event_body event with
  | LF0.BodyString s => LF0.JSON_parse P s = Ok (Some body)
  | LF0.BodyObject b => body = b
  | LF0.BodyMissing => body = LF0.event_self event
  end.

(** The Lex session of an event. *)
Definition sessionOf (event : LF0.Event) : string :=
  match JS.orElse (LF0.sourceIp event) None with
  | Some ip => ip
  | None => "default-user"
  end.

(** The text of the reply to what Lex answered. *)
Definition replyText (response : LF0.LexResponse) : string :=
  match LF0.lex_messages response with
  | Some (m :: ms) =>
      JS.join " " (map (fun m => LF0.joined (LF0.lex_content m)) (m :: ms))
  | _ => LF0.msg_notUnderstood
  end.

(** The event of a later turn: the same event with other slots. *)
Definition withSlots (event : Event) (slots : Slots) : Event :=
  {| invocationSource := invocationSource event;
     sessionState :=
       {| intent :=
            {| intent_name := intent_name (intent (sessionState event));
               intent_slots := slots;
               intent_state := intent_state (intent (sessionState event)) |};
          sessionAttributes := sessionAttributes (sessionState event) |} |}.

(** The names that the alias table maps to. *)
Definition canonicalLocations : list string :=
  ["manhattan"; "brooklyn"; "queens"; "bronx"; "staten island"].

(** Every character of a string satisfies [p]. *)
Fixpoint allChars (p : ascii -> bool) (s : string) : bool :=
  match s with
  | EmptyString => true
  | String c r => p c && allChars p r
  end.

(** A part of an email address: not empty, without white space or [@]. *)
Definition emailPart (s : string) : Prop :=
  s <> "" /\ allChars notSpaceAt s = true.

(** A string that does not go on with a decimal digit. *)
Definition noDigitAhead (s : string) : bool :=
  match s with
  | EmptyString => true
  | String c _ => negb (JS.isDigit c)
  end.

(** *** The rules of the slots, as the specification words them

    The rule of each of the six fields, stated on the value of the slot,
    the clock and the date parser, without the validation blocks of the
    code. Only a field that is present is validated. *)

(** Upper and lower case and surrounding white space do not count. *)
Definition caseless (s : string) : string := JS.trim (JS.toLowerCase s).

(** [location]: a name of the closed alias table. *)
Definition rule_Location (s : string) : Prop := In (caseless s) aliasKeys.

(** [cuisine]: one of the six categories. *)
Definition rule_Cuisine (s : string) : Prop := In (caseless s) VALID_CUISINES.

(** [partySize]: parses as an integer that is at least 1 and at most 20. *)
Definition rule_NumberOfPeople (s : string) : Prop :=
  exists n, JS.parseInt10 s = Some n /\ 1 <= n <= 20.

(** The start of today in local time, and the time value of a calendar
    date, [None] when the date does not parse. *)
Definition startOfToday (P : Platform) : Z := JSDate.setHours0 (utcOffset P) (clock P 0).

Definition calendarDate (P : Platform) (s : string) : option Z :=
  Date_parse P (s ++ "T00:00:00").

(** [date]: parses, is not before today and is not more than 90 days
    after today. *)
Definition rule_DiningDate (P : Platform) (s : string) : Prop :=
  exists t, calendarDate P s = Some t /\
    startOfToday P <= t <= startOfToday P + 90 * JSDate.msPerDay.

(** The date slot is today: its date falls on the local day of the clock
    that the date rule reads. *)
Definition isToday (P : Platform) (date : option string) : Prop :=
  exists d t, date = Some d /\ calendarDate P d = Some t /\
    JSDate.localDay (utcOffset P) t = JSDate.localDay (utcOffset P) (clock P 0).

(** A time of day strictly later than the wall clock. *)
Definition laterThanNow (P : Platform) (hours minutes : Z) : Prop :=
  let now := clock P 1 in
  JSDate.getHours (utcOffset P) now < hours \/
  (hours = JSDate.getHours (utcOffset P) now /\
   JSDate.getMinutes (utcOffset P) now < minutes).

(** [time]: two digits, a colon and two digits, an hour from 6 to 23,
    and strictly later than now when the date is today. *)
Definition rule_DiningTime (P : Platform) (date : option string) (s : string) : Prop :=
  exists h1 h2 m1 m2,
    JS.isDigit h1 = true /\ JS.isDigit h2 = true /\
    JS.isDigit m1 = true /\ JS.isDigit m2 = true /\
    s = hhmm h1 h2 m1 m2 /\
    6 <= twoDigits h1 h2 <= 23 /\
    (isToday P date -> laterThanNow P (twoDigits h1 h2) (twoDigits m1 m2)).

(** [email]: a local part, [@], a domain, a dot and a suffix. *)
Definition rule_Email (s : string) : Prop :=
  exists a b c, emailPart a /\ emailPart b /\ emailPart c /\
    s = (a ++ "@" ++ b ++ "." ++ c)%string.

(** The rule of a field on a value of its slot. *)
Definition rule (P : Platform) (event : Event) (field s : string) : Prop :=
  let slots := intent_slots (intent (sessionState event)) in
  if String.eqb field "Location" then rule_Location s
  else if String.eqb field "Cuisine" then rule_Cuisine s
  else if String.eqb field "NumberOfPeople" then rule_NumberOfPeople s
  else if String.eqb field "DiningDate" then rule_DiningDate P s
  else if String.eqb field "DiningTime" then
    rule_DiningTime P (getSlotValue slots "DiningDate") s
  else if String.eqb field "Email" then rule_Email s
  else True.

(** A field breaks its rule when it is present and its value does not
    keep the rule. *)
Definition breaksRule (P : Platform) (event : Event) (field : string) : Prop :=
  exists s, getSlotValue (intent_slots (intent (sessionState event))) field = Some s /\
    ~ rule P event field s.

(** The first field, in validation order, that breaks its rule. *)
Definition firstToBreak (P : Platform) (event : Event) (field : string) : Prop :=
  In field validationOrder /\ breaksRule P event field /\
  forall f, In f (upTo field validationOrder) -> f <> field -> ~ breaksRule P event f.

(** The location does not name a member that the alias table inherits. *)
Definition noInheritedName (event : Event) : Prop :=
  forall s, getSlotValue (intent_slots (intent (sessionState event))) "Location" = Some s ->
    caseless s <> "constructor" /\ caseless s <> "__proto__".

(** The date slot reads as the date of the clock's ISO string exactly
    when it is today. *)
Definition datesAgree (P : Platform) (event : Event) : Prop :=
  let date := getSlotValue (intent_slots (intent (sessionState event))) "DiningDate" in
  date = Some (JSDate.toISODate (clock P 1)) <-> isToday P date.

End Spec.

(** * Properties *)

(** ** The regular-expression matcher decides [matches] *)

Section RegexFacts.

Import JS.

Lemma append_empty (s t : string) : (s ++ t)%string = "" -> s = "" /\ t = "".
Proof. destruct s; simpl; [auto | discriminate]. Qed.

Lemma nullable_matches (r : regex) : nullable r = true <-> matches r "".
Proof.
  split.
  - induction r; simpl; intros H; try discriminate.
    + constructor.
    + apply andb_true_iff in H as [H1 H2].
      change "" with ("" ++ "")%string. constructor; auto.
    + apply orb_true_iff in H as [H | H]; [apply MAltL | apply MAltR]; auto.
    + constructor.
  - intros H. remember "" as s eqn:E. induction H; simpl; subst; auto.
    + discriminate.
    + apply append_empty in E as [-> ->]. rewrite IHmatches1, IHmatches2; auto.
    + rewrite IHmatches; auto.
    + rewrite IHmatches; auto using orb_true_r.
Qed.

Lemma deriv_sound (c : ascii) (r : regex) :
  forall s, matches (deriv c r) s -> matches r (String c s).
Proof.
  induction r; simpl; intros s H.
  - inversion H.
  - inversion H.
  - destruct (b c) eqn:E; inversion H; subst. now constructor.
  - destruct (nullable r1) eqn:N.
    + inversion H; subst.
      * match goal with X : matches (Cat _ _) _ |- _ => inversion X; subst end.
        change (String c (s0 ++ t)) with (String c s0 ++ t)%string.
        constructor; auto.
      * change (String c s) with ("" ++ String c s)%string.
        constructor; auto. now apply nullable_matches.
    + inversion H; subst.
      change (String c (s0 ++ t)) with (String c s0 ++ t)%string.
      constructor; auto.
  - inversion H; subst; [apply MAltL | apply MAltR]; auto.
  - inversion H; subst.
    change (String c (s0 ++ t)) with (String c s0 ++ t)%string.
    apply MStarCons; auto.
Qed.

Lemma deriv_complete (r : regex) (u : string) :
  matches r u -> forall c s, u = String c s -> matches (deriv c r) s.
Proof.
  induction 1; intros c0 s0 E; simpl.
  - discriminate.
  - injection E as -> <-. rewrite H. constructor.
  - destruct s as [| c1 s1]; simpl in E.
    + apply nullable_matches in H. rewrite H.
      apply MAltR. now apply IHmatches2.
    + injection E as -> <-.
      assert (matches (Cat (deriv c0 a) b) (s1 ++ t)) by (constructor; auto).
      destruct (nullable a); [now apply MAltL | assumption].
  - apply MAltL. auto.
  - apply MAltR. auto.
  - discriminate.
  - simpl in E. injection E as -> <-. constructor; auto.
Qed.

Theorem test_matches (r : regex) (s : string) : test r s = true <-> matches r s.
Proof.
  revert r. induction s as [| c s IH]; intros r; simpl.
  - apply nullable_matches.
  - rewrite IH. split.
    + apply deriv_sound.
    + intros H. now apply deriv_complete with (u := String c s).
Qed.

End RegexFacts.

(** ** Strings of the form [HH:MM] *)

Section TimeStrings.

Import JS Spec.

Lemma matches_class_inv (p : ascii -> bool) (s : string) :
  matches (Class p) s -> exists c, p c = true /\ s = String c "".
Proof. inversion 1; subst; eauto. Qed.

Lemma matches_cat_class_inv (p : ascii -> bool) (r : regex) (s : string) :
  matches (Cat (Class p) r) s -> exists c t, p c = true /\ s = String c t /\ matches r t.
Proof.
  inversion 1; subst.
  match goal with X : matches (Class _) _ |- _ =>
    apply matches_class_inv in X as (c & Hc & ->) end.
  exists c, t. auto.
Qed.

Lemma timeRegex_hhmm (s : string) :
  test LF1.timeRegex s = true <->
  exists h1 h2 m1 m2,
    isDigit h1 = true /\ isDigit h2 = true /\ isDigit m1 = true /\ isDigit m2 = true /\
    s = hhmm h1 h2 m1 m2.
Proof.
  split.
  - intros H. apply test_matches in H. unfold LF1.timeRegex in H.
    apply matches_cat_class_inv in H as (h1 & t1 & D1 & -> & H).
    apply matches_cat_class_inv in H as (h2 & t2 & D2 & -> & H).
    apply matches_cat_class_inv in H as (c & t3 & C & -> & H).
    apply matches_cat_class_inv in H as (m1 & t4 & D3 & -> & H).
    apply matches_class_inv in H as (m2 & D4 & ->).
    apply Ascii.eqb_eq in C. subst c.
    exists h1, h2, m1, m2. unfold hhmm. auto.
  - intros (h1 & h2 & m1 & m2 & D1 & D2 & D3 & D4 & ->).
    unfold hhmm, LF1.timeRegex. simpl. rewrite D1. simpl. rewrite D2. simpl.
    rewrite D3. simpl. rewrite D4. reflexivity.
Qed.

Lemma isDigit_bounds (c : ascii) : isDigit c = true -> 0 <= digitValue c <= 9.
Proof.
  unfold isDigit, between, digitValue. intros H.
  apply andb_true_iff in H as [H1 H2].
  apply Nat.leb_le in H1, H2. lia.
Qed.

Lemma isDigit_not_colon (c : ascii) : isDigit c = true -> Ascii.eqb c ":" = false.
Proof.
  intros H. destruct (Ascii.eqb c ":") eqn:E; auto.
  apply Ascii.eqb_eq in E. subst. discriminate.
Qed.

(** [s.split(":").map(Number)] of a string [HH:MM]. *)
Lemma split_hhmm (h1 h2 m1 m2 : ascii) :
  isDigit h1 = true -> isDigit h2 = true -> isDigit m1 = true -> isDigit m2 = true ->
  map Number (split ":" (hhmm h1 h2 m1 m2)) =
  [Some (twoDigits h1 h2); Some (twoDigits m1 m2)].
Proof.
  intros D1 D2 D3 D4. unfold hhmm. simpl.
  rewrite (isDigit_not_colon h1), (isDigit_not_colon h2),
          (isDigit_not_colon m1), (isDigit_not_colon m2) by assumption.
  simpl. unfold Number. simpl. rewrite D1, D2, D3, D4. simpl.
  unfold twoDigits. repeat f_equal; lia.
Qed.

End TimeStrings.

(** ** Decimal numerals: [parseInt] reads back what [String] writes *)

Section Numerals.

Import JS Spec.

Lemma digitsPrefix_numeral (d : Decimal.uint) :
  forall acc seen, d <> Decimal.Nil \/ seen = true ->
    digitsPrefix acc seen (NilEmpty.string_of_uint d) = Some (numeralValue acc d).
Proof.
  induction d; intros acc seen H; simpl;
    try (apply IHd; now right).
  destruct H as [H | ->]; [contradiction | reflexivity].
Qed.

Lemma numeralValue_acc (d : Decimal.uint) :
  forall acc : positive, Z.pos (Pos.of_uint_acc d acc) = numeralValue (Z.pos acc) d.
Proof.
  induction d; intros acc; simpl; try rewrite IHd; try reflexivity; f_equal; lia.
Qed.

Lemma numeralValue_of_uint (d : Decimal.uint) :
  Z.of_N (Pos.of_uint d) = numeralValue 0 d.
Proof.
  induction d; simpl; try reflexivity; try assumption;
    rewrite numeralValue_acc; reflexivity.
Qed.

Lemma parseInt10_numeral (d : Decimal.uint) :
  d <> Decimal.Nil ->
  parseInt10 (NilEmpty.string_of_uint d) = Some (numeralValue 0 d)
  /\ truthy (NilEmpty.string_of_uint d) = true.
Proof.
  intros H. destruct d; [contradiction | ..]; split; try reflexivity;
    unfold parseInt10; simpl; apply digitsPrefix_numeral; now right.
Qed.

Lemma parseInt10_negative (d : Decimal.uint) :
  d <> Decimal.Nil ->
  parseInt10 (String "-" (NilEmpty.string_of_uint d)) = Some (- numeralValue 0 d).
Proof.
  intros H. unfold parseInt10. simpl.
  rewrite digitsPrefix_numeral by now left. reflexivity.
Qed.

Lemma to_uint_not_nil (p : positive) : Pos.to_uint p <> Decimal.Nil.
Proof.
  intros E. pose proof (DecimalPos.Unsigned.of_to p) as H.
  rewrite E in H. discriminate.
Qed.

(** Reading the decimal numeral of an integer gives the integer back,
    and the numeral is never the empty string. *)
Lemma parseInt10_showZ (n : Z) :
  parseInt10 (showZ n) = Some n /\ truthy (showZ n) = true.
Proof.
  unfold showZ. destruct n as [| p | p]; simpl.
  - split; reflexivity.
  - pose proof (to_uint_not_nil p) as H.
    unfold NilZero.string_of_uint.
    destruct (Pos.to_uint p) eqn:E; try contradiction;
      rewrite <- E in *; (destruct (parseInt10_numeral _ H) as [H1 H2]; split;
        [ rewrite H1, <- numeralValue_of_uint, DecimalPos.Unsigned.of_to; reflexivity
        | assumption ]).
  - pose proof (to_uint_not_nil p) as H. split; [| reflexivity].
    unfold NilZero.string_of_uint.
    destruct (Pos.to_uint p) eqn:E; try contradiction;
      rewrite <- E in *;
      rewrite (parseInt10_negative _ H), <- numeralValue_of_uint,
        DecimalPos.Unsigned.of_to; reflexivity.
Qed.

End Numerals.

(** ** LF1: the dialog turn *)

Section DialogTurn.

Import JS LF1 Spec.

Variable P : Platform.

(** Each block either falls through or asks again for its own slot, with
    a message that depends on the slot values only. *)
Lemma check_Location_shape (location : option string) :
  exists m, forall event,
    check_Location event location = option_map (buildElicitSlotResponse event "Location") m.
Proof.
  unfold check_Location. destruct (present location); [| now exists None].
  destruct (negb _); [eexists (Some _) | exists None]; reflexivity.
Qed.

Lemma check_Cuisine_shape (cuisine : option string) :
  exists m, forall event,
    check_Cuisine event cuisine = option_map (buildElicitSlotResponse event "Cuisine") m.
Proof.
  unfold check_Cuisine. destruct (present cuisine); [| now exists None].
  destruct (negb _); [eexists (Some _) | exists None]; reflexivity.
Qed.

Lemma check_NumberOfPeople_shape (numberOfPeople : option string) :
  exists m, forall event,
    check_NumberOfPeople event numberOfPeople =
    option_map (buildElicitSlotResponse event "NumberOfPeople") m.
Proof.
  unfold check_NumberOfPeople. destruct (present numberOfPeople); [| now exists None].
  destruct (parseInt10 _) as [num |]; [| eexists (Some _); reflexivity].
  destruct (num <? 1); [eexists (Some _); reflexivity |].
  destruct (num >? 20); [eexists (Some _) | exists None]; reflexivity.
Qed.

Lemma check_DiningDate_shape (diningDate : option string) :
  exists m, forall event,
    check_DiningDate P event diningDate =
    option_map (buildElicitSlotResponse event "DiningDate") m.
Proof.
  unfold check_DiningDate. destruct (present diningDate); [| now exists None].
  destruct (Date_parse P _) as [requested |]; [| eexists (Some _); reflexivity].
  destruct (requested <? _); [eexists (Some _); reflexivity |].
  destruct (requested >? _); [eexists (Some _) | exists None]; reflexivity.
Qed.

Lemma check_DiningTime_shape (diningDate diningTime : option string) :
  exists m, forall event,
    check_DiningTime P event diningDate diningTime =
    option_map (buildElicitSlotResponse event "DiningTime") m.
Proof.
  unfold check_DiningTime. destruct (present diningTime); [| now exists None].
  destruct (negb (test _ _)); [eexists (Some _); reflexivity |].
  destruct (numLt _ _ || numGt _ _); [eexists (Some _); reflexivity |].
  destruct (present diningDate); [| now exists None].
  destruct (String.eqb _ _); [| now exists None].
  destruct (numLt _ _ || _); [eexists (Some _) | exists None]; reflexivity.
Qed.

Lemma check_Email_shape (email : option string) :
  exists m, forall event,
    check_Email event email = option_map (buildElicitSlotResponse event "Email") m.
Proof.
  unfold check_Email. destruct (present email); [| now exists None].
  destruct (negb _); [eexists (Some _) | exists None]; reflexivity.
Qed.

Lemma dialogTurn_blocks (event : Event) :
  dialogTurn P event =
  orReturn (verdict P event "Location")
    (orReturn (verdict P event "Cuisine")
      (orReturn (verdict P event "NumberOfPeople")
        (orReturn (verdict P event "DiningDate")
          (orReturn (verdict P event "DiningTime")
            (orReturn (verdict P event "Email") (buildDelegateResponse event)))))).
Proof. reflexivity. Qed.

Lemma verdict_NumberOfPeople (event : Event) :
  verdict P event "NumberOfPeople" =
  check_NumberOfPeople event
    (getSlotValue (intent_slots (intent (sessionState event))) "NumberOfPeople").
Proof. reflexivity. Qed.

Lemma verdict_DiningDate (event : Event) :
  verdict P event "DiningDate" =
  check_DiningDate P event
    (getSlotValue (intent_slots (intent (sessionState event))) "DiningDate").
Proof. reflexivity. Qed.

Lemma verdict_DiningTime (event : Event) :
  verdict P event "DiningTime" =
  check_DiningTime P event
    (getSlotValue (intent_slots (intent (sessionState event))) "DiningDate")
    (getSlotValue (intent_slots (intent (sessionState event))) "DiningTime").
Proof. reflexivity. Qed.

Lemma valid_verdict (event : Event) (field : string) :
  invalid P event field = false -> verdict P event field = None.
Proof. unfold invalid. destruct (verdict P event field); [discriminate | reflexivity]. Qed.

Lemma invalid_verdict (event : Event) (field : string) :
  invalid P event field = true -> exists r, verdict P event field = Some r.
Proof. unfold invalid. destruct (verdict P event field); [eauto | discriminate]. Qed.

Ltac block_shapes event :=
  let slots := constr:(intent_slots (intent (sessionState event))) in
  destruct (check_Location_shape (getSlotValue slots "Location")) as [m1 S1];
  destruct (check_Cuisine_shape (getSlotValue slots "Cuisine")) as [m2 S2];
  destruct (check_NumberOfPeople_shape (getSlotValue slots "NumberOfPeople")) as [m3 S3];
  destruct (check_DiningDate_shape (getSlotValue slots "DiningDate")) as [m4 S4];
  destruct (check_DiningTime_shape (getSlotValue slots "DiningDate")
              (getSlotValue slots "DiningTime")) as [m5 S5];
  destruct (check_Email_shape (getSlotValue slots "Email")) as [m6 S6].

(** A dialog turn asks again only for a slot that its own block rejects. *)
Lemma elicited_is_invalid (event : Event) (field : string) :
  dialogAction (dialogTurn P event) = ElicitSlot field -> invalid P event field = true.
Proof.
  rewrite dialogTurn_blocks. unfold invalid, verdict.
  cbn [String.eqb Ascii.eqb Bool.eqb].
  block_shapes event. rewrite S1, S2, S3, S4, S5, S6.
  destruct m1; [simpl; intros [= <-]; reflexivity |].
  destruct m2; [simpl; intros [= <-]; reflexivity |].
  destruct m3; [simpl; intros [= <-]; reflexivity |].
  destruct m4; [simpl; intros [= <-]; reflexivity |].
  destruct m5; [simpl; intros [= <-]; reflexivity |].
  destruct m6; [simpl; intros [= <-]; reflexivity |].
  simpl. discriminate.
Qed.

(** When a block rejects its slot, the response asks again for the first
    slot, in validation order, whose block rejects it: that slot is set
    to [null], every other slot is as in the event, the intent stays
    [InProgress], and the slots checked after it have no part in the
    response (an event that agrees on the slots up to that one gets the
    same action and message). *)
Lemma first_rejected_slot_is_elicited (event : Event) (field : string) :
  firstInvalid P event = Some field ->
  let r := dialogTurn P event in
  dialogAction r = ElicitSlot field /\
  intent_slots (resp_intent r) !! field = Some None /\
  (forall other, other <> field ->
     intent_slots (resp_intent r) !! other =
     intent_slots (intent (sessionState event)) !! other) /\
  intent_state (resp_intent r) = "InProgress" /\
  (forall event',
     (forall f, In f (upTo field validationOrder) ->
        getSlotValue (intent_slots (intent (sessionState event'))) f =
        getSlotValue (intent_slots (intent (sessionState event))) f) ->
     dialogAction (dialogTurn P event') = ElicitSlot field /\
     messages (dialogTurn P event') = messages r).
Proof.
  intros Hfirst r. subst r. block_shapes event.
  unfold firstInvalid, invalid, verdict, validationOrder in Hfirst.
  cbn [List.filter String.eqb Ascii.eqb Bool.eqb head] in Hfirst.
  rewrite S1, S2, S3, S4, S5, S6 in Hfirst.
  assert (Hturn : forall event',
     (forall f, In f (upTo field validationOrder) ->
        getSlotValue (intent_slots (intent (sessionState event'))) f =
        getSlotValue (intent_slots (intent (sessionState event))) f) ->
     dialogAction (dialogTurn P event') = ElicitSlot field /\
     messages (dialogTurn P event') = messages (dialogTurn P event) /\
     dialogTurn P event' = buildElicitSlotResponse event' field
        (match messages (dialogTurn P event) with Some [m] => content m | _ => "" end)).
  { intros event' A. unfold dialogTurn, handleDialogValidation.
    rewrite S1, S2, S3, S4, S5, S6.
    destruct m1.
    - simpl in Hfirst. injection Hfirst as <-.
      rewrite (A "Location"), S1 by (simpl; tauto). simpl. auto. 
    - destruct m2.
      + simpl in Hfirst. injection Hfirst as <-.
        rewrite (A "Location"), (A "Cuisine"), S1, S2 by (simpl; tauto). simpl. auto.
      + destruct m3.
        * simpl in Hfirst. injection Hfirst as <-.
          rewrite (A "Location"), (A "Cuisine"), (A "NumberOfPeople"), S1, S2, S3
            by (simpl; tauto). simpl. auto.
        * destruct m4.
          -- simpl in Hfirst. injection Hfirst as <-.
             rewrite (A "Location"), (A "Cuisine"), (A "NumberOfPeople"),
               (A "DiningDate"), S1, S2, S3, S4 by (simpl; tauto). simpl. auto.
          -- destruct m5.
             ++ simpl in Hfirst. injection Hfirst as <-.
                rewrite (A "Location"), (A "Cuisine"), (A "NumberOfPeople"),
                  (A "DiningDate"), (A "DiningTime"), S1, S2, S3, S4, S5
                  by (simpl; tauto). simpl. auto.
             ++ destruct m6; [| discriminate].
                simpl in Hfirst. injection Hfirst as <-.
                rewrite (A "Location"), (A "Cuisine"), (A "NumberOfPeople"),
                  (A "DiningDate"), (A "DiningTime"), (A "Email"), S1, S2, S3, S4, S5, S6
                  by (simpl; tauto). simpl. auto. }
  destruct (Hturn event (fun _ _ => eq_refl)) as (Ha & _ & Hr).
  repeat split.
  - exact Ha.
  - rewrite Hr. simpl. apply lookup_insert_eq.
  - intros other Hne. rewrite Hr. simpl. now apply lookup_insert_ne.
  - rewrite Hr. reflexivity.
  - apply Hturn; assumption.
  - apply Hturn; assumption.
Qed.

Lemma largeParty_distinct : msg_largeParty <> msg_notANumber.
Proof. discriminate. Qed.

Lemma number_block (event : Event) (s : string) (n : Z) :
  truthy s = true -> parseInt10 s = Some n ->
  check_NumberOfPeople event (Some s) =
  if n <? 1 then Some (buildElicitSlotResponse event "NumberOfPeople" msg_notANumber)
  else if n >? 20 then Some (buildElicitSlotResponse event "NumberOfPeople" msg_largeParty)
  else None.
Proof.
  intros T E. unfold check_NumberOfPeople. simpl. rewrite T, E. reflexivity.
Qed.

(** C5. When the [NumberOfPeople] slot holds the decimal numeral of an
    integer [n], its block accepts exactly when [1 <= n <= 20]; an
    accepted value is never asked again, a rejected one is asked again
    as soon as the slots before it are valid, with one message below 1
    (the message of a value that is not a number) and a different one
    above 20. *)
Theorem party_size_accepted_iff (event : Event) (n : Z) :
  getSlotValue (intent_slots (intent (sessionState event))) "NumberOfPeople"
    = Some (showZ n) ->
  let r := dialogTurn P event in
  (check_NumberOfPeople event (Some (showZ n)) = None <-> 1 <= n <= 20) /\
  (1 <= n <= 20 -> dialogAction r <> ElicitSlot "NumberOfPeople") /\
  (invalid P event "Location" = false -> invalid P event "Cuisine" = false ->
     (n < 1 -> r = buildElicitSlotResponse event "NumberOfPeople" msg_notANumber) /\
     (20 < n -> r = buildElicitSlotResponse event "NumberOfPeople" msg_largeParty)) /\
  (forall s, truthy s = true -> parseInt10 s = None ->
     check_NumberOfPeople event (Some s) =
     Some (buildElicitSlotResponse event "NumberOfPeople" msg_notANumber)) /\
  msg_largeParty <> msg_notANumber.
Proof.
  intros Hslot r. destruct (parseInt10_showZ n) as [Hparse Htruthy].
  pose proof (number_block event _ _ Htruthy Hparse) as Hblock.
  assert (Hiff : check_NumberOfPeople event (Some (showZ n)) = None <-> 1 <= n <= 20).
  { rewrite Hblock. destruct (n <? 1) eqn:E1; [| destruct (n >? 20) eqn:E2].
    - apply Z.ltb_lt in E1. split; [discriminate | lia].
    - apply Z.gtb_lt in E2. split; [discriminate | lia].
    - apply Z.ltb_ge in E1. rewrite Z.gtb_ltb in E2. apply Z.ltb_ge in E2.
      split; [lia | reflexivity]. }
  split; [exact Hiff |]. split; [| split; [| split]].
  - intros Hn Hel. apply elicited_is_invalid in Hel.
    unfold invalid in Hel. rewrite verdict_NumberOfPeople, Hslot in Hel. apply Hiff in Hn. rewrite Hn in Hel. discriminate.
  - intros V1 V2. subst r. rewrite dialogTurn_blocks.
    rewrite (valid_verdict _ _ V1), (valid_verdict _ _ V2).
    rewrite verdict_NumberOfPeople, Hslot, Hblock. split; intros Hn.
    + apply Z.ltb_lt in Hn. rewrite Hn. reflexivity.
    + destruct (n <? 1) eqn:E1; [apply Z.ltb_lt in E1; lia |].
      apply Z.gtb_lt in Hn. rewrite Hn. reflexivity.
  - intros s T E. unfold check_NumberOfPeople. simpl. rewrite T, E. reflexivity.
  - exact largeParty_distinct.
Qed.

Lemma getSlotValue_truthy (slots : Slots) (f s : string) :
  getSlotValue slots f = Some s -> truthy s = true.
Proof.
  unfold getSlotValue. destruct (slots !! f) as [[slot |] |]; try discriminate.
  destruct (slot_value slot) as [v |]; try discriminate.
  unfold orElse.
  destruct (interpretedValue v) as [a |].
  - destruct (truthy a) eqn:Ta; [intros [= <-]; exact Ta |].
    destruct (originalValue v) as [b |]; [| discriminate].
    destruct (truthy b) eqn:Tb; [intros [= <-]; exact Tb | discriminate].
  - destruct (originalValue v) as [b |]; [| discriminate].
    destruct (truthy b) eqn:Tb; [intros [= <-]; exact Tb | discriminate].
Qed.

Lemma date_block (event : Event) (s : string) :
  truthy s = true ->
  exists m1 m2 m3,
    check_DiningDate P event (Some s) =
    match Date_parse P (s ++ "T00:00:00") with
    | None => Some (buildElicitSlotResponse event "DiningDate" m1)
    | Some requested =>
        let today := JSDate.setHours0 (utcOffset P) (clock P 0) in
        if requested <? today then Some (buildElicitSlotResponse event "DiningDate" m2)
        else if requested >? JSDate.addDays today 90
             then Some (buildElicitSlotResponse event "DiningDate" m3)
             else None
    end.
Proof.
  intros T. unfold check_DiningDate. simpl. rewrite T.
  do 3 eexists. reflexivity.
Qed.

Lemma midnight_lt (off a b : Z) :
  (JSDate.midnightOf off a <? JSDate.midnightOf off b) = (a <? b).
Proof.
  unfold JSDate.midnightOf, JSDate.msPerDay.
  destruct (a <? b) eqn:E.
  - apply Z.ltb_lt in E. apply Z.ltb_lt. lia.
  - apply Z.ltb_ge in E. apply Z.ltb_ge. lia.
Qed.

Lemma addDays_midnight (off d n : Z) :
  JSDate.addDays (JSDate.midnightOf off d) n = JSDate.midnightOf off (d + n).
Proof. unfold JSDate.addDays, JSDate.midnightOf. lia. Qed.

(** C6. A [DiningDate] that does not parse is rejected; one that parses
    as the calendar day [d] (its local midnight) is accepted exactly when
    [today <= d <= today + 90], for the local day [today] of the clock at
    validation time. *)
Theorem dining_date_accepted_iff (event : Event) (s : string) :
  getSlotValue (intent_slots (intent (sessionState event))) "DiningDate" = Some s ->
  let today := JSDate.localDay (utcOffset P) (clock P 0) in
  let block := check_DiningDate P event (Some s) in
  let earlier :=
    invalid P event "Location" = false /\ invalid P event "Cuisine" = false /\
    invalid P event "NumberOfPeople" = false in
  (Date_parse P (s ++ "T00:00:00") = None ->
     elicits "DiningDate" event block /\
     (earlier -> dialogAction (dialogTurn P event) = ElicitSlot "DiningDate")) /\
  (forall d, Date_parse P (s ++ "T00:00:00") = Some (JSDate.midnightOf (utcOffset P) d) ->
     (block = None <-> today <= d <= today + 90) /\
     (today <= d <= today + 90 ->
        dialogAction (dialogTurn P event) <> ElicitSlot "DiningDate") /\
     (~ today <= d <= today + 90 -> earlier ->
        dialogAction (dialogTurn P event) = ElicitSlot "DiningDate")).
Proof.
  intros Hslot today block earlier.
  pose proof (getSlotValue_truthy _ _ _ Hslot) as T.
  destruct (date_block event s T) as (m1 & m2 & m3 & Hblock).
  assert (Hturn : forall m, block = Some (buildElicitSlotResponse event "DiningDate" m) ->
            earlier -> dialogAction (dialogTurn P event) = ElicitSlot "DiningDate").
  { intros m Hb (V1 & V2 & V3). rewrite dialogTurn_blocks.
    rewrite (valid_verdict _ _ V1), (valid_verdict _ _ V2), (valid_verdict _ _ V3).
    rewrite verdict_DiningDate, Hslot. fold block. rewrite Hb. reflexivity. }
  split.
  - intros Hparse. subst block. rewrite Hparse in Hblock. split.
    + exists m1. exact Hblock.
    + apply (Hturn m1). exact Hblock.
  - intros d Hparse. subst block. rewrite Hparse in Hblock. cbv zeta in Hblock.
    unfold JSDate.setHours0 in Hblock. fold today in Hblock.
    rewrite midnight_lt, addDays_midnight, Z.gtb_ltb, midnight_lt in Hblock.
    assert (Hiff : check_DiningDate P event (Some s) = None <-> today <= d <= today + 90).
    { rewrite Hblock. destruct (d <? today) eqn:E1; [| destruct (today + 90 <? d) eqn:E2].
      - apply Z.ltb_lt in E1. split; [discriminate | lia].
      - apply Z.ltb_lt in E2. split; [discriminate | lia].
      - apply Z.ltb_ge in E1, E2. split; [lia | reflexivity]. }
    split; [exact Hiff |]. split.
    + intros Hd Hel. apply elicited_is_invalid in Hel. unfold invalid in Hel.
      rewrite verdict_DiningDate, Hslot in Hel. apply Hiff in Hd.
      rewrite Hd in Hel. discriminate.
    + intros Hd. destruct (d <? today) eqn:E1; [| destruct (today + 90 <? d) eqn:E2].
      * apply (Hturn m2). exact Hblock.
      * apply (Hturn m3). exact Hblock.
      * apply Z.ltb_ge in E1, E2. lia.
Qed.

Lemma time_block (event : Event) (date : option string) (h1 h2 m1 m2 : ascii) :
  isDigit h1 = true -> isDigit h2 = true -> isDigit m1 = true -> isDigit m2 = true ->
  exists a b,
    check_DiningTime P event date (Some (hhmm h1 h2 m1 m2)) =
    let hours := twoDigits h1 h2 in
    let minutes := twoDigits m1 m2 in
    let now := clock P 1 in
    if (hours <? 6) || (23 <? hours)
    then Some (buildElicitSlotResponse event "DiningTime" a)
    else if present date && String.eqb (interp date) (JSDate.toISODate now)
            && ((hours <? JSDate.getHours (utcOffset P) now)
                || ((hours =? JSDate.getHours (utcOffset P) now)
                    && (minutes <=? JSDate.getMinutes (utcOffset P) now)))
         then Some (buildElicitSlotResponse event "DiningTime" b)
         else None.
Proof.
  intros D1 D2 D3 D4. unfold check_DiningTime.
  assert (Hre : test timeRegex (hhmm h1 h2 m1 m2) = true).
  { apply timeRegex_hhmm. exists h1, h2, m1, m2. auto. }
  change (interp (Some (hhmm h1 h2 m1 m2))) with (hhmm h1 h2 m1 m2).
  change (present (Some (hhmm h1 h2 m1 m2))) with true.
  rewrite Hre, split_hhmm by assumption. cbv iota. cbn [negb nth numLt numGt numEq numLe].
  do 2 eexists. cbv zeta.
  destruct ((twoDigits h1 h2 <? 6) || (23 <? twoDigits h1 h2)); [reflexivity |].
  destruct (present date); [| reflexivity].
  destruct (String.eqb _ _); [| reflexivity].
  cbn [andb]. destruct (_ || _); reflexivity.
Qed.

Lemma getMinutes_bounds (off t : Z) : 0 <= JSDate.getMinutes off t <= 59.
Proof.
  unfold JSDate.getMinutes, JSDate.msPerHour, JSDate.msPerMinute.
  pose proof (Z.mod_pos_bound (t + off) 3600000 ltac:(lia)) as B.
  split.
  - apply Z.div_pos; lia.
  - apply Z.lt_succ_r. apply Z.div_lt_upper_bound; lia.
Qed.

Lemma twoDigits_bounds (a b : ascii) :
  isDigit a = true -> isDigit b = true -> 0 <= twoDigits a b <= 99.
Proof.
  intros Da Db. apply isDigit_bounds in Da, Db. unfold twoDigits. lia.
Qed.

(** The [DiningTime] block rejects a value that does not match
    [\d{2}:\d{2}], that is, one that is not two digits, a colon and two
    digits; it rejects an hour below 6 or above 23; and when the
    [DiningDate] slot is the date of the platform clock it rejects a time
    that is not later than the clock's hour and minute. Today's date
    and the current hour and minute come from one reading of the
    platform clock, the clock that the date block reads: of the platform,
    the time block depends on that reading and the time zone only, and
    the date block on its own reading, the time zone and the date parser.
    The date that the slot is compared with is the date of the reading's
    ISO string, the UTC date; hour and minute are those of the time
    zone. *)
Lemma time_block_rejections (event : Event) (s : string) :
  getSlotValue (intent_slots (intent (sessionState event))) "DiningTime" = Some s ->
  let date := getSlotValue (intent_slots (intent (sessionState event))) "DiningDate" in
  let block := check_DiningTime P event date (Some s) in
  let now := clock P 1 in
  (test timeRegex s = false -> elicits "DiningTime" event block) /\
  (test timeRegex s = true <->
     exists h1 h2 m1 m2,
       isDigit h1 = true /\ isDigit h2 = true /\ isDigit m1 = true /\ isDigit m2 = true /\
       s = hhmm h1 h2 m1 m2) /\
  (forall h1 h2 m1 m2,
     isDigit h1 = true -> isDigit h2 = true -> isDigit m1 = true -> isDigit m2 = true ->
     s = hhmm h1 h2 m1 m2 ->
     (twoDigits h1 h2 < 6 \/ 23 < twoDigits h1 h2 -> elicits "DiningTime" event block) /\
     (date = Some (JSDate.toISODate now) ->
      60 * twoDigits h1 h2 + twoDigits m1 m2
        <= 60 * JSDate.getHours (utcOffset P) now + JSDate.getMinutes (utcOffset P) now ->
      elicits "DiningTime" event block)) /\
  (elicits "DiningTime" event block ->
   invalid P event "Location" = false -> invalid P event "Cuisine" = false ->
   invalid P event "NumberOfPeople" = false -> invalid P event "DiningDate" = false ->
   dialogAction (dialogTurn P event) = ElicitSlot "DiningTime") /\
  (forall P', utcOffset P' = utcOffset P ->
     (clock P' 1%nat = clock P 1%nat ->
        check_DiningTime P' event date (Some s) = block) /\
     (clock P' 0%nat = clock P 0%nat -> Date_parse P' = Date_parse P ->
        check_DiningDate P' event date = check_DiningDate P event date)).
Proof.
  intros Hslot date block now.
  pose proof (getSlotValue_truthy _ _ _ Hslot) as T.
  split; [| split; [| split; [| split]]].
  - intros Hre. subst block. unfold check_DiningTime. simpl. rewrite T, Hre. simpl.
    eexists. reflexivity.
  - apply timeRegex_hhmm.
  - intros h1 h2 m1 m2 D1 D2 D3 D4 ->.
    destruct (time_block event date h1 h2 m1 m2 D1 D2 D3 D4) as (a & b & Hblock).
    cbv zeta in Hblock. fold block in Hblock. fold now in Hblock. split.
    + intros Hh. exists a. rewrite Hblock.
      replace ((twoDigits h1 h2 <? 6) || (23 <? twoDigits h1 h2)) with true; [reflexivity |].
      symmetry. apply orb_true_iff. destruct Hh; [left | right]; now apply Z.ltb_lt.
    + intros Htoday Hpast. rewrite Hblock.
      destruct ((twoDigits h1 h2 <? 6) || (23 <? twoDigits h1 h2)); [now exists a |].
      exists b.
      assert (Hp : present date = true).
      { rewrite Htoday.
        exact (getSlotValue_truthy (intent_slots (intent (sessionState event)))
                 "DiningDate" _ Htoday). }
      rewrite Hp, Htoday. cbn [interp]. rewrite String.eqb_refl. cbn [andb].
      pose proof (twoDigits_bounds m1 m2 D3 D4) as Bm.
      pose proof (getMinutes_bounds (utcOffset P) now) as Bn.
      replace (_ || _) with true; [reflexivity |].
      symmetry. apply orb_true_iff.
      destruct (Z.lt_trichotomy (twoDigits h1 h2) (JSDate.getHours (utcOffset P) now))
        as [Hlt | [Heq | Hgt]].
      * left. now apply Z.ltb_lt.
      * right. apply andb_true_iff. split; [now apply Z.eqb_eq | apply Z.leb_le; lia].
      * lia.
  - intros (m & Hb) V1 V2 V3 V4. rewrite dialogTurn_blocks.
    rewrite (valid_verdict _ _ V1), (valid_verdict _ _ V2), (valid_verdict _ _ V3),
      (valid_verdict _ _ V4).
    rewrite verdict_DiningTime, Hslot. fold date. fold block. rewrite Hb. reflexivity.
  - intros P' Ho. split.
    + intros Hc. subst block. unfold check_DiningTime. rewrite Hc, Ho. reflexivity.
    + intros Hc Hp. unfold check_DiningDate. rewrite Hc, Ho, Hp. reflexivity.
Qed.

(** A [DiningTime] of two digits, a colon and any two digits, with an
    hour from 6 to 23, is let through when the [DiningDate] slot is
    absent or is not the date of the clock's ISO string; the turn does
    not ask for [DiningTime] and goes on to the next block. *)
Lemma time_block_skips_minutes (event : Event) (h1 h2 m1 m2 : ascii) :
  isDigit h1 = true -> isDigit h2 = true -> isDigit m1 = true -> isDigit m2 = true ->
  6 <= twoDigits h1 h2 <= 23 ->
  getSlotValue (intent_slots (intent (sessionState event))) "DiningTime"
    = Some (hhmm h1 h2 m1 m2) ->
  let date := getSlotValue (intent_slots (intent (sessionState event))) "DiningDate" in
  date = None \/ date <> Some (JSDate.toISODate (clock P 1)) ->
  check_DiningTime P event date (Some (hhmm h1 h2 m1 m2)) = None /\
  dialogAction (dialogTurn P event) <> ElicitSlot "DiningTime" /\
  (invalid P event "Location" = false -> invalid P event "Cuisine" = false ->
   invalid P event "NumberOfPeople" = false -> invalid P event "DiningDate" = false ->
   dialogTurn P event = orReturn (verdict P event "Email") (buildDelegateResponse event)).
Proof.
  intros D1 D2 D3 D4 Hh Hslot date Hdate.
  destruct (time_block event date h1 h2 m1 m2 D1 D2 D3 D4) as (a & b & Hblock).
  cbv zeta in Hblock.
  assert (Hnone : check_DiningTime P event date (Some (hhmm h1 h2 m1 m2)) = None).
  { rewrite Hblock.
    replace ((twoDigits h1 h2 <? 6) || (23 <? twoDigits h1 h2)) with false.
    2:{ symmetry. apply orb_false_iff. split; apply Z.ltb_ge; lia. }
    destruct Hdate as [Hd | Hd].
    - rewrite Hd. reflexivity.
    - destruct date as [d |] eqn:E; [| reflexivity].
      cbn [interp]. destruct (String.eqb d _) eqn:Eq.
      + apply String.eqb_eq in Eq. subst d. contradiction.
      + rewrite andb_false_r. reflexivity. }
  split; [exact Hnone |]. split.
  - intros Hel. apply elicited_is_invalid in Hel. unfold invalid in Hel.
    rewrite verdict_DiningTime, Hslot in Hel. fold date in Hel.
    rewrite Hnone in Hel. discriminate.
  - intros V1 V2 V3 V4. rewrite dialogTurn_blocks.
    rewrite (valid_verdict _ _ V1), (valid_verdict _ _ V2), (valid_verdict _ _ V3),
      (valid_verdict _ _ V4).
    rewrite verdict_DiningTime, Hslot. fold date. rewrite Hnone. reflexivity.
Qed.

End DialogTurn.

(** ** LF1: locations *)

Section Locations.

Import JS LF1 Spec.

(** A raw location is looked up by its lower-cased, trimmed form. *)
Lemma normalizeLocation_key (raw : string) :
  truthy raw = true ->
  normalizeLocation (Some raw) =
  orValue (getProperty LOCATION_ALIASES (trim (toLowerCase raw))) Absent.
Proof. intros T. unfold normalizeLocation. rewrite T. reflexivity. Qed.

Lemma ownProperty_aliasKeys (key : string) :
  ownProperty LOCATION_ALIASES key <> None <-> In key aliasKeys.
Proof.
  unfold aliasKeys, LOCATION_ALIASES. cbn [map fst ownProperty In].
  repeat match goal with
  | |- context [String.eqb ?k key] =>
      destruct (String.eqb_spec k key) as [<- | ?]; [split; [tauto | discriminate] |]
  end.
  split; [congruence | intuition congruence].
Qed.

(** What the lookup gives: the canonical name of an alias; nothing for a
    key that is neither an alias nor inherited; the inherited member
    otherwise. *)
Lemma normalizeLocation_cases (raw : string) :
  truthy raw = true ->
  let key := trim (toLowerCase raw) in
  match ownProperty LOCATION_ALIASES key with
  | Some canonical => normalizeLocation (Some raw) = Str canonical
  | None =>
      if includes Object_prototype key
      then normalizeLocation (Some raw) = Inherited key
      else normalizeLocation (Some raw) = Absent
  end.
Proof.
  intros T key. rewrite (normalizeLocation_key raw T). fold key.
  unfold getProperty.
  destruct (ownProperty LOCATION_ALIASES key) as [canonical |] eqn:E.
  - assert (truthy canonical = true).
    { revert E. unfold LOCATION_ALIASES. cbn [ownProperty].
      repeat match goal with
      | |- context [String.eqb ?k key] =>
          destruct (String.eqb k key); [intros [= <-]; reflexivity |]
      end. discriminate. }
    unfold orValue. simpl. now rewrite H.
  - destruct (includes Object_prototype key); reflexivity.
Qed.

Lemma lowerChar_not_capital (c : ascii) : isCapital (lowerChar c) = false.
Proof. destruct c as [[] [] [] [] [] [] [] []]; reflexivity. Qed.

Lemma toLowerCase_noCapital (s : string) : noCapital (toLowerCase s) = true.
Proof.
  induction s as [| c s IH]; simpl; [reflexivity |].
  now rewrite lowerChar_not_capital, IH.
Qed.

Lemma trimStart_noCapital (s : string) :
  noCapital s = true -> noCapital (trimStart s) = true.
Proof.
  induction s as [| c s IH]; simpl; [reflexivity |]. intros H.
  destruct (isWhiteSpace c); [| exact H].
  apply andb_true_iff in H as [_ H]. auto.
Qed.

Lemma trimEnd_noCapital (s : string) :
  noCapital s = true -> noCapital (trimEnd s) = true.
Proof.
  induction s as [| c s IH]; simpl; [reflexivity |]. intros H.
  apply andb_true_iff in H as [Hc H]. specialize (IH H).
  destruct (trimEnd s).
  - destruct (isWhiteSpace c); simpl; [reflexivity | now rewrite Hc].
  - simpl in *. now rewrite Hc, IH.
Qed.

(** The only inherited members a lower-cased key can name. *)
Lemma inherited_lower_case_keys (key : string) :
  noCapital key = true -> includes Object_prototype key = true ->
  key = "constructor" \/ key = "__proto__".
Proof.
  intros Hn Hin. unfold includes, Object_prototype in Hin. cbn [existsb] in Hin.
  repeat match type of Hin with
  | (String.eqb key ?name || _) = true =>
      apply orb_true_iff in Hin as [Hin | Hin];
      [apply String.eqb_eq in Hin; subst key;
       first [now left | now right | discriminate Hn] |]
  end.
  discriminate.
Qed.

Lemma normalizeLocation_inherited (raw key : string) :
  normalizeLocation (Some raw) = Inherited key ->
  key = "constructor" \/ key = "__proto__".
Proof.
  unfold normalizeLocation. destruct (truthy raw); [| discriminate]. cbn [negb].
  unfold getProperty.
  destruct (ownProperty LOCATION_ALIASES _) as [v |].
  - unfold orValue. simpl. destruct (truthy v); discriminate.
  - destruct (includes Object_prototype (trim (toLowerCase raw))) eqn:E;
      [| discriminate].
    unfold orValue. simpl. intros [= <-].
    apply inherited_lower_case_keys; [| exact E].
    apply trimEnd_noCapital, trimStart_noCapital, toLowerCase_noCapital.
Qed.

(** C8. The aliases of the closed table normalize as listed, in any case
    and with surrounding white space, and ["Paris"] is rejected, as is
    every string whose key is neither an alias nor one of the two
    lower-case names that an object inherits; but ["constructor"], which
    is not a key of the table, is not rejected: the lookup finds the
    member that the table object inherits, and the dialog turn accepts
    the location. *)
Theorem normalizeLocation_accepts_inherited_key :
  map (fun raw => normalizeLocation (Some raw))
      ["new york"; "NYC"; "ny"; "manhattan"; "new york city"; " New York "]
    = repeat (Str "manhattan") 6 /\
  map (fun raw => normalizeLocation (Some raw))
      ["brooklyn"; "queens"; "bronx"; "the bronx"; "staten island"; "Brooklyn"]
    = [Str "brooklyn"; Str "queens"; Str "bronx"; Str "bronx"; Str "staten island";
       Str "brooklyn"] /\
  normalizeLocation (Some "Paris") = Absent /\
  (forall raw,
     let key := trim (toLowerCase raw) in
     ~ In key aliasKeys -> key <> "constructor" -> key <> "__proto__" ->
     normalizeLocation (Some raw) = Absent) /\
  ~ In "constructor" aliasKeys /\
  normalizeLocation (Some "constructor") = Inherited "constructor" /\
  check_Location (Samples.dialogEvent {[ "Location" := Samples.filled "constructor" ]})
    (Some "constructor") = None /\
  dialogAction
    (dialogTurn Samples.lexPlatform
       (Samples.dialogEvent {[ "Location" := Samples.filled "constructor" ]})) = Delegate.
Proof.
  do 3 (split; [reflexivity |]). split.
  { intros raw key Hkey Hc Hp. subst key. destruct (truthy raw) eqn:T.
    - pose proof (normalizeLocation_cases raw T) as H. cbv zeta in H.
      destruct (ownProperty LOCATION_ALIASES (trim (toLowerCase raw))) eqn:E.
      + exfalso. apply Hkey. apply ownProperty_aliasKeys. congruence.
      + destruct (includes Object_prototype (trim (toLowerCase raw))) eqn:I;
          [| exact H].
        destruct (normalizeLocation_inherited _ _ H); contradiction.
    - unfold normalizeLocation. now rewrite T. }
  split.
  { intros H. apply ownProperty_aliasKeys in H. apply H. reflexivity. }
  repeat split; reflexivity.
Qed.

End Locations.

(** ** LF1: fulfilment *)

Section Fulfilment.

Import JS LF1 Spec.

Lemma handler_fulfilment (P : Platform) (event : Event) :
  intent_name (intent (sessionState event)) = "DiningSuggestionsIntent" ->
  invocationSource event = "FulfillmentCodeHook" ->
  handler P event =
  tryCatch
    (handleFulfillment P event (intent_slots (intent (sessionState event)))
       (attrsOrEmpty event))
    (fun err => ret (buildFulfillmentResponse event msg_oops)).
Proof.
  intros Hi Hs. unfold handler. rewrite Hi, Hs. reflexivity.
Qed.

(** C9. In the request-complete phase, once the request is on the queue
    the response is the confirmation that closes the conversation,
    whatever the write to the [user-state] table does: resolve or
    reject, the handler returns the same confirmation and does not
    throw. *)
Theorem preference_failure_is_swallowed (P : Platform) (event : Event) (w : World) :
  intent_name (intent (sessionState event)) = "DiningSuggestionsIntent" ->
  invocationSource event = "FulfillmentCodeHook" ->
  enqueued (snd (handler P event w)) <> enqueued w ->
  let slots := intent_slots (intent (sessionState event)) in
  exists cuisine,
    let confirmation :=
      buildFulfillmentResponse event
        (msg_confirmation cuisine (getSlotValue slots "NumberOfPeople")
           (getSlotValue slots "DiningDate") (getSlotValue slots "DiningTime")
           (getSlotValue slots "Email")) in
    getSlotValue slots "Cuisine" = Some cuisine /\
    fst (handler P event w) = Ok confirmation /\
    dialogAction confirmation = Close /\
    forall put, fst (handler (withDynamoPut P put) event w) = Ok confirmation.
Proof.
  intros Hi Hs Hq slots.
  rewrite handler_fulfilment in Hq by assumption.
  unfold handleFulfillment, tryCatch in Hq. fold slots in Hq.
  destruct (getSlotValue slots "Cuisine") as [cuisine |] eqn:Hc;
    [| simpl in Hq; contradiction].
  exists cuisine. cbv zeta. split; [reflexivity |].
  assert (Hany : forall put,
    fst (handler (withDynamoPut P put) event w) =
    Ok (buildFulfillmentResponse event
          (msg_confirmation cuisine (getSlotValue slots "NumberOfPeople")
             (getSlotValue slots "DiningDate") (getSlotValue slots "DiningTime")
             (getSlotValue slots "Email")))).
  { intros put. rewrite handler_fulfilment by assumption.
    unfold handleFulfillment, tryCatch. fold slots. rewrite Hc.
    change (SQS_QUEUE_URL (withDynamoPut P put)) with (SQS_QUEUE_URL P).
    destruct (SQS_QUEUE_URL P) as [url |]; [| simpl in Hq; contradiction].
    destruct (truthy url); [| simpl in Hq; contradiction].
    unfold bind, sendMessage, settle, bind, modify in *.
    change (sqs_send (withDynamoPut P put)) with (sqs_send P).
    destruct (sqs_send P url _) as [[] | e]; [| simpl in Hq; contradiction].
    unfold saveUserState, tryCatch, putItem, bind, settle, modify, ret.
    change (dynamo_put (withDynamoPut P put)) with put.
    destruct (put _) as [[] | e]; reflexivity. }
  split; [| split; [reflexivity | exact Hany]].
  specialize (Hany (dynamo_put P)). destruct P. exact Hany.
Qed.

End Fulfilment.

(** ** LF2: the random choice *)

Section RandomChoice.

Import LF2 Samples.

Lemma nth_error_seq_firstn {A : Type} (l : list A) :
  forall k, (k <= length l)%nat ->
    map (nth_error l) (seq 0 k) = map Some (firstn k l).
Proof.
  induction l as [| x l IH]; intros k Hk.
  - assert (k = 0%nat) by (simpl in Hk; lia). subst. reflexivity.
  - destruct k as [| k]; [reflexivity |].
    simpl. f_equal. rewrite <- seq_shift, map_map. simpl.
    apply IH. simpl in Hk. lia.
Qed.

(** The first [k] elements of a permutation of [array] are the elements
    of [array] at [k] different positions. *)
Lemma firstn_permutation_positions {A : Type} (array shuffled : list A) (k : nat) :
  Permutation array shuffled -> (k <= length shuffled)%nat ->
  exists positions : list nat,
    List.NoDup positions /\
    Forall (fun p => (p < length array)%nat) positions /\
    map Some (firstn k shuffled) = map (nth_error array) positions.
Proof.
  intros Hperm Hk.
  apply Permutation_nth_error in Hperm as (Hlen & f & Hinj & Hf).
  exists (map f (seq 0 k)). repeat split.
  - apply Finite.Injective_map_NoDup; [exact Hinj | apply seq_NoDup].
  - apply List.Forall_forall. intros p Hp. apply in_map_iff in Hp as (n & <- & Hn).
    apply in_seq in Hn. apply nth_error_Some. rewrite <- Hf.
    apply nth_error_Some. lia.
  - rewrite map_map, <- nth_error_seq_firstn by exact Hk.
    apply map_ext. intros n. apply Hf.
Qed.

(** C3. Whatever the tape of random numbers, and for any sort that
    returns a permutation of the array, the choice among the hits has
    exactly [min(3, length)] elements, they are the elements of the hit
    list at pairwise different positions, and with three hits or fewer
    all of them are taken. *)
Theorem getRandomItems_chooses_distinct_hits {A : Type} (sort : Sort A) (bits : nat)
  (array : list A) (tape : list Z) :
  permutes sort ->
  let selected := fst (getRandomItems sort bits array 3 tape) in
  length selected = Nat.min 3 (length array) /\
  (exists positions : list nat,
     List.NoDup positions /\
     Forall (fun p => (p < length array)%nat) positions /\
     map Some selected = map (nth_error array) positions) /\
  ((length array <= 3)%nat -> Permutation selected array).
Proof.
  intros Hsort selected. subst selected. unfold getRandomItems, slice0.
  pose proof (Hsort (randomComparator bits) array tape) as Hperm.
  destruct (sort (randomComparator bits) array tape) as [shuffled rest].
  cbn [fst] in *. pose proof (Permutation_length Hperm) as Hlen.
  repeat split.
  - rewrite length_firstn, Hlen. lia.
  - apply firstn_permutation_positions; [now apply Permutation_sym | lia].
  - intros Hshort. rewrite firstn_all2 by lia. exact Hperm.
Qed.

(** The sample sort returns a permutation. *)
Lemma insertSorted_permutation {A : Type} (cmp : A -> A -> Rand Z) (x : A) (sorted : list A) :
  forall tape, Permutation (fst (insertSorted cmp x sorted tape)) (x :: sorted).
Proof.
  induction sorted as [| y rest IH]; intros tape; simpl; [reflexivity |].
  destruct (cmp x y tape) as [c tape1]. destruct (c <=? 0)%Z; [reflexivity |].
  specialize (IH tape1). destruct (insertSorted cmp x rest tape1) as [rest' tape2].
  simpl in *. rewrite IH. apply perm_swap.
Qed.

Lemma insertionSort_permutes {A : Type} : permutes (@insertionSort A).
Proof.
  intros cmp array. induction array as [| x rest IH]; intros tape; simpl; [reflexivity |].
  specialize (IH tape). destruct (insertionSort cmp rest tape) as [sorted tape1].
  simpl in IH. rewrite insertSorted_permutation. now apply perm_skip.
Qed.

End RandomChoice.

Section Uniformity.

Import LF2 Spec Samples.

Lemma flat_map_cons_length {T : Type} (draws : list T) (rows : list (list T)) :
  length (flat_map (fun k => map (cons k) rows) draws) = (length draws * length rows)%nat.
Proof.
  induction draws as [| k draws IH]; simpl; [reflexivity |].
  rewrite length_app, length_map, IH. reflexivity.
Qed.

Lemma tapes_length (draws : list Z) (m : nat) :
  length (tapes draws m) = (length draws ^ m)%nat.
Proof.
  induction m as [| m IH]; simpl; [reflexivity |].
  rewrite flat_map_cons_length, IH. reflexivity.
Qed.

Lemma numerators_length (bits : nat) : length (numerators bits) = (2 ^ bits)%nat.
Proof. unfold numerators. now rewrite length_map, length_seq. Qed.

Lemma power_of_two_not_multiple_of_five (n k : nat) : (2 ^ n)%nat <> (5 * k)%nat.
Proof.
  assert (H : exists q r, (2 ^ n = 5 * q + r)%nat /\ (1 <= r <= 4)%nat).
  { induction n as [| n (q & r & E & B)].
    - exists 0%nat, 1%nat. simpl. lia.
    - rewrite Nat.pow_succ_r'.
      destruct (Nat.le_gt_cases r 2).
      + exists (2 * q)%nat, (2 * r)%nat. lia.
      + exists (2 * q + 1)%nat, (2 * r - 5)%nat. lia. }
  destruct H as (q & r & E & B). lia.
Qed.

Lemma list_sum_cons (a : nat) (l : list nat) : list_sum (a :: l) = (a + list_sum l)%nat.
Proof. reflexivity. Qed.

(** Counting the tapes class by class counts every tape once, when every
    tape is in exactly one class. *)
Lemma count_by_class {T C : Type} (inClass : T -> C -> bool) (classes : list C)
  (omega : list T) :
  (forall t, In t omega -> length (List.filter (inClass t) classes) = 1%nat) ->
  list_sum (map (fun c => length (List.filter (fun t => inClass t c) omega)) classes)
  = length omega.
Proof.
  induction omega as [| t omega IH]; intros H.
  - clear H. induction classes as [| c cs IHcs]; [reflexivity | exact IHcs].
  - assert (E : forall cs,
      list_sum (map (fun c => length (List.filter (fun t0 => inClass t0 c) (t :: omega))) cs)
      = (length (List.filter (inClass t) cs)
         + list_sum (map (fun c => length (List.filter (fun t0 => inClass t0 c) omega)) cs))%nat).
    { induction cs as [| c cs IHcs]; [reflexivity |].
      rewrite !map_cons, !list_sum_cons, IHcs. cbn [List.filter].
      destruct (inClass t c); cbn [length]. all: lia. }
    rewrite E, IH, H.
    + reflexivity.
    + now left.
    + intros t0 Ht0. apply H. now right.
Qed.

Lemma firstn_in {T : Type} (k : nat) (l : list T) (x : T) :
  In x (firstn k l) -> In x l.
Proof. intros H. rewrite <- (firstn_skipn k l). apply in_or_app. now left. Qed.

Lemma firstn_NoDup {T : Type} (k : nat) (l : list T) :
  List.NoDup l -> List.NoDup (firstn k l).
Proof.
  intros H. rewrite <- (firstn_skipn k l) in H. now apply NoDup_app_remove_r in H.
Qed.

Lemma three_of_five_in_one_triple (a b c : nat) :
  (a < 5)%nat -> (b < 5)%nat -> (c < 5)%nat -> a <> b -> a <> c -> b <> c ->
  length (List.filter (sameMembers [a; b; c]) triples) = 1%nat.
Proof.
  intros Ha Hb Hc Hab Hac Hbc.
  destruct a as [| [| [| [| [| a]]]]]; try lia;
  destruct b as [| [| [| [| [| b]]]]]; try lia;
  destruct c as [| [| [| [| [| c]]]]]; try lia; reflexivity.
Qed.

Lemma choice_in_one_triple (sort : Sort nat) (bits : nat) (tape : list Z) :
  permutes sort ->
  length (List.filter (sameMembers (fst (getRandomItems sort bits fiveHits 3 tape))) triples)
  = 1%nat.
Proof.
  intros Hsort. unfold getRandomItems, slice0.
  pose proof (Hsort (randomComparator bits) fiveHits tape) as Hperm.
  destruct (sort (randomComparator bits) fiveHits tape) as [shuffled rest].
  cbn [fst] in *. pose proof (Permutation_length Hperm) as Hlen.
  assert (Hnd : List.NoDup shuffled).
  { apply (Permutation_NoDup (Permutation_sym Hperm)).
    unfold fiveHits. repeat constructor; simpl; lia. }
  assert (Hin : forall x, In x shuffled -> (x < 5)%nat).
  { intros x Hx. apply (Permutation_in _ Hperm) in Hx. simpl in Hx. lia. }
  rewrite Hlen. cbn [fiveHits length Nat.min].
  pose proof (firstn_NoDup 3 _ Hnd) as Hnd3.
  assert (Hin3 : forall x, In x (firstn 3 shuffled) -> (x < 5)%nat)
    by (intros x Hx; apply Hin; now apply firstn_in in Hx).
  assert (Hl3 : length (firstn 3 shuffled) = 3%nat)
    by (rewrite length_firstn, Hlen; reflexivity).
  destruct (firstn 3 shuffled) as [| a [| b [| c [| ? ?]]]]; try discriminate.
  inversion Hnd3 as [| ? ? Ha Hnd2]; subst. inversion Hnd2 as [| ? ? Hb _]; subst.
  apply three_of_five_in_one_triple;
    try (apply Hin3; simpl; tauto); simpl in Ha, Hb; intuition.
Qed.

(** C3, the counterexample: the choice is not uniform. With five hits,
    an insertion sort and a fair coin for the sign of the comparator, the
    first three hits are chosen on 336 of the 1024 tapes and the last
    three on 16; and no sort at all makes the ten possible choices
    equally frequent, since the number of tapes is a power of two. *)
Theorem the_choice_is_not_uniform :
  timesChosen insertionSort 1 10 [0; 1; 2]%nat = 336%nat /\
  timesChosen insertionSort 1 10 [2; 3; 4]%nat = 16%nat /\
  ~ (exists (sort : Sort nat) (bits m : nat), permutes sort /\ uniform sort bits m).
Proof.
  split; [vm_compute; reflexivity |]. split; [vm_compute; reflexivity |].
  intros (sort & bits & m & Hsort & Hunif).
  pose proof (count_by_class
    (fun tape c => sameMembers (fst (getRandomItems sort bits fiveHits 3 tape)) c)
    triples (tapes (numerators bits) m)
    (fun tape _ => choice_in_one_triple sort bits tape Hsort)) as Hsum.
  change (fun c => length (List.filter _ (tapes (numerators bits) m)))
    with (timesChosen sort bits m) in Hsum.
  rewrite tapes_length, numerators_length, <- Nat.pow_mul_r in Hsum.
  set (k := timesChosen sort bits m [0; 1; 2]%nat) in *.
  assert (Hk : forall c, In c triples -> timesChosen sort bits m c = k).
  { intros c Hc. apply Hunif; [exact Hc | simpl; tauto]. }
  unfold triples in Hsum at 1. rewrite !map_cons, !list_sum_cons in Hsum.
  rewrite !Hk in Hsum by (simpl; tauto). cbn [map list_sum fold_right] in Hsum.
  apply (power_of_two_not_multiple_of_five (bits * m) (2 * k)). lia.
Qed.

End Uniformity.

(** ** LF2: the handler *)

Section Worker.

Import LF2 Spec.

Variable P : Platform.

Lemma logged_nil (w : World) : logged w [] = w.
Proof. destruct w. unfold logged. simpl. now rewrite app_nil_r. Qed.

Lemma logged_logged (w : World) (a b : list Call) :
  logged (logged w a) b = logged w (a ++ b).
Proof. unfold logged. simpl. now rewrite app_assoc. Qed.

Lemma call_run (c : Call) (w : World) : call c w = (Ok tt, logged w [c]).
Proof. reflexivity. Qed.

(** A search that returns logs one [Search] call and changes nothing else. *)
Lemma searchOpenSearch_run (cuisine : option string) (w : World) (ids : list string) :
  fst (searchOpenSearch P cuisine w) = Ok ids ->
  exists c, searchOpenSearch P cuisine w = (Ok ids, logged w [Search c]).
Proof.
  unfold searchOpenSearch.
  destruct (OPENSEARCH_ENDPOINT P) as [endpoint |]; [| discriminate].
  destruct (JS.truthy endpoint); [| discriminate].
  destruct cuisine as [c |]; [| discriminate].
  unfold bind, settle. rewrite call_run.
  destruct (opensearch P (JS.toLowerCase c)) as [[hits |] | e]; simpl;
    intros [= <-]; eauto.
Qed.

Lemma delete_run (url rh : string) (w : World) :
  deleteSQSMessage P url rh w =
  match sqs_delete P rh with
  | Ok _ =>
      (Ok tt, {| queue := without rh (queue w); tape := tape w;
                 delivered := delivered w;
                 calls := calls w ++ [DeleteMessage url rh] |})
  | Throw e => (Throw e, logged w [DeleteMessage url rh])
  end.
Proof.
  unfold deleteSQSMessage, bind, settle. rewrite call_run.
  destruct (sqs_delete P rh) as [[] | e]; reflexivity.
Qed.

Lemma without_gone (message : QueueMessage) (q : list QueueMessage) :
  ~ In message (without (ReceiptHandle message) q).
Proof.
  unfold without. intros H. apply filter_In in H as [_ H].
  rewrite String.eqb_refl in H. discriminate.
Qed.

Lemma skipn_prefix {T : Type} (l x : list T) : skipn (length l) (l ++ x) = x.
Proof. induction l; simpl; auto. Qed.

(** The run of the handler on a received message without hits. *)
Lemma handler_no_hits_run (w : World) (url : string)
  (message : QueueMessage) (others : list QueueMessage) (b : MessageBody) :
  JS.orElse (SQS_QUEUE_URL P) None = Some url ->
  sqs_receive P (queue w) = Ok (Some (message :: others)) ->
  JSON_parse P (Body message) = Ok b ->
  (forall w0, fst (searchOpenSearch P (Cuisine b) w0) = Ok []) ->
  exists c,
    let log := [ReceiveMessage url; Search c; DeleteMessage url (ReceiptHandle message)] in
    handler P w =
    match sqs_delete P (ReceiptHandle message) with
    | Ok _ =>
        (Ok {| statusCode := 200; body := "No restaurants found" |},
         {| queue := without (ReceiptHandle message) (queue w); tape := tape w;
            delivered := delivered w; calls := calls w ++ log |})
    | Throw e => (Ok {| statusCode := 500; body := Eff.message e |}, logged w log)
    end.
Proof.
  intros Hurl Hrecv Hparse Hsearch.
  destruct (searchOpenSearch_run _ _ _ (Hsearch (logged w [ReceiveMessage url])))
    as [c Hc].
  exists c. cbv zeta.
  unfold handler. rewrite Hurl. unfold tryCatch, bind at 1. rewrite call_run.
  unfold bind at 1, getQueue. unfold bind at 1, settle at 1.
  change (queue (logged w [ReceiveMessage url])) with (queue w). rewrite Hrecv.
  unfold bind at 1, settle at 1. rewrite Hparse. unfold bind at 1. rewrite Hc.
  cbn [length Nat.eqb]. unfold bind at 1. rewrite delete_run, !logged_logged.
  destruct (sqs_delete P (ReceiptHandle message)) as [[] | e]; cbn;
    rewrite <- ?app_assoc; reflexivity.
Qed.

(** C2. When the search returns no hit for a received message, the
    worker calls the queue, the search index and then deletes the
    message, and nothing else: no random number is drawn, no record is
    fetched and no mail is sent. The handler returns; when the delete
    call resolves the result is 200 and the message is off the queue. *)
Theorem no_hits_still_acknowledged (w : World) (url : string)
  (message : QueueMessage) (others : list QueueMessage) (b : MessageBody) :
  JS.orElse (SQS_QUEUE_URL P) None = Some url ->
  sqs_receive P (queue w) = Ok (Some (message :: others)) ->
  JSON_parse P (Body message) = Ok b ->
  (forall w0, fst (searchOpenSearch P (Cuisine b) w0) = Ok []) ->
  let res := fst (handler P w) in
  let w' := snd (handler P w) in
  (exists cuisine,
     callsMade P w = [ReceiveMessage url; Search cuisine;
                      DeleteMessage url (ReceiptHandle message)]) /\
  tape w' = tape w /\ delivered w' = delivered w /\
  (exists r, res = Ok r) /\
  (sqs_delete P (ReceiptHandle message) = Ok tt ->
   res = Ok {| statusCode := 200; body := "No restaurants found" |} /\
   queue w' = without (ReceiptHandle message) (queue w) /\
   ~ In message (queue w')).
Proof.
  intros Hurl Hrecv Hparse Hsearch res w'. subst res w'.
  destruct (handler_no_hits_run w url message others b Hurl Hrecv Hparse Hsearch)
    as [c Hrun].
  cbv zeta in Hrun. unfold callsMade. rewrite Hrun.
  destruct (sqs_delete P (ReceiptHandle message)) as [[] | e];
    unfold logged; cbn [fst snd queue tape delivered calls]; rewrite skipn_prefix.
  - repeat split; eauto. apply without_gone.
  - repeat split; eauto; discriminate.
Qed.

(** A lookup logs its [GetItem] call and returns exactly when the call does. *)
Lemma lookup_run (id : string) (w : World) :
  snd (getRestaurantFromDynamoDB P id w) = logged w [GetItem id] /\
  ((exists item, dynamo_get P id = Ok item) ->
   exists r, fst (getRestaurantFromDynamoDB P id w) = Ok r).
Proof.
  unfold getRestaurantFromDynamoDB, bind, settle. rewrite call_run.
  destruct (dynamo_get P id) as [[item |] | e]; simpl; split; eauto.
  intros [item H]. discriminate.
Qed.

Lemma lookups_log (ids : list string) :
  forall w, snd (promiseAll (getRestaurantFromDynamoDB P) ids w)
            = logged w (map GetItem ids).
Proof.
  induction ids as [| id ids IH]; intros w; simpl.
  - now rewrite logged_nil.
  - destruct (lookup_run id w) as [Hw _].
    destruct (getRestaurantFromDynamoDB P id w) as [r w1]. simpl in Hw. subst w1.
    specialize (IH (logged w [GetItem id])).
    destruct (promiseAll _ ids _) as [rs w2]. simpl in IH. subst w2.
    simpl. now rewrite logged_logged.
Qed.

Lemma lookups_return (ids : list string) :
  (forall id, In id ids -> exists item, dynamo_get P id = Ok item) ->
  forall w, exists restaurants,
    fst (promiseAll (getRestaurantFromDynamoDB P) ids w) = Ok restaurants.
Proof.
  induction ids as [| id ids IH]; intros Hget w; simpl.
  - now exists [].
  - destruct (lookup_run id w) as [_ Hr].
    destruct (Hr (Hget id (or_introl eq_refl))) as [r Er].
    destruct (getRestaurantFromDynamoDB P id w) as [r1 w1]. simpl in Er. subst r1.
    destruct (IH (fun i Hi => Hget i (or_intror Hi)) w1) as [rs Ers].
    destruct (promiseAll _ ids w1) as [rs1 w2]. simpl in Ers. subst rs1.
    simpl. eauto.
Qed.

(** What a send does to the world: nothing without a sender; with one,
    the call is logged and the mail is delivered when the call resolves. *)
Lemma sendEmail_run (recipient cuisine people date time : option string)
  (restaurants : list Restaurant) (w : World) :
  let run := sendEmailViaSES P recipient cuisine people date time restaurants w in
  (JS.orElse (SES_SENDER_EMAIL P) None = None /\
   (exists e, fst run = Throw e) /\ snd run = w) \/
  (exists email,
     (ses_send P email = Ok tt /\ fst run = Ok tt /\
      snd run = {| queue := queue w; tape := tape w;
                   delivered := delivered w ++ [email];
                   calls := calls w ++ [SendEmail email] |}) \/
     (exists e, ses_send P email = Throw e /\ fst run = Throw e /\
                snd run = logged w [SendEmail email])).
Proof.
  unfold sendEmailViaSES.
  destruct (JS.orElse (SES_SENDER_EMAIL P) None) as [sender |].
  - right. unfold bind, settle. rewrite call_run.
    match goal with |- context [ses_send P ?m] => exists m; destruct (ses_send P m) as [[] | e] end.
    + left. simpl. auto.
    + right. exists e. simpl. auto.
  - left. simpl. eauto.
Qed.

(** A notification inside its own [try], then the delete. *)
Lemma notify_then_delete (send : M World unit) (url rh : string) (r : Response)
  (w : World) :
  (_ <- tryCatch send (fun emailError => ret tt) ;;
   _ <- deleteSQSMessage P url rh ;;
   ret r)%eff w =
  let w3 := snd (send w) in
  match sqs_delete P rh with
  | Ok _ =>
      (Ok r, {| queue := without rh (queue w3); tape := tape w3;
                delivered := delivered w3;
                calls := calls w3 ++ [DeleteMessage url rh] |})
  | Throw e => (Throw e, logged w3 [DeleteMessage url rh])
  end.
Proof.
  unfold bind, tryCatch. destruct (send w) as [[[] | e] w3]; unfold ret;
    rewrite delete_run; cbn [snd];
    destruct (sqs_delete P rh) as [[] | e']; reflexivity.
Qed.

(** The run of the handler on a received message with hits. *)
Lemma handler_hits_run (w : World) (url : string)
  (message : QueueMessage) (others : list QueueMessage) (b : MessageBody)
  (ids : list string) :
  JS.orElse (SQS_QUEUE_URL P) None = Some url ->
  sqs_receive P (queue w) = Ok (Some (message :: others)) ->
  JSON_parse P (Body message) = Ok b ->
  (forall w0, fst (searchOpenSearch P (Cuisine b) w0) = Ok ids) ->
  ids <> [] ->
  exists c selected rest w1,
    let w2 := {| queue := queue w; tape := rest; delivered := delivered w;
                 calls := calls w ++ [ReceiveMessage url; Search c]
                            ++ map GetItem selected |} in
    handler P w =
    match fst (promiseAll (getRestaurantFromDynamoDB P) selected w1) with
    | Throw e => (Ok {| statusCode := 500; body := Eff.message e |}, w2)
    | Ok restaurants =>
        let w3 := snd (sendEmailViaSES P (Email b) (Cuisine b) (NumberOfPeople b)
                         (DiningDate b) (DiningTime b) restaurants w2) in
        match sqs_delete P (ReceiptHandle message) with
        | Ok _ =>
            (Ok {| statusCode := 200; body := "Message processed" |},
             {| queue := without (ReceiptHandle message) (queue w3); tape := tape w3;
                delivered := delivered w3;
                calls := calls w3 ++ [DeleteMessage url (ReceiptHandle message)] |})
        | Throw e =>
            (Ok {| statusCode := 500; body := Eff.message e |},
             logged w3 [DeleteMessage url (ReceiptHandle message)])
        end
    end.
Proof.
  intros Hurl Hrecv Hparse Hsearch Hne.
  destruct (searchOpenSearch_run _ _ _ (Hsearch (logged w [ReceiveMessage url])))
    as [c Hc].
  unfold handler. rewrite Hurl. unfold tryCatch at 1, bind at 1. rewrite call_run.
  unfold bind at 1, getQueue. unfold bind at 1, settle at 1.
  change (queue (logged w [ReceiveMessage url])) with (queue w). rewrite Hrecv.
  unfold bind at 1, settle at 1. rewrite Hparse. unfold bind at 1. rewrite Hc.
  destruct ids as [| id0 ids0]; [contradiction |]. cbn [length Nat.eqb].
  unfold bind at 1, random.
  destruct (getRandomItems (Array_sort P) (randomBits P) (id0 :: ids0) 3 _)
    as [selected rest].
  set (w1 := {| queue := queue w; tape := rest; delivered := delivered w;
               calls := calls w ++ [ReceiveMessage url; Search c] |}).
  exists c, selected, rest, w1. cbv zeta.
  unfold logged. cbn [queue tape delivered calls]. rewrite <- !app_assoc. cbn [app].
  fold w1. unfold bind at 1.
  pose proof (lookups_log selected w1) as Hlog.
  destruct (promiseAll (getRestaurantFromDynamoDB P) selected w1) as [rs wl].
  cbn [fst snd] in *. subst wl.
  unfold logged, w1. cbn [queue tape delivered calls]. rewrite <- !app_assoc. cbn [app].
  destruct rs as [restaurants | e]; [| reflexivity].
  rewrite notify_then_delete. cbv zeta.
  destruct (sqs_delete P (ReceiptHandle message)) as [[] | e']; reflexivity.
Qed.

Lemma lookups_not_delete (ids : list string) :
  forallb (fun c => negb (isDelete c)) (map GetItem ids) = true.
Proof. induction ids; simpl; auto. Qed.

(** C1. When a message was received, the search returned at least one
    hit and the notification throws (every lookup the invocation made
    returned, so the send was reached; and the send call it made, if a
    sender is configured at all, was rejected), the invocation still
    ends with the delete call for that message: it is the last call and
    the only delete call, and no mail is delivered. The handler returns;
    when the delete call resolves the result is 200 and the message is
    off the queue. *)
Theorem notification_failure_still_acknowledged (w : World) (url : string)
  (message : QueueMessage) (others : list QueueMessage) (b : MessageBody)
  (ids : list string) :
  JS.orElse (SQS_QUEUE_URL P) None = Some url ->
  sqs_receive P (queue w) = Ok (Some (message :: others)) ->
  JSON_parse P (Body message) = Ok b ->
  (forall w0, fst (searchOpenSearch P (Cuisine b) w0) = Ok ids) ->
  ids <> [] ->
  (forall id, In (GetItem id) (callsMade P w) -> exists item, dynamo_get P id = Ok item) ->
  (forall email, In (SendEmail email) (callsMade P w) ->
     exists e, ses_send P email = Throw e) ->
  let res := fst (handler P w) in
  let w' := snd (handler P w) in
  (exists before,
     callsMade P w = (before ++ [DeleteMessage url (ReceiptHandle message)])%list /\
     forallb (fun c => negb (isDelete c)) before = true) /\
  delivered w' = delivered w /\
  (exists r, res = Ok r) /\
  (sqs_delete P (ReceiptHandle message) = Ok tt ->
   res = Ok {| statusCode := 200; body := "Message processed" |} /\
   queue w' = without (ReceiptHandle message) (queue w) /\
   ~ In message (queue w')).
Proof.
  intros Hurl Hrecv Hparse Hsearch Hne Hlook Hsend res w'. subst res w'.
  destruct (handler_hits_run w url message others b ids Hurl Hrecv Hparse Hsearch Hne)
    as (c & selected & rest & w1 & Hrun).
  cbv zeta in Hrun. unfold callsMade in *. rewrite Hrun in *. clear Hrun.
  destruct (fst (promiseAll (getRestaurantFromDynamoDB P) selected w1))
    as [restaurants | e] eqn:Elook.
  2:{ (* a lookup that was made did not return: excluded *)
      exfalso. cbn [snd calls] in Hlook. rewrite skipn_prefix in Hlook.
      destruct (lookups_return selected) with (w := w1) as [rs Hrs].
      - intros id Hid. apply Hlook. right. right. now apply in_map.
      - congruence. }
  match goal with |- context [sendEmailViaSES P ?r ?cu ?n ?d ?t ?rs ?w2] =>
    destruct (sendEmail_run r cu n d t rs w2) as [(_ & _ & Hw3) | [email [(Hok & _ & Hw3) | (e & _ & _ & Hw3)]]];
    cbv zeta in Hw3; rewrite Hw3 in *; clear Hw3
  end.
  - (* no sender is configured *)
    destruct (sqs_delete P (ReceiptHandle message)) as [[] | e];
      unfold logged; cbn [fst snd queue tape delivered calls];
      rewrite <- ?app_assoc, skipn_prefix.
    + repeat split; eauto using without_gone.
      exists ([ReceiveMessage url; Search c] ++ map GetItem selected)%list.
      split; [now rewrite <- app_assoc |].
      rewrite forallb_app, lookups_not_delete. reflexivity.
    + repeat split; eauto; try discriminate.
      exists ([ReceiveMessage url; Search c] ++ map GetItem selected)%list.
      split; [now rewrite <- app_assoc |].
      rewrite forallb_app, lookups_not_delete. reflexivity.
  - (* the send resolved: excluded *)
    exfalso. destruct (Hsend email) as [e He]; [| congruence].
    destruct (sqs_delete P (ReceiptHandle message)) as [[] | e];
      unfold logged; cbn [fst snd queue tape delivered calls];
      rewrite <- ?app_assoc, skipn_prefix; apply in_or_app; right;
      apply in_or_app; right; simpl; auto.
  - (* the send threw *)
    destruct (sqs_delete P (ReceiptHandle message)) as [[] | e'];
      unfold logged; cbn [fst snd queue tape delivered calls];
      rewrite <- ?app_assoc, skipn_prefix.
    + repeat split; eauto using without_gone.
      exists ([ReceiveMessage url; Search c] ++ map GetItem selected ++ [SendEmail email])%list.
      split; [now rewrite <- !app_assoc |].
      rewrite !forallb_app, lookups_not_delete. reflexivity.
    + repeat split; eauto; try discriminate.
      exists ([ReceiveMessage url; Search c] ++ map GetItem selected ++ [SendEmail email])%list.
      split; [now rewrite <- !app_assoc |].
      rewrite !forallb_app, lookups_not_delete. reflexivity.
Qed.

End Worker.

(** * Further properties of the code *)

(** ** LF1: email addresses *)

Section EmailAddresses.

Import JS LF1 Spec.

Lemma allChars_star_class (p : ascii -> bool) (s : string) :
  allChars p s = true -> matches (Star (Class p)) s.
Proof.
  induction s as [| c s IH]; simpl; intros H; [constructor |].
  apply andb_true_iff in H as [Hc Hs].
  change (String c s) with (String c "" ++ s)%string.
  apply MStarCons; [now constructor | auto].
Qed.

Lemma star_class_allChars (p : ascii -> bool) (r : regex) (s : string) :
  matches r s -> r = Star (Class p) -> allChars p s = true.
Proof.
  induction 1; intros E; try discriminate.
  - reflexivity.
  - injection E as ->.
    apply matches_class_inv in H as (c' & Hc & [= -> ->]).
    simpl. rewrite Hc. simpl. now apply IHmatches2.
Qed.

(** [[..]+] matches the non-empty strings of characters of the class. *)
Lemma plus_class_matches (p : ascii -> bool) (s : string) :
  matches (Plus (Class p)) s <-> s <> "" /\ allChars p s = true.
Proof.
  unfold Plus. split.
  - intros H. apply matches_cat_class_inv in H as (c & t & Hc & -> & H).
    split; [discriminate |]. simpl. rewrite Hc. simpl.
    now apply star_class_allChars with (r := Star (Class p)).
  - intros [Hne H]. destruct s as [| c s]; [contradiction |].
    simpl in H. apply andb_true_iff in H as [Hc Hs].
    change (String c s) with (String c "" ++ s)%string.
    constructor; [now constructor | now apply allChars_star_class].
Qed.

Lemma matches_cat_inv (a b : regex) (s : string) :
  matches (Cat a b) s -> exists u v, s = (u ++ v)%string /\ matches a u /\ matches b v.
Proof. inversion 1; subst; eauto. Qed.

Lemma emailRegex_parts (s : string) :
  test emailRegex s = true <->
  exists a b c, emailPart a /\ emailPart b /\ emailPart c /\
    s = (a ++ "@" ++ b ++ "." ++ c)%string.
Proof.
  rewrite test_matches. unfold emailRegex, emailPart. split.
  - intros H.
    apply matches_cat_inv in H as (a & t1 & -> & Ha & H).
    apply matches_cat_class_inv in H as (c1 & t2 & Hc1 & -> & H).
    apply matches_cat_inv in H as (b & t3 & -> & Hb & H).
    apply matches_cat_class_inv in H as (c2 & c & Hc2 & -> & Hc).
    apply Ascii.eqb_eq in Hc1, Hc2. subst c1 c2.
    apply plus_class_matches in Ha, Hb, Hc.
    exists a, b, c. auto.
  - intros (a & b & c & Ha & Hb & Hc & ->).
    apply plus_class_matches in Ha, Hb, Hc.
    constructor; [exact Ha |].
    change ("@" ++ b ++ "." ++ c)%string with (String "@" "" ++ (b ++ "." ++ c))%string.
    constructor; [now constructor |].
    constructor; [exact Hb |].
    change ("." ++ c)%string with (String "." "" ++ c)%string.
    constructor; [now constructor | exact Hc].
Qed.

(** X1. The [Email] block lets a value through exactly when it is absent
    or empty, or is made of three non-empty parts without white space or
    [@], the first two joined by [@] and the last two by a dot; any other
    value is asked again. *)
Theorem email_accepted_iff (event : Event) (email : option string) :
  (check_Email event email = None <->
   present email = false \/
   exists a b c, emailPart a /\ emailPart b /\ emailPart c /\
     email = Some (a ++ "@" ++ b ++ "." ++ c)%string) /\
  (check_Email event email <> None -> elicits "Email" event (check_Email event email)).
Proof.
  unfold check_Email. destruct (present email) eqn:Hp.
  2:{ split; [split; auto | intros H; now contradiction H]. }
  destruct email as [s |]; [| discriminate]. cbn [interp].
  destruct (test emailRegex s) eqn:Hre; cbn [negb].
  - split; [| intros H; now contradiction H]. split; [| reflexivity].
    intros _. right. apply emailRegex_parts in Hre as (a & b & c & Ha & Hb & Hc & ->).
    exists a, b, c. auto.
  - split.
    + split; [discriminate |]. intros [H | (a & b & c & Ha & Hb & Hc & [= ->])].
      * discriminate.
      * assert (test emailRegex (a ++ "@" ++ b ++ "." ++ c) = true)
          by (apply emailRegex_parts; exists a, b, c; auto).
        congruence.
    + intros _. eexists. reflexivity.
Qed.

End EmailAddresses.

(** ** LF1: slot values and locations *)

Section SlotValues.

Import JS LF1 Spec.

Lemma truthy_nonempty (s : string) : truthy s = true <-> s <> "".
Proof. destruct s; simpl; split; congruence. Qed.

Lemma truthy_app_l (a b : string) : truthy a = true -> truthy (a ++ b) = true.
Proof. destruct a; simpl; [discriminate | auto]. Qed.

Lemma truthy_app_r (a b : string) : truthy b = true -> truthy (a ++ b) = true.
Proof. destruct a; simpl; auto. Qed.

(** X2. [getSlotValue] gives a string exactly when the slot is there, is
    not [null] and has a value, and the string is the interpreted value,
    or the original value when the interpreted one is missing or empty;
    the string it gives is never empty. In every other case (no such
    slot, a [null] slot, no value, both values missing or empty) it gives
    [null]. *)
Theorem getSlotValue_first_nonempty (slots : Slots) (slotName s : string) :
  getSlotValue slots slotName = Some s <->
  exists slot v,
    slots !! slotName = Some (Some slot) /\ slot_value slot = Some v /\ s <> "" /\
    (interpretedValue v = Some s \/
     ((interpretedValue v = None \/ interpretedValue v = Some "") /\
      originalValue v = Some s)).
Proof.
  unfold getSlotValue. split.
  - destruct (slots !! slotName) as [[slot |] |]; try discriminate.
    destruct (slot_value slot) as [v |] eqn:Ev; try discriminate.
    intros H. exists slot, v. split; [reflexivity |]. split; [exact Ev |].
    unfold orElse in H.
    destruct (interpretedValue v) as [a |].
    + destruct a as [| c a].
      * simpl in H. destruct (originalValue v) as [b |]; [| discriminate].
        destruct b; simpl in H; [discriminate |]. injection H as <-.
        split; [discriminate | auto].
      * simpl in H. injection H as <-. split; [discriminate | auto].
    + destruct (originalValue v) as [b |]; [| discriminate].
      destruct b; simpl in H; [discriminate |]. injection H as <-.
      split; [discriminate | auto].
  - intros (slot & v & -> & -> & Hne & H). apply truthy_nonempty in Hne.
    unfold orElse. destruct H as [-> | [[-> | ->] ->]]; simpl; now rewrite ?Hne.
Qed.

(** X3. A location that [normalizeLocation] recognizes as a name of the
    table is given one of the five canonical names, its lower-cased and
    trimmed form is a key of the table, and normalizing the canonical
    name again gives the same name. *)
Theorem normalizeLocation_idempotent (raw canonical : string) :
  normalizeLocation (Some raw) = Str canonical ->
  In canonical canonicalLocations /\
  In (trim (toLowerCase raw)) aliasKeys /\
  normalizeLocation (Some canonical) = Str canonical.
Proof.
  intros H.
  destruct (truthy raw) eqn:T.
  2:{ unfold normalizeLocation in H. rewrite T in H. discriminate. }
  pose proof (normalizeLocation_cases raw T) as Hc. cbv zeta in Hc.
  destruct (ownProperty LOCATION_ALIASES (trim (toLowerCase raw))) as [c |] eqn:E.
  - rewrite Hc in H. injection H as ->. split; [| split].
    + revert E. unfold LOCATION_ALIASES. cbn [ownProperty].
      repeat match goal with
      | |- context [String.eqb ?k ?key] =>
          destruct (String.eqb k key); [intros [= <-]; simpl; tauto |]
      end. discriminate.
    + apply ownProperty_aliasKeys. congruence.
    + revert E. unfold LOCATION_ALIASES. cbn [ownProperty].
      repeat match goal with
      | |- context [String.eqb ?k ?key] =>
          destruct (String.eqb k key); [intros [= <-]; reflexivity |]
      end. discriminate.
  - destruct (includes Object_prototype (trim (toLowerCase raw)));
      rewrite Hc in H; discriminate.
Qed.

End SlotValues.

(** ** LF1 and LF2: the cuisine from the slot to the search *)

Section Cuisine.

Import JS LF1 Spec.

Lemma lowerChar_idempotent (c : ascii) : lowerChar (lowerChar c) = lowerChar c.
Proof. destruct c as [[] [] [] [] [] [] [] []]; reflexivity. Qed.

Lemma lowerChar_isWhiteSpace (c : ascii) : isWhiteSpace (lowerChar c) = isWhiteSpace c.
Proof. destruct c as [[] [] [] [] [] [] [] []]; reflexivity. Qed.

Lemma toLowerCase_idempotent (s : string) : toLowerCase (toLowerCase s) = toLowerCase s.
Proof.
  induction s as [| c s IH]; simpl; [reflexivity |].
  now rewrite lowerChar_idempotent, IH.
Qed.

Lemma toLowerCase_trimStart (s : string) :
  toLowerCase (trimStart s) = trimStart (toLowerCase s).
Proof.
  induction s as [| c s IH]; simpl; [reflexivity |].
  rewrite lowerChar_isWhiteSpace. destruct (isWhiteSpace c); [exact IH | reflexivity].
Qed.

Lemma toLowerCase_trimEnd (s : string) :
  toLowerCase (trimEnd s) = trimEnd (toLowerCase s).
Proof.
  induction s as [| c s IH]; simpl; [reflexivity |].
  rewrite <- IH, lowerChar_isWhiteSpace.
  destruct (trimEnd s); simpl; [destruct (isWhiteSpace c) |]; reflexivity.
Qed.

Lemma toLowerCase_trim (s : string) : toLowerCase (trim s) = trim (toLowerCase s).
Proof. unfold trim. now rewrite toLowerCase_trimEnd, toLowerCase_trimStart. Qed.

Lemma trimEnd_first (c : ascii) (r : string) :
  isWhiteSpace c = false -> exists r', trimEnd (String c r) = String c r'.
Proof.
  intros H. cbn [trimEnd]. destruct (trimEnd r); [rewrite H |]; eauto.
Qed.

Lemma upperOutside_lower (c : ascii) :
  upperOutside c = true -> lowerChar c = c /\ isWhiteSpace c = false.
Proof. destruct c as [[] [] [] [] [] [] [] []]; try discriminate; split; reflexivity. Qed.

(** The first letter of a cuisine that passes validation has its upper
    case below 256. *)
Lemma validated_cuisine_first_letter (event : Event) (c : ascii) (r : string) :
  check_Cuisine event (Some (String c r)) = None -> upperOutside c = false.
Proof.
  unfold check_Cuisine. cbn [present truthy interp].
  destruct (includes VALID_CUISINES _) eqn:I; [| discriminate]. intros _.
  destruct (upperOutside c) eqn:U; [| reflexivity]. exfalso.
  destruct (upperOutside_lower c U) as [Hl Hw].
  unfold trim in I. cbn [toLowerCase trimStart] in I. rewrite Hl, Hw in I.
  destruct (trimEnd_first c (toLowerCase r) Hw) as [r' E]. rewrite E in I.
  unfold includes, VALID_CUISINES in I. cbn [existsb String.eqb] in I.
  destruct c as [[] [] [] [] [] [] [] []]; try discriminate U; simpl in I; discriminate.
Qed.

(** X4. The [Cuisine] block lets a non-empty cuisine through exactly when
    its lower-cased, trimmed form is one of the six valid cuisines.
    Lower-casing that form again, as the worker does with the cuisine of
    a queue message before it searches, changes nothing: given that form,
    [searchOpenSearch] with a configured endpoint asks the index for
    exactly it. *)
Theorem enqueued_cuisine_is_searched_as_is (event : Event) (cuisine : string) :
  truthy cuisine = true ->
  let key := trim (toLowerCase cuisine) in
  (check_Cuisine event (Some cuisine) = None <-> In key VALID_CUISINES) /\
  toLowerCase key = key /\
  (forall (W : LF2.Platform) (w : LF2.World),
     present (LF2.OPENSEARCH_ENDPOINT W) = true ->
     snd (LF2.searchOpenSearch W (Some key) w) = logged w [LF2.Search key]).
Proof.
  intros T key. split; [| split].
  - unfold check_Cuisine. simpl. rewrite T. fold key.
    unfold includes, VALID_CUISINES. cbn [existsb In].
    repeat match goal with
    | |- context [String.eqb key ?k] => destruct (String.eqb_spec key k) as [-> | ?]
    end; simpl; split; try tauto; try discriminate; intuition congruence.
  - subst key. now rewrite toLowerCase_trim, toLowerCase_idempotent.
  - intros W w Hcfg. unfold LF2.searchOpenSearch.
    destruct (LF2.OPENSEARCH_ENDPOINT W) as [endpoint |]; [| discriminate].
    simpl in Hcfg. rewrite Hcfg.
    replace (toLowerCase key) with key
      by (subst key; now rewrite toLowerCase_trim, toLowerCase_idempotent).
    unfold bind, settle. rewrite call_run.
    destruct (LF2.opensearch W key) as [[hits |] | e]; reflexivity.
Qed.

End Cuisine.

(** ** LF1: the party size and the time of day, completed *)

Section LeadingInteger.

Import JS LF1 Spec.

Lemma digitsPrefix_numeral_then (d : Decimal.uint) :
  forall acc seen rest, d <> Decimal.Nil \/ seen = true -> noDigitAhead rest = true ->
    digitsPrefix acc seen (NilEmpty.string_of_uint d ++ rest) = Some (numeralValue acc d).
Proof.
  induction d; intros acc seen rest H Hrest; simpl;
    try (apply IHd; [now right | exact Hrest]).
  destruct H as [H | ->]; [contradiction |].
  destruct rest as [| c r]; [reflexivity |]. simpl in *.
  apply negb_true_iff in Hrest. now rewrite Hrest.
Qed.

Lemma trimStart_blank (blank s : string) :
  allChars isWhiteSpace blank = true -> trimStart (blank ++ s) = trimStart s.
Proof.
  induction blank as [| c b IH]; simpl; [reflexivity |]. intros H.
  apply andb_true_iff in H as [Hc Hb]. rewrite Hc. auto.
Qed.

Lemma parseInt10_leading_integer (n : Z) (rest : string) :
  noDigitAhead rest = true -> parseInt10 (showZ n ++ rest) = Some n.
Proof.
  intros Hrest. unfold showZ. destruct n as [| p | p]; simpl.
  - unfold parseInt10. simpl.
    apply (digitsPrefix_numeral_then Decimal.Nil 0 true rest); auto.
  - pose proof (to_uint_not_nil p) as H.
    unfold NilZero.string_of_uint.
    destruct (Pos.to_uint p) eqn:E; try contradiction; rewrite <- E in *;
      (transitivity (digitsPrefix 0 false (NilEmpty.string_of_uint (Pos.to_uint p) ++ rest));
       [rewrite E; reflexivity |
        rewrite digitsPrefix_numeral_then by auto;
        rewrite <- numeralValue_of_uint, DecimalPos.Unsigned.of_to; reflexivity]).
  - pose proof (to_uint_not_nil p) as H.
    unfold NilZero.string_of_uint.
    destruct (Pos.to_uint p) eqn:E; try contradiction; rewrite <- E in *;
      (unfold parseInt10; simpl;
       rewrite digitsPrefix_numeral_then by auto; simpl;
       rewrite <- numeralValue_of_uint, DecimalPos.Unsigned.of_to; reflexivity).
Qed.

Lemma showZ_starts (n : Z) : exists c r, showZ n = String c r /\ isWhiteSpace c = false.
Proof.
  unfold showZ. destruct n as [| p | p]; simpl.
  - eexists _, _. split; reflexivity.
  - pose proof (to_uint_not_nil p) as H. unfold NilZero.string_of_uint.
    destruct (Pos.to_uint p); try contradiction; simpl; eexists _, _; split; reflexivity.
  - eexists _, _. split; reflexivity.
Qed.

(** X5. [parseInt] reads the integer a party size starts with and
    ignores what follows it: a value made of white space, the decimal
    numeral of [n] and any text that does not go on with a digit is
    validated as [n], so it is let through exactly when [1 <= n <= 20]. *)
Theorem party_size_reads_leading_integer (event : Event) (n : Z) (blank rest : string) :
  allChars isWhiteSpace blank = true -> noDigitAhead rest = true ->
  let text := (blank ++ showZ n ++ rest)%string in
  parseInt10 text = Some n /\
  (check_NumberOfPeople event (Some text) = None <-> 1 <= n <= 20).
Proof.
  intros Hblank Hrest text.
  assert (Hparse : parseInt10 text = Some n).
  { unfold parseInt10, text. rewrite trimStart_blank by exact Hblank.
    apply parseInt10_leading_integer. exact Hrest. }
  assert (T : truthy text = true).
  { unfold text. apply truthy_app_r, truthy_app_l, parseInt10_showZ. }
  split; [exact Hparse |].
  rewrite (number_block event text n T Hparse).
  destruct (n <? 1) eqn:E1; [| destruct (n >? 20) eqn:E2].
  - apply Z.ltb_lt in E1. split; [discriminate | lia].
  - apply Z.gtb_lt in E2. split; [discriminate | lia].
  - apply Z.ltb_ge in E1. rewrite Z.gtb_ltb in E2. apply Z.ltb_ge in E2.
    split; [lia | reflexivity].
Qed.

End LeadingInteger.

Section TimeOfDay.

Import JS LF1 Spec.

Lemma toISODate_truthy (t : Z) : truthy (JSDate.toISODate t) = true.
Proof.
  unfold JSDate.toISODate. destruct (JSDate.civilFromDays _) as [[y m] d].
  apply truthy_app_r. reflexivity.
Qed.

(** X6. The [DiningTime] block lets a non-empty value through exactly
    when it is two digits, a colon and two digits, the hour is from 6 to
    23 and, if the [DiningDate] slot is the date of the clock, the hour
    is after the clock's hour, or is the clock's hour with minutes after
    the clock's minutes. Hours are compared before minutes: minutes above
    59 do not carry into the hour. *)
Theorem dining_time_accepted_iff (P : Platform) (event : Event)
  (date : option string) (s : string) :
  truthy s = true ->
  let now := clock P 1 in
  let nowHours := JSDate.getHours (utcOffset P) now in
  let nowMinutes := JSDate.getMinutes (utcOffset P) now in
  check_DiningTime P event date (Some s) = None <->
  exists h1 h2 m1 m2,
    isDigit h1 = true /\ isDigit h2 = true /\ isDigit m1 = true /\ isDigit m2 = true /\
    s = hhmm h1 h2 m1 m2 /\
    6 <= twoDigits h1 h2 <= 23 /\
    (date = Some (JSDate.toISODate now) ->
     nowHours < twoDigits h1 h2 \/
     (twoDigits h1 h2 = nowHours /\ nowMinutes < twoDigits m1 m2)).
Proof.
  intros T now nowHours nowMinutes.
  assert (Hshape : forall h1 h2 m1 m2,
    isDigit h1 = true -> isDigit h2 = true -> isDigit m1 = true -> isDigit m2 = true ->
    s = hhmm h1 h2 m1 m2 ->
    (check_DiningTime P event date (Some s) = None <->
     6 <= twoDigits h1 h2 <= 23 /\
     (date = Some (JSDate.toISODate now) ->
      nowHours < twoDigits h1 h2 \/
      (twoDigits h1 h2 = nowHours /\ nowMinutes < twoDigits m1 m2)))).
  { intros h1 h2 m1 m2 D1 D2 D3 D4 ->.
    destruct (time_block P event date h1 h2 m1 m2 D1 D2 D3 D4) as (a & b & Hblock).
    cbv zeta in Hblock. fold now in Hblock. fold nowHours in Hblock.
    fold nowMinutes in Hblock. rewrite Hblock. clear Hblock.
    destruct (twoDigits h1 h2 <? 6) eqn:E6.
    { apply Z.ltb_lt in E6. simpl. split; [discriminate | lia]. }
    destruct (23 <? twoDigits h1 h2) eqn:E23.
    { apply Z.ltb_lt in E23. simpl. split; [discriminate | lia]. }
    apply Z.ltb_ge in E6, E23. cbn [orb].
    destruct date as [d |].
    2:{ simpl. split; [intros _; split; [lia | discriminate] | reflexivity]. }
    cbn [interp]. destruct (String.eqb d (JSDate.toISODate now)) eqn:Ed.
    - apply String.eqb_eq in Ed. subst d.
      cbn [present]. rewrite toISODate_truthy. cbn [andb].
      destruct (twoDigits h1 h2 <? nowHours) eqn:Elt.
      { apply Z.ltb_lt in Elt. simpl. split; [discriminate |].
        intros [_ H]. specialize (H eq_refl). lia. }
      apply Z.ltb_ge in Elt. cbn [orb].
      destruct (twoDigits h1 h2 =? nowHours) eqn:Eeq.
      + apply Z.eqb_eq in Eeq. cbn [andb].
        destruct (twoDigits m1 m2 <=? nowMinutes) eqn:Ele.
        * apply Z.leb_le in Ele. split; [discriminate |].
          intros [_ H]. specialize (H eq_refl). lia.
        * apply Z.leb_gt in Ele. split; [intros _; split; [lia | intros _; right; lia] | reflexivity].
      + apply Z.eqb_neq in Eeq. cbn [andb].
        split; [intros _; split; [lia | intros _; left; lia] | reflexivity].
    - rewrite andb_false_r. cbn [andb].
      split; [| reflexivity]. intros _. split; [lia |].
      intros [= ->]. rewrite String.eqb_refl in Ed. discriminate. }
  split.
  - intros H. destruct (test timeRegex s) eqn:Hre.
    + apply timeRegex_hhmm in Hre as (h1 & h2 & m1 & m2 & D1 & D2 & D3 & D4 & E).
      exists h1, h2, m1, m2. repeat (split; [assumption |]).
      apply (Hshape h1 h2 m1 m2 D1 D2 D3 D4 E). exact H.
    + unfold check_DiningTime in H. simpl in H. rewrite T, Hre in H. discriminate.
  - intros (h1 & h2 & m1 & m2 & D1 & D2 & D3 & D4 & E & Hh & Hlater).
    apply (Hshape h1 h2 m1 m2 D1 D2 D3 D4 E). auto.
Qed.

End TimeOfDay.

(** ** LF1: the dialog turn as a whole, and the turn after it *)

Section NextTurn.

Import JS LF1 Spec.

Variable P : Platform.

(** A dialog turn either delegates, every slot being valid, or asks again
    for the first invalid slot, the slots checked before it being valid. *)
Lemma dialogTurn_cases (event : Event) :
  (firstInvalid P event = None /\ dialogTurn P event = buildDelegateResponse event /\
   forall f, In f validationOrder -> invalid P event f = false) \/
  (exists field messageContent,
     firstInvalid P event = Some field /\ In field validationOrder /\
     dialogTurn P event = buildElicitSlotResponse event field messageContent /\
     forall f, In f (upTo field validationOrder) -> f <> field ->
       invalid P event f = false).
Proof.
  rewrite dialogTurn_blocks. unfold firstInvalid, invalid, validationOrder.
  cbn [List.filter head upTo String.eqb Ascii.eqb Bool.eqb].
  destruct (check_Location_shape
              (getSlotValue (intent_slots (intent (sessionState event))) "Location"))
    as [m1 S1].
  destruct (check_Cuisine_shape
              (getSlotValue (intent_slots (intent (sessionState event))) "Cuisine"))
    as [m2 S2].
  destruct (check_NumberOfPeople_shape
              (getSlotValue (intent_slots (intent (sessionState event))) "NumberOfPeople"))
    as [m3 S3].
  destruct (check_DiningDate_shape P
              (getSlotValue (intent_slots (intent (sessionState event))) "DiningDate"))
    as [m4 S4].
  destruct (check_DiningTime_shape P
              (getSlotValue (intent_slots (intent (sessionState event))) "DiningDate")
              (getSlotValue (intent_slots (intent (sessionState event))) "DiningTime"))
    as [m5 S5].
  destruct (check_Email_shape
              (getSlotValue (intent_slots (intent (sessionState event))) "Email"))
    as [m6 S6].
  assert (V1 : verdict P event "Location" = option_map (buildElicitSlotResponse event "Location") m1) by apply S1.
  assert (V2 : verdict P event "Cuisine" = option_map (buildElicitSlotResponse event "Cuisine") m2) by apply S2.
  assert (V3 : verdict P event "NumberOfPeople" = option_map (buildElicitSlotResponse event "NumberOfPeople") m3) by apply S3.
  assert (V4 : verdict P event "DiningDate" = option_map (buildElicitSlotResponse event "DiningDate") m4) by apply S4.
  assert (V5 : verdict P event "DiningTime" = option_map (buildElicitSlotResponse event "DiningTime") m5) by apply S5.
  assert (V6 : verdict P event "Email" = option_map (buildElicitSlotResponse event "Email") m6) by apply S6.
  rewrite V1, V2, V3, V4, V5, V6. clear S1 S2 S3 S4 S5 S6.
  destruct m1 as [c1 |]; cbn [option_map orReturn head].
  { right. exists "Location", c1. simpl. intuition congruence. }
  destruct m2 as [c2 |]; cbn [option_map orReturn head].
  { right. exists "Cuisine", c2. simpl.
    intuition (subst; try congruence; rewrite ?V1; reflexivity). }
  destruct m3 as [c3 |]; cbn [option_map orReturn head].
  { right. exists "NumberOfPeople", c3. simpl.
    intuition (subst; try congruence; rewrite ?V1, ?V2; reflexivity). }
  destruct m4 as [c4 |]; cbn [option_map orReturn head].
  { right. exists "DiningDate", c4. simpl.
    intuition (subst; try congruence; rewrite ?V1, ?V2, ?V3; reflexivity). }
  destruct m5 as [c5 |]; cbn [option_map orReturn head].
  { right. exists "DiningTime", c5. simpl.
    intuition (subst; try congruence; rewrite ?V1, ?V2, ?V3, ?V4; reflexivity). }
  destruct m6 as [c6 |]; cbn [option_map orReturn head].
  { right. exists "Email", c6. simpl.
    intuition (subst; try congruence; rewrite ?V1, ?V2, ?V3, ?V4, ?V5; reflexivity). }
  left. simpl. intuition (subst; rewrite ?V1, ?V2, ?V3, ?V4, ?V5, ?V6; reflexivity).
Qed.

Lemma absent_is_valid (Q : Platform) (event : Event) (f : string) :
  getSlotValue (intent_slots (intent (sessionState event))) f = None ->
  invalid Q event f = false.
Proof.
  intros H. unfold invalid, verdict.
  repeat match goal with
  | |- context [String.eqb f ?k] => destruct (String.eqb_spec f k) as [-> | ?]
  end; rewrite ?H; reflexivity.
Qed.

Lemma getSlotValue_cleared (slots : Slots) (field f : string) :
  getSlotValue (<[ field := None ]> slots) f =
  if String.eqb field f then None else getSlotValue slots f.
Proof.
  unfold getSlotValue. destruct (String.eqb_spec field f) as [-> | Hne].
  - now rewrite lookup_insert_eq.
  - now rewrite lookup_insert_ne.
Qed.

(** Whether a slot is invalid depends on the values of the slots only:
    its own and, for the time, the date. *)
Lemma invalid_agree (event event' : Event) (f : string) :
  getSlotValue (intent_slots (intent (sessionState event'))) f =
  getSlotValue (intent_slots (intent (sessionState event))) f ->
  (f = "DiningTime" ->
   getSlotValue (intent_slots (intent (sessionState event'))) "DiningDate" =
   getSlotValue (intent_slots (intent (sessionState event))) "DiningDate") ->
  invalid P event' f = invalid P event f.
Proof.
  intros H Hd. unfold invalid, verdict.
  repeat match goal with
  | |- context [String.eqb f ?k] => destruct (String.eqb_spec f k) as [-> | ?]
  end; try reflexivity; rewrite ?H, ?Hd by reflexivity.
  - destruct (check_Location_shape (getSlotValue (intent_slots (intent (sessionState event))) "Location")) as [m S].
    rewrite !S. now destruct m.
  - destruct (check_Cuisine_shape (getSlotValue (intent_slots (intent (sessionState event))) "Cuisine")) as [m S].
    rewrite !S. now destruct m.
  - destruct (check_NumberOfPeople_shape (getSlotValue (intent_slots (intent (sessionState event))) "NumberOfPeople")) as [m S].
    rewrite !S. now destruct m.
  - destruct (check_DiningDate_shape P (getSlotValue (intent_slots (intent (sessionState event))) "DiningDate")) as [m S].
    rewrite !S. now destruct m.
  - destruct (check_DiningTime_shape P (getSlotValue (intent_slots (intent (sessionState event))) "DiningDate")
       (getSlotValue (intent_slots (intent (sessionState event))) "DiningTime")) as [m S].
    rewrite !S. now destruct m.
  - destruct (check_Email_shape (getSlotValue (intent_slots (intent (sessionState event))) "Email")) as [m S].
    rewrite !S. now destruct m.
Qed.

(** X8. After a turn that asks again for a slot, the slots of the
    response read as absent for that slot; validating them again, the
    slots checked up to the cleared one are valid and none of them is
    asked for; the cleared slot itself is not asked for again on any
    platform, whatever the clock. *)
Theorem cleared_slot_is_not_asked_again (event : Event) (field : string) :
  firstInvalid P event = Some field ->
  let next := withSlots event (intent_slots (resp_intent (dialogTurn P event))) in
  getSlotValue (intent_slots (intent (sessionState next))) field = None /\
  (forall f, In f (upTo field validationOrder) ->
     invalid P next f = false /\ dialogAction (dialogTurn P next) <> ElicitSlot f) /\
  (forall P', dialogAction (dialogTurn P' next) <> ElicitSlot field).
Proof.
  intros Hf next.
  destruct (dialogTurn_cases event)
    as [(Hn & _) | (field' & m & Hf' & Hin & Hr & Hbefore)]; [congruence |].
  assert (field' = field) by congruence. subst field'.
  assert (Hslots : forall f,
    getSlotValue (intent_slots (intent (sessionState next))) f =
    if String.eqb field f then None
    else getSlotValue (intent_slots (intent (sessionState event))) f).
  { intros f. subst next. rewrite Hr. cbn. apply getSlotValue_cleared. }
  assert (Hgone : getSlotValue (intent_slots (intent (sessionState next))) field = None).
  { rewrite Hslots, String.eqb_refl. reflexivity. }
  assert (Hvalid : forall f, In f (upTo field validationOrder) -> invalid P next f = false).
  { intros f Hfin. destruct (String.eqb_spec field f) as [<- | Hne].
    - now apply absent_is_valid.
    - rewrite (invalid_agree event next f).
      + apply Hbefore; [exact Hfin | congruence].
      + rewrite Hslots. destruct (String.eqb_spec field f); [contradiction | reflexivity].
      + intros ->. rewrite Hslots.
        destruct (String.eqb_spec field "DiningDate") as [-> | ?]; [| reflexivity].
        exfalso. simpl in Hfin. intuition discriminate. }
  split; [exact Hgone |]. split.
  - intros f Hfin. split; [now apply Hvalid |].
    intros Hel. apply elicited_is_invalid in Hel. rewrite Hvalid in Hel by exact Hfin.
    discriminate.
  - intros P' Hel. apply elicited_is_invalid in Hel.
    rewrite (absent_is_valid P' next field Hgone) in Hel. discriminate.
Qed.

End NextTurn.

(** ** LF1: the dialog turn against the rules of the specification *)

Section Rules.

Import JS LF1 Spec.

Variable P : Platform.


(** The [Location] block rejects a value exactly when its key is neither
    a key of the alias table nor an inherited name. *)
Lemma location_block_rejects (event : Event) (s : string) :
  truthy s = true ->
  (check_Location event (Some s) <> None <->
   ~ In (caseless s) aliasKeys /\ includes Object_prototype (caseless s) = false).
Proof.
  intros T. unfold check_Location. cbn [present]. rewrite T.
  pose proof (normalizeLocation_cases s T) as H. cbv zeta in H. fold (caseless s) in H.
  pose proof (ownProperty_aliasKeys (caseless s)) as K.
  destruct (ownProperty LOCATION_ALIASES (caseless s)) as [canonical |] eqn:E.
  - assert (Hc : truthyValue (normalizeLocation (Some s)) = true).
    { pose proof (normalizeLocation_key s T) as Hk. fold (caseless s) in Hk.
      unfold getProperty in Hk. rewrite E in Hk. unfold orValue in Hk.
      rewrite H in Hk.
      destruct (truthyValue (Str canonical)) eqn:Tc; [rewrite H; exact Tc | discriminate]. }
    rewrite Hc. cbn [negb]. split; [intros C; now contradiction C |].
    intros [Hn _]. exfalso. apply Hn, K. discriminate.
  - destruct (includes Object_prototype (caseless s)) eqn:I; rewrite H; cbn [truthyValue negb].
    + split; [intros C; now contradiction C | intros [_ C]; discriminate].
    + split; [| discriminate]. intros _. split; [| reflexivity].
      intros Hin. apply K in Hin. now apply Hin.
Qed.

Lemma caseless_noCapital (s : string) : noCapital (caseless s) = true.
Proof. apply trimEnd_noCapital, trimStart_noCapital, toLowerCase_noCapital. Qed.

Lemma invalid_true (event : Event) (f : string) :
  invalid P event f = true <-> verdict P event f <> None.
Proof. unfold invalid. destruct (verdict P event f); split; congruence. Qed.

Lemma location_rule_agrees (event : Event) :
  noInheritedName event ->
  (invalid P event "Location" = true <-> breaksRule P event "Location").
Proof.
  intros Hplain. rewrite invalid_true. unfold breaksRule, rule.
  cbn [String.eqb Ascii.eqb Bool.eqb]. change (verdict P event "Location") with
    (check_Location event (getSlotValue (intent_slots (intent (sessionState event))) "Location")).
  destruct (getSlotValue (intent_slots (intent (sessionState event))) "Location")
    as [s |] eqn:Hs.
  - pose proof (getSlotValue_truthy _ _ _ Hs) as T.
    rewrite (location_block_rejects event s T). unfold rule_Location. split.
    + intros [Hn _]. exists s. auto.
    + intros (s' & [= <-] & Hn). split; [exact Hn |].
      destruct (includes Object_prototype (caseless s)) eqn:I; [| reflexivity].
      destruct (Hplain s Hs) as [H1 H2].
      destruct (inherited_lower_case_keys _ (caseless_noCapital s) I); contradiction.
  - split; [intros C; now contradiction C | intros (s & C & _); discriminate].
Qed.

Lemma cuisine_rule_agrees (event : Event) :
  invalid P event "Cuisine" = true <-> breaksRule P event "Cuisine".
Proof.
  rewrite invalid_true. unfold breaksRule, rule. cbn [String.eqb Ascii.eqb Bool.eqb].
  change (verdict P event "Cuisine") with
    (check_Cuisine event (getSlotValue (intent_slots (intent (sessionState event))) "Cuisine")).
  destruct (getSlotValue (intent_slots (intent (sessionState event))) "Cuisine")
    as [s |] eqn:Hs.
  2:{ split; [intros C; now contradiction C | intros (s & C & _); discriminate]. }
  pose proof (getSlotValue_truthy _ _ _ Hs) as T.
  unfold check_Cuisine. cbn [present interp]. rewrite T. fold (caseless s).
  unfold rule_Cuisine.
  assert (Hin : includes VALID_CUISINES (caseless s) = true <-> In (caseless s) VALID_CUISINES).
  { unfold includes. rewrite existsb_exists. split.
    - intros (x & Hx & E). apply String.eqb_eq in E. now subst x.
    - intros H. exists (caseless s). split; [exact H | apply String.eqb_refl]. }
  destruct (includes VALID_CUISINES (caseless s)); cbn [negb].
  - split; [intros C; now contradiction C |].
    intros (s' & [= <-] & Hn). exfalso. apply Hn, Hin. reflexivity.
  - split; [| discriminate]. intros _. exists s. split; [reflexivity |].
    intros H. apply Hin in H. discriminate.
Qed.

Lemma number_rule_agrees (event : Event) :
  invalid P event "NumberOfPeople" = true <-> breaksRule P event "NumberOfPeople".
Proof.
  rewrite invalid_true. unfold breaksRule, rule. cbn [String.eqb Ascii.eqb Bool.eqb].
  rewrite verdict_NumberOfPeople.
  destruct (getSlotValue (intent_slots (intent (sessionState event))) "NumberOfPeople")
    as [s |] eqn:Hs.
  2:{ split; [intros C; now contradiction C | intros (s & C & _); discriminate]. }
  pose proof (getSlotValue_truthy _ _ _ Hs) as T.
  unfold check_NumberOfPeople. cbn [present interp]. rewrite T.
  unfold rule_NumberOfPeople.
  destruct (parseInt10 s) as [n |] eqn:Ep.
  - destruct (n <? 1) eqn:E1; [| destruct (n >? 20) eqn:E2].
    + apply Z.ltb_lt in E1. split; [| discriminate]. intros _. exists s.
      split; [reflexivity |]. intros (n' & Hq & H). rewrite Ep in Hq.
      injection Hq as <-. lia.
    + apply Z.gtb_lt in E2. split; [| discriminate]. intros _. exists s.
      split; [reflexivity |]. intros (n' & Hq & H). rewrite Ep in Hq.
      injection Hq as <-. lia.
    + apply Z.ltb_ge in E1. rewrite Z.gtb_ltb in E2. apply Z.ltb_ge in E2.
      split; [intros C; now contradiction C |].
      intros (s' & [= <-] & Hn). exfalso. apply Hn. exists n. split; [exact Ep | lia].
  - split; [| discriminate]. intros _. exists s. split; [reflexivity |].
    intros (n & C & _). congruence.
Qed.

Lemma date_rule_agrees (event : Event) :
  invalid P event "DiningDate" = true <-> breaksRule P event "DiningDate".
Proof.
  rewrite invalid_true. unfold breaksRule, rule. cbn [String.eqb Ascii.eqb Bool.eqb].
  rewrite verdict_DiningDate.
  destruct (getSlotValue (intent_slots (intent (sessionState event))) "DiningDate")
    as [s |] eqn:Hs.
  2:{ split; [intros C; now contradiction C | intros (s & C & _); discriminate]. }
  pose proof (getSlotValue_truthy _ _ _ Hs) as T.
  destruct (date_block P event s T) as (m1 & m2 & m3 & ->).
  unfold rule_DiningDate, calendarDate, startOfToday.
  destruct (Date_parse P (s ++ "T00:00:00")) as [t |] eqn:Ep.
  - cbv zeta. unfold JSDate.addDays.
    destruct (t <? _) eqn:E1; [| destruct (t >? _) eqn:E2].
    + apply Z.ltb_lt in E1. split; [| discriminate]. intros _. exists s.
      split; [reflexivity |]. intros (t' & Hq & H). rewrite Ep in Hq.
      injection Hq as <-. lia.
    + apply Z.gtb_lt in E2. split; [| discriminate]. intros _. exists s.
      split; [reflexivity |]. intros (t' & Hq & H). rewrite Ep in Hq.
      injection Hq as <-. lia.
    + apply Z.ltb_ge in E1. rewrite Z.gtb_ltb in E2. apply Z.ltb_ge in E2.
      split; [intros C; now contradiction C |].
      intros (s' & [= <-] & Hn). exfalso. apply Hn. exists t. split; [exact Ep | lia].
  - split; [| discriminate]. intros _. exists s. split; [reflexivity |].
    intros (t & C & _). congruence.
Qed.

Lemma email_rule_agrees (event : Event) :
  invalid P event "Email" = true <-> breaksRule P event "Email".
Proof.
  rewrite invalid_true. unfold breaksRule, rule. cbn [String.eqb Ascii.eqb Bool.eqb].
  change (verdict P event "Email") with
    (check_Email event (getSlotValue (intent_slots (intent (sessionState event))) "Email")).
  destruct (getSlotValue (intent_slots (intent (sessionState event))) "Email")
    as [s |] eqn:Hs.
  2:{ split; [intros C; now contradiction C | intros (s & C & _); discriminate]. }
  pose proof (getSlotValue_truthy _ _ _ Hs) as T.
  unfold check_Email. cbn [present interp]. rewrite T.
  pose proof (emailRegex_parts s) as Hre. unfold rule_Email.
  destruct (test emailRegex s); cbn [negb].
  - split; [intros C; now contradiction C |].
    intros (s' & [= <-] & Hn). exfalso. apply Hn, Hre. reflexivity.
  - split; [| discriminate]. intros _. exists s. split; [reflexivity |].
    intros H. apply Hre in H. discriminate.
Qed.

Lemma today_test (event : Event) (date : option string) :
  date = getSlotValue (intent_slots (intent (sessionState event))) "DiningDate" ->
  present date && String.eqb (interp date) (JSDate.toISODate (clock P 1)) = true <->
  date = Some (JSDate.toISODate (clock P 1)).
Proof.
  intros Hd. destruct date as [d |].
  - symmetry in Hd. pose proof (getSlotValue_truthy _ _ _ Hd) as T.
    cbn [present interp]. rewrite T. cbn [andb]. rewrite String.eqb_eq.
    split; congruence.
  - cbn. split; discriminate.
Qed.

Lemma time_rule_agrees (event : Event) :
  datesAgree P event ->
  (invalid P event "DiningTime" = true <-> breaksRule P event "DiningTime").
Proof.
  intros Hagree. rewrite invalid_true, verdict_DiningTime.
  unfold breaksRule, rule. cbn [String.eqb Ascii.eqb Bool.eqb].
  unfold datesAgree in Hagree. cbv zeta in Hagree.
  set (date := getSlotValue (intent_slots (intent (sessionState event))) "DiningDate") in *.
  destruct (getSlotValue (intent_slots (intent (sessionState event))) "DiningTime")
    as [s |] eqn:Hs.
  2:{ split; [intros C; now contradiction C | intros (s & C & _); discriminate]. }
  pose proof (getSlotValue_truthy _ _ _ Hs) as T.
  unfold rule_DiningTime.
  destruct (test timeRegex s) eqn:Hre.
  - apply timeRegex_hhmm in Hre as (h1 & h2 & m1 & m2 & D1 & D2 & D3 & D4 & ->).
    destruct (time_block P event date h1 h2 m1 m2 D1 D2 D3 D4) as (a & b & Hblock).
    cbv zeta in Hblock. rewrite Hblock. clear Hblock.
    pose proof (today_test event date eq_refl) as Htest.
    assert (Hsame : forall a1 a2 b1 b2,
              hhmm h1 h2 m1 m2 = hhmm a1 a2 b1 b2 ->
              twoDigits a1 a2 = twoDigits h1 h2 /\ twoDigits b1 b2 = twoDigits m1 m2).
    { intros a1 a2 b1 b2 [= -> -> -> ->]. auto. }
    destruct ((twoDigits h1 h2 <? 6) || (23 <? twoDigits h1 h2)) eqn:Eh.
    + split; [| discriminate]. intros _. exists (hhmm h1 h2 m1 m2).
      split; [reflexivity |].
      intros (a1 & a2 & b1 & b2 & _ & _ & _ & _ & E & Hr & _).
      apply Hsame in E as [E1 _]. rewrite E1 in Hr.
      apply orb_true_iff in Eh as [Eh | Eh]; apply Z.ltb_lt in Eh; lia.
    + apply orb_false_iff in Eh as [E6 E23]. apply Z.ltb_ge in E6, E23.
      destruct (present date && String.eqb (interp date) (JSDate.toISODate (clock P 1)))
        eqn:Et; cbn [andb].
      * assert (Htoday : isToday P date) by (apply Hagree, Htest; reflexivity).
        destruct ((twoDigits h1 h2 <? _) || _) eqn:Ep.
        -- split; [| discriminate]. intros _. exists (hhmm h1 h2 m1 m2).
           split; [reflexivity |].
           intros (a1 & a2 & b1 & b2 & _ & _ & _ & _ & E & _ & Hl).
           apply Hsame in E as [E1 E2]. specialize (Hl Htoday).
           unfold laterThanNow in Hl. cbv zeta in Hl. rewrite E1, E2 in Hl.
           apply orb_true_iff in Ep as [Ep | Ep].
           ++ apply Z.ltb_lt in Ep. lia.
           ++ apply andb_true_iff in Ep as [Ea Eb].
              apply Z.eqb_eq in Ea. apply Z.leb_le in Eb. lia.
        -- split; [intros C; now contradiction C |].
           intros (s' & [= <-] & Hn). exfalso. apply Hn.
           exists h1, h2, m1, m2. repeat (split; [assumption || reflexivity |]).
           split; [lia |]. intros _. unfold laterThanNow. cbv zeta.
           apply orb_false_iff in Ep as [Ea Eb]. apply Z.ltb_ge in Ea.
           apply andb_false_iff in Eb as [Eb | Eb].
           ++ apply Z.eqb_neq in Eb. lia.
           ++ apply Z.leb_gt in Eb. lia.
      * split; [intros C; now contradiction C |].
        intros (s' & [= <-] & Hn). exfalso. apply Hn.
        exists h1, h2, m1, m2. repeat (split; [assumption || reflexivity |]).
        split; [lia |]. intros Htoday. apply Hagree, Htest in Htoday. congruence.
  - assert (Hblock : check_DiningTime P event date (Some s) <> None).
    { unfold check_DiningTime. cbn [present interp]. rewrite T, Hre. discriminate. }
    split; [| intros _; exact Hblock]. intros _. exists s. split; [reflexivity |].
    intros (h1 & h2 & m1 & m2 & D1 & D2 & D3 & D4 & E & _).
    assert (test timeRegex s = true) by (apply timeRegex_hhmm; eauto 10).
    congruence.
Qed.

(** Of two slots in validation order, one comes first. *)
Lemma validationOrder_linear (f g : string) :
  In f validationOrder -> In g validationOrder ->
  f = g \/ (In f (upTo g validationOrder) /\ f <> g) \/
  (In g (upTo f validationOrder) /\ g <> f).
Proof.
  unfold validationOrder. cbn [In].
  intros Hf Hg.
  repeat (destruct Hf as [<- | Hf]); try contradiction;
  repeat (destruct Hg as [<- | Hg]); try contradiction;
    first [ left; reflexivity
          | right; left; split; [vm_compute; tauto | discriminate]
          | right; right; split; [vm_compute; tauto | discriminate] ].
Qed.

(** Where the location names no inherited member and the date strings
    agree on today, a block rejects its slot exactly when the slot breaks
    its rule. *)
Lemma rules_agree (event : Event) (f : string) :
  noInheritedName event -> datesAgree P event -> In f validationOrder ->
  (invalid P event f = true <-> breaksRule P event f).
Proof.
  intros Hl Hd Hf. unfold validationOrder in Hf. cbn [In] in Hf.
  destruct Hf as [<- | [<- | [<- | [<- | [<- | [<- | []]]]]]].
  - now apply location_rule_agrees.
  - apply cuisine_rule_agrees.
  - apply number_rule_agrees.
  - apply date_rule_agrees.
  - now apply time_rule_agrees.
  - apply email_rule_agrees.
Qed.

Lemma first_to_break_is_first_rejected (event : Event) (field : string) :
  noInheritedName event -> datesAgree P event ->
  firstToBreak P event field -> firstInvalid P event = Some field.
Proof.
  intros Hl Hd (Hin & Hbreak & Hbefore).
  assert (Hinv : invalid P event field = true) by now apply rules_agree.
  destruct (dialogTurn_cases P event)
    as [(_ & _ & Hv) | (field' & m & Hf & Hin' & Hr & Hbefore')].
  { rewrite Hv in Hinv by exact Hin. discriminate. }
  assert (Hinv' : invalid P event field' = true).
  { apply elicited_is_invalid. rewrite Hr. reflexivity. }
  destruct (validationOrder_linear field field' Hin Hin') as [-> | [[H N] | [H N]]].
  - exact Hf.
  - rewrite (Hbefore' field H N) in Hinv. discriminate.
  - exfalso. apply (Hbefore field' H N). now apply rules_agree.
Qed.


End Rules.

Section RulesAtWork.

Import JS LF1 Spec.

Lemma toISODate_day (t : Z) :
  JSDate.toISODate t = JSDate.toISODate (t / JSDate.msPerDay * JSDate.msPerDay).
Proof.
  unfold JSDate.toISODate. rewrite Z.div_mul by discriminate. reflexivity.
Qed.

(** In UTC the date strings agree with the local day on what today is,
    when the two readings of the clock fall on one day, the parser reads
    the clock's ISO date as the midnight of its day, and the date slot is
    the ISO date of the time it parses to. *)
Lemma utc_dates_agree (P : Platform) (event : Event) :
  utcOffset P = 0 ->
  JSDate.localDay 0 (clock P 1) = JSDate.localDay 0 (clock P 0) ->
  calendarDate P (JSDate.toISODate (clock P 1))
    = Some (JSDate.midnightOf 0 (JSDate.localDay 0 (clock P 1))) ->
  (forall d t,
     getSlotValue (intent_slots (intent (sessionState event))) "DiningDate" = Some d ->
     calendarDate P d = Some t -> d = JSDate.toISODate t) ->
  datesAgree P event.
Proof.
  intros Hutc Hday Hparse Hiso. unfold datesAgree. cbv zeta.
  assert (Hmid : forall day, JSDate.localDay 0 (JSDate.midnightOf 0 day) = day).
  { intros day. unfold JSDate.localDay, JSDate.midnightOf.
    replace (day * JSDate.msPerDay - 0 + 0) with (day * JSDate.msPerDay) by lia.
    apply Z.div_mul. discriminate. }
  split.
  - intros E.
    exists (JSDate.toISODate (clock P 1)),
           (JSDate.midnightOf 0 (JSDate.localDay 0 (clock P 1))).
    split; [exact E |]. split; [exact Hparse |].
    rewrite Hutc, Hmid. exact Hday.
  - intros (d & t & E & Hc & Hl). rewrite E. f_equal.
    rewrite (Hiso d t E Hc). rewrite Hutc in Hl.
    rewrite (toISODate_day t), (toISODate_day (clock P 1)).
    unfold JSDate.localDay in Hl, Hday. rewrite !Z.add_0_r in Hl, Hday.
    now rewrite Hl, Hday.
Qed.

(** The sample platforms: in UTC the date strings agree on today; five
    hours behind UTC at 21:00 they do not. *)
Lemma utc_today : isToday Samples.lexPlatform (Some "2026-02-21").
Proof.
  exists "2026-02-21", (20505 * JSDate.msPerDay).
  split; [reflexivity |]. split; vm_compute; reflexivity.
Qed.

Lemma utc_tomorrow : ~ isToday Samples.lexPlatform (Some "2026-02-22").
Proof.
  intros (d & t & [= <-] & Hc & Hday). vm_compute in Hc. injection Hc as <-.
  vm_compute in Hday. discriminate.
Qed.

Lemma eastern_today : isToday Samples.easternPlatform (Some "2026-02-21").
Proof.
  exists "2026-02-21", (20505 * JSDate.msPerDay + 18000000).
  split; [reflexivity |]. split; vm_compute; reflexivity.
Qed.

Lemma eastern_tomorrow : ~ isToday Samples.easternPlatform (Some "2026-02-22").
Proof.
  intros (d & t & [= <-] & Hc & Hday). vm_compute in Hc. injection Hc as <-.
  vm_compute in Hday. discriminate.
Qed.

Lemma utc_datesAgree (slots : Slots) :
  getSlotValue slots "DiningDate" = Some "2026-02-21" \/
  getSlotValue slots "DiningDate" = Some "2026-02-22" ->
  datesAgree Samples.lexPlatform (Samples.dialogEvent slots).
Proof.
  unfold datesAgree. cbn [Samples.dialogEvent Samples.eventWith sessionState intent
    intent_slots]. intros [-> | ->].
  - split; [intros _; exact utc_today | intros _; vm_compute; reflexivity].
  - split; [intros H; vm_compute in H; discriminate | intros H; now apply utc_tomorrow in H].
Qed.

Lemma nyc_noInheritedName (slots : Slots) :
  getSlotValue slots "Location" = Some "NYC" ->
  noInheritedName (Samples.dialogEvent slots).
Proof.
  intros H s. cbn [Samples.dialogEvent Samples.eventWith sessionState intent intent_slots].
  rewrite H. intros [= <-]. split; vm_compute; discriminate.
Qed.

Lemma largeParty_firstToBreak :
  firstToBreak Samples.lexPlatform (Samples.dialogEvent Samples.largePartySlots)
    "NumberOfPeople".
Proof.
  split; [vm_compute; tauto |]. split.
  - apply number_rule_agrees. vm_compute. reflexivity.
  - intros f Hf Hne. vm_compute in Hf. destruct Hf as [<- | [<- | [<- | []]]].
    + intros B. apply location_rule_agrees in B; [vm_compute in B; discriminate |].
      now apply nyc_noInheritedName.
    + intros B. apply cuisine_rule_agrees in B. vm_compute in B. discriminate.
    + now contradiction Hne.
Qed.

Lemma eastern_tonight_firstToBreak :
  firstToBreak Samples.easternPlatform (Samples.dialogEvent Samples.tonightSlots)
    "DiningTime".
Proof.
  split; [vm_compute; tauto |]. split.
  - exists "19:30". split; [vm_compute; reflexivity |].
    unfold rule. cbn [String.eqb Ascii.eqb Bool.eqb].
    replace (getSlotValue _ "DiningDate") with (Some "2026-02-21")
      by (vm_compute; reflexivity).
    intros (h1 & h2 & m1 & m2 & _ & _ & _ & _ & [= <- <- <- <-] & _ & Hl).
    specialize (Hl eastern_today). vm_compute in Hl.
    destruct Hl as [Hl | [Hl _]]; discriminate.
  - intros f Hf Hne. vm_compute in Hf.
    destruct Hf as [<- | [<- | [<- | [<- | [<- | []]]]]].
    + intros B. apply location_rule_agrees in B; [vm_compute in B; discriminate |].
      now apply nyc_noInheritedName.
    + intros B. apply cuisine_rule_agrees in B. vm_compute in B. discriminate.
    + intros B. apply number_rule_agrees in B. vm_compute in B. discriminate.
    + intros B. apply date_rule_agrees in B. vm_compute in B. discriminate.
    + now contradiction Hne.
Qed.

Lemma inheritedName_firstToBreak (Q : Platform) :
  firstToBreak Q (Samples.dialogEvent Samples.inheritedNameSlots) "Location".
Proof.
  split; [vm_compute; tauto |]. split.
  - exists "constructor". split; [vm_compute; reflexivity |].
    unfold rule, rule_Location. cbn [String.eqb Ascii.eqb Bool.eqb].
    vm_compute. intuition discriminate.
  - intros f Hf Hne. vm_compute in Hf. destruct Hf as [<- | []]. now contradiction Hne.
Qed.

(** C4. Where the rules of the six fields and the validation blocks
    agree, a dialog turn in which some present field breaks its rule asks
    again for the first such field in validation order: that slot is set
    to [null], every other slot is as in the event, the intent stays
    [InProgress], and the fields after it are not validated (an event
    that agrees on the slots up to that one gets the same action and
    message). They agree unless the location names a member that the
    alias table inherits, or the date strings disagree with the local day
    on what today is. With the location ["constructor"], which is not in
    the table, and a party of 25, the first field to break its rule is
    [Location], and the turn asks for [NumberOfPeople] and keeps the
    location; five hours behind UTC at 21:00, a table at 19:30 today is
    the first field to break its rule, and the turn delegates. *)
Theorem first_field_to_break_its_rule_is_elicited :
  (forall (P : Platform) (event : Event) (field : string),
     noInheritedName event -> datesAgree P event ->
     firstToBreak P event field ->
     let r := dialogTurn P event in
     dialogAction r = ElicitSlot field /\
     intent_slots (resp_intent r) !! field = Some None /\
     (forall other, other <> field ->
        intent_slots (resp_intent r) !! other =
        intent_slots (intent (sessionState event)) !! other) /\
     intent_state (resp_intent r) = "InProgress" /\
     (forall event',
        (forall f, In f (upTo field validationOrder) ->
           getSlotValue (intent_slots (intent (sessionState event'))) f =
           getSlotValue (intent_slots (intent (sessionState event))) f) ->
        dialogAction (dialogTurn P event') = ElicitSlot field /\
        messages (dialogTurn P event') = messages r)) /\
  (forall P : Platform,
   let event := Samples.dialogEvent Samples.inheritedNameSlots in
   firstToBreak P event "Location" /\
   dialogAction (dialogTurn P event) = ElicitSlot "NumberOfPeople" /\
   intent_slots (resp_intent (dialogTurn P event)) !! "Location"
     = Some (Samples.filled "constructor")) /\
  (let event := Samples.dialogEvent Samples.tonightSlots in
   firstToBreak Samples.easternPlatform event "DiningTime" /\
   dialogTurn Samples.easternPlatform event = buildDelegateResponse event).
Proof.
  split; [| split].
  - intros P event field Hl Hd Hfirst.
    apply (first_rejected_slot_is_elicited P event field).
    now apply first_to_break_is_first_rejected.
  - intros P. split; [apply inheritedName_firstToBreak |]. split; vm_compute; reflexivity.
  - split; [exact eastern_tonight_firstToBreak | vm_compute; reflexivity].
Qed.

(** C7. The [DiningTime] block rejects a value that is not two digits, a
    colon and two digits, and an hour below 6 or above 23. It rejects a
    time that is not later than the wall clock when the [DiningDate] slot
    is the date of the clock's ISO string, which is the UTC date; so it
    rejects the times of today that are not later than now on a platform
    where that date and the local day agree on what today is, as they do
    in UTC for a date slot in ISO form while the clock stays on one day.
    They need not agree: today's date and the hour and minute come from one reading
    of the clock that the date block reads, but the date is taken in UTC
    and the hour and minute, like the day of the date block, in local
    time. Five hours behind UTC at 21:00, a table at 19:30 today passes
    the date block and the time block and the turn delegates, and a table
    at 19:30 tomorrow is asked again. *)
Theorem dining_time_today_is_the_utc_date :
  (forall (P : Platform) (event : Event) (s : string),
     getSlotValue (intent_slots (intent (sessionState event))) "DiningTime" = Some s ->
     let date := getSlotValue (intent_slots (intent (sessionState event))) "DiningDate" in
     let block := check_DiningTime P event date (Some s) in
     let now := clock P 1 in
     (test timeRegex s = false -> elicits "DiningTime" event block) /\
     (test timeRegex s = true <->
        exists h1 h2 m1 m2,
          isDigit h1 = true /\ isDigit h2 = true /\ isDigit m1 = true /\
          isDigit m2 = true /\ s = hhmm h1 h2 m1 m2) /\
     (forall h1 h2 m1 m2,
        isDigit h1 = true -> isDigit h2 = true -> isDigit m1 = true -> isDigit m2 = true ->
        s = hhmm h1 h2 m1 m2 ->
        (twoDigits h1 h2 < 6 \/ 23 < twoDigits h1 h2 -> elicits "DiningTime" event block) /\
        (date = Some (JSDate.toISODate now) ->
         ~ laterThanNow P (twoDigits h1 h2) (twoDigits m1 m2) ->
         elicits "DiningTime" event block) /\
        (datesAgree P event -> isToday P date ->
         ~ laterThanNow P (twoDigits h1 h2) (twoDigits m1 m2) ->
         elicits "DiningTime" event block)) /\
     (elicits "DiningTime" event block ->
      invalid P event "Location" = false -> invalid P event "Cuisine" = false ->
      invalid P event "NumberOfPeople" = false -> invalid P event "DiningDate" = false ->
      dialogAction (dialogTurn P event) = ElicitSlot "DiningTime") /\
     (forall P', utcOffset P' = utcOffset P ->
        (clock P' 1%nat = clock P 1%nat ->
           check_DiningTime P' event date (Some s) = block) /\
        (clock P' 0%nat = clock P 0%nat -> Date_parse P' = Date_parse P ->
           check_DiningDate P' event date = check_DiningDate P event date))) /\
  (forall (P : Platform) (event : Event),
     utcOffset P = 0 ->
     JSDate.localDay 0 (clock P 1) = JSDate.localDay 0 (clock P 0) ->
     calendarDate P (JSDate.toISODate (clock P 1))
       = Some (JSDate.midnightOf 0 (JSDate.localDay 0 (clock P 1))) ->
     (forall d t,
        getSlotValue (intent_slots (intent (sessionState event))) "DiningDate" = Some d ->
        calendarDate P d = Some t -> d = JSDate.toISODate t) ->
     datesAgree P event) /\
  (let event := Samples.dialogEvent Samples.tonightSlots in
   isToday Samples.easternPlatform (Some "2026-02-21") /\
   check_DiningDate Samples.easternPlatform event (Some "2026-02-21") = None /\
   ~ laterThanNow Samples.easternPlatform 19 30 /\
   check_DiningTime Samples.easternPlatform event (Some "2026-02-21") (Some "19:30")
     = None /\
   dialogTurn Samples.easternPlatform event = buildDelegateResponse event) /\
  (let event := Samples.dialogEvent Samples.thaiSlots in
   ~ isToday Samples.easternPlatform (Some "2026-02-22") /\
   check_DiningDate Samples.easternPlatform event (Some "2026-02-22") = None /\
   elicits "DiningTime" event
     (check_DiningTime Samples.easternPlatform event (Some "2026-02-22") (Some "19:30")) /\
   dialogAction (dialogTurn Samples.easternPlatform event) = ElicitSlot "DiningTime").
Proof.
  split; [| split; [exact utc_dates_agree | split]].
  - intros P event s Hslot date block now.
    destruct (time_block_rejections P event s Hslot) as (H1 & H2 & H3 & H4 & H5).
    fold date in H1, H2, H3, H4, H5. fold block in H1, H3, H4, H5. fold now in H3.
    split; [exact H1 |]. split; [exact H2 |]. split; [| split; [exact H4 | exact H5]].
    intros h1 h2 m1 m2 D1 D2 D3 D4 E.
    destruct (H3 h1 h2 m1 m2 D1 D2 D3 D4 E) as [Hh Hpast].
    assert (Hnot : date = Some (JSDate.toISODate now) ->
                   ~ laterThanNow P (twoDigits h1 h2) (twoDigits m1 m2) ->
                   elicits "DiningTime" event block).
    { intros Hdate Hl. subst s.
      destruct (time_block P event date h1 h2 m1 m2 D1 D2 D3 D4) as (a & b & Hblock).
      cbv zeta in Hblock. fold block in Hblock. fold now in Hblock. rewrite Hblock.
      destruct ((twoDigits h1 h2 <? 6) || (23 <? twoDigits h1 h2)); [now exists a |].
      rewrite Hdate. cbn [present interp].
      rewrite toISODate_truthy, String.eqb_refl. cbn [andb].
      replace (_ || _) with true; [now exists b |].
      symmetry. unfold laterThanNow in Hl. cbv zeta in Hl. fold now in Hl.
      destruct (twoDigits h1 h2 <? JSDate.getHours (utcOffset P) now) eqn:Ea;
        [reflexivity |].
      apply Z.ltb_ge in Ea. cbn [orb]. apply andb_true_iff.
      split; [apply Z.eqb_eq | apply Z.leb_le]; lia. }
    split; [exact Hh |]. split; [exact Hnot |].
    intros Hagree Htoday. apply Hnot. apply Hagree. exact Htoday.
  - split; [exact eastern_today |]. split; [vm_compute; reflexivity |]. split.
    + vm_compute. intros [H | [H _]]; discriminate.
    + split; vm_compute; reflexivity.
  - split; [exact eastern_tomorrow |]. split; [vm_compute; reflexivity |]. split.
    + eexists. vm_compute. reflexivity.
    + vm_compute. reflexivity.
Qed.

(** C10. Minutes are not range-checked: a [DiningTime] of two digits, a
    colon and any two digits, with an hour from 6 to 23, is let through
    when the [DiningDate] slot is absent or is not the date of the
    clock's ISO string, and the turn does not ask for [DiningTime] and
    goes on to the next block; so it is let through when the date is
    absent or is not today, on a platform where the date strings agree
    with the local day on what today is. Where they do not, a date that
    is not today can be the date of the ISO string: five hours behind UTC
    at 21:00, the time 19:99 tomorrow is asked again. *)
Theorem minutes_unchecked_unless_the_utc_date :
  (forall (P : Platform) (event : Event) (h1 h2 m1 m2 : ascii),
     isDigit h1 = true -> isDigit h2 = true -> isDigit m1 = true -> isDigit m2 = true ->
     6 <= twoDigits h1 h2 <= 23 ->
     getSlotValue (intent_slots (intent (sessionState event))) "DiningTime"
       = Some (hhmm h1 h2 m1 m2) ->
     let date := getSlotValue (intent_slots (intent (sessionState event))) "DiningDate" in
     let block := check_DiningTime P event date (Some (hhmm h1 h2 m1 m2)) in
     (date = None \/ date <> Some (JSDate.toISODate (clock P 1)) ->
      block = None /\
      dialogAction (dialogTurn P event) <> ElicitSlot "DiningTime" /\
      (invalid P event "Location" = false -> invalid P event "Cuisine" = false ->
       invalid P event "NumberOfPeople" = false -> invalid P event "DiningDate" = false ->
       dialogTurn P event =
       orReturn (verdict P event "Email") (buildDelegateResponse event))) /\
     (datesAgree P event -> ~ isToday P date ->
      block = None /\ dialogAction (dialogTurn P event) <> ElicitSlot "DiningTime")) /\
  (let event := Samples.dialogEvent Samples.lateMinutesSlots in
   getSlotValue (intent_slots (intent (sessionState event))) "DiningDate"
     = Some "2026-02-22" /\
   getSlotValue (intent_slots (intent (sessionState event))) "DiningTime"
     = Some "19:99" /\
   ~ isToday Samples.easternPlatform (Some "2026-02-22") /\
   check_DiningDate Samples.easternPlatform event (Some "2026-02-22") = None /\
   elicits "DiningTime" event
     (check_DiningTime Samples.easternPlatform event (Some "2026-02-22") (Some "19:99")) /\
   dialogAction (dialogTurn Samples.easternPlatform event) = ElicitSlot "DiningTime").
Proof.
  split.
  - intros P event h1 h2 m1 m2 D1 D2 D3 D4 Hh Hslot date block.
    pose proof (time_block_skips_minutes P event h1 h2 m1 m2 D1 D2 D3 D4 Hh Hslot) as H.
    cbv zeta in H. fold date in H. fold block in H. split; [exact H |].
    intros Hagree Hnot.
    assert (Hd : date = None \/ date <> Some (JSDate.toISODate (clock P 1))).
    { right. intros E. apply Hnot. apply Hagree. exact E. }
    destruct (H Hd) as (Hb & Ht & _). split; assumption.
  - split; [vm_compute; reflexivity |]. split; [vm_compute; reflexivity |].
    split; [exact eastern_tomorrow |]. split; [vm_compute; reflexivity |]. split.
    + eexists. vm_compute. reflexivity.
    + vm_compute. reflexivity.
Qed.

End RulesAtWork.

(** ** LF1: the handler and fulfilment *)

Section Hook.

Import JS LF1 Spec.

Variable P : Platform.

Lemma cons_neq {T : Type} (x : T) (l : list T) : x :: l <> l.
Proof.
  intros H. apply (f_equal (@length T)) in H. simpl in H. lia.
Qed.

(** What [normalizeLocation] returns is [null] or truthy. *)
Lemma normalizeLocation_truthy (location : option string) :
  normalizeLocation location = Absent \/ truthyValue (normalizeLocation location) = true.
Proof.
  unfold normalizeLocation. destruct location as [raw |]; [| now left].
  destruct (negb (truthy raw)); [now left |]. unfold orValue.
  destruct (truthyValue (getProperty _ _)) eqn:E; [now right | now left].
Qed.

(** The runs of [handleFulfillment] on a request with a cuisine. *)
Lemma handleFulfillment_runs (event : Event) (w : World) (cuisine : string) :
  let slots := intent_slots (intent (sessionState event)) in
  getSlotValue slots "Cuisine" = Some cuisine ->
  let run := handleFulfillment P event slots (attrsOrEmpty event) w in
  let location := orValue (normalizeLocation (getSlotValue slots "Location"))
                    (ofOption (getSlotValue slots "Location")) in
  let m := {| msg_Location := location;
              msg_Cuisine := trim (toLowerCase cuisine);
              msg_NumberOfPeople := getSlotValue slots "NumberOfPeople";
              msg_DiningDate := getSlotValue slots "DiningDate";
              msg_DiningTime := getSlotValue slots "DiningTime";
              msg_Email := getSlotValue slots "Email" |} in
  let item := {| item_Email := getSlotValue slots "Email";
                 item_Location := location;
                 item_Cuisine := cuisine;
                 item_NumberOfPeople := interp (getSlotValue slots "NumberOfPeople");
                 item_DiningDate := getSlotValue slots "DiningDate";
                 item_DiningTime := getSlotValue slots "DiningTime";
                 item_LastSearchTimestamp := clock P 0 |} in
  let confirmation :=
    buildFulfillmentResponse event
      (msg_confirmation cuisine (getSlotValue slots "NumberOfPeople")
         (getSlotValue slots "DiningDate") (getSlotValue slots "DiningTime")
         (getSlotValue slots "Email")) in
  (present (SQS_QUEUE_URL P) = false /\
   run = (Ok (buildFulfillmentResponse event msg_notConfigured), w)) \/
  (exists url,
     SQS_QUEUE_URL P = Some url /\ truthy url = true /\
     ((exists e, sqs_send P url m = Throw e /\
                 run = (Ok (buildFulfillmentResponse event msg_fulfillmentError), w)) \/
      (sqs_send P url m = Ok tt /\
       ((exists e, dynamo_put P item = Throw e /\
           run = (Ok confirmation, {| enqueued := m :: enqueued w; saved := saved w |})) \/
        (dynamo_put P item = Ok tt /\
           run = (Ok confirmation,
                  {| enqueued := m :: enqueued w; saved := item :: saved w |})))))).
Proof.
  intros slots Hc run location m item confirmation. subst run.
  unfold handleFulfillment. fold slots. rewrite Hc. fold location. fold m.
  unfold tryCatch.
  destruct (SQS_QUEUE_URL P) as [url |]; [| left; split; reflexivity].
  destruct (truthy url) eqn:T; [| left; split; [exact T | reflexivity]].
  right. exists url. split; [reflexivity |]. split; [exact T |].
  unfold bind at 1, sendMessage, bind at 1, settle, modify.
  destruct (sqs_send P url m) as [[] | e].
  - right. split; [reflexivity |].
    unfold bind, saveUserState, tryCatch, putItem, bind, settle, modify, ret.
    fold item. cbn [enqueued saved].
    destruct (dynamo_put P item) as [[] | e].
    + right. split; reflexivity.
    + left. exists e. split; reflexivity.
  - left. exists e. split; reflexivity.
Qed.

Lemma handler_cases (event : Event) (w : World) :
  let name := intent_name (intent (sessionState event)) in
  (exists messageContent,
     handler P event w = (Ok (buildFulfillmentResponse event messageContent), w) /\
     (name <> "DiningSuggestionsIntent" \/
      (invocationSource event <> "DialogCodeHook" /\
       invocationSource event <> "FulfillmentCodeHook"))) \/
  (name = "DiningSuggestionsIntent" /\ invocationSource event = "DialogCodeHook" /\
   handler P event w = (Ok (dialogTurn P event), w)) \/
  (name = "DiningSuggestionsIntent" /\ invocationSource event = "FulfillmentCodeHook" /\
   handler P event w =
   tryCatch
     (handleFulfillment P event (intent_slots (intent (sessionState event)))
        (attrsOrEmpty event))
     (fun err => ret (buildFulfillmentResponse event msg_oops)) w).
Proof.
  intros name. unfold handler. fold name.
  destruct (String.eqb_spec name "GreetingIntent") as [E | _].
  { left. eexists. split; [reflexivity |]. left. rewrite E. discriminate. }
  destruct (String.eqb_spec name "ThankYouIntent") as [E | _].
  { left. eexists. split; [reflexivity |]. left. rewrite E. discriminate. }
  destruct (String.eqb_spec name "DiningSuggestionsIntent") as [E | N].
  - destruct (String.eqb_spec (invocationSource event) "DialogCodeHook") as [D | ND].
    { right. left. auto. }
    destruct (String.eqb_spec (invocationSource event) "FulfillmentCodeHook") as [F | NF].
    { right. right. auto. }
    left. eexists. split; [reflexivity |]. right. auto.
  - left. eexists. cbn [andb]. split; [reflexivity |]. left. exact N.
Qed.

(** X9. The handler of the code hook returns a response for every event
    that has a session state with an intent, whatever the services do. A
    fulfilment request without a cuisine, whose [cuisine.toLowerCase()]
    throws outside the [try] of [handleFulfillment], is answered by the
    handler's own catch-all with the closing apology, and nothing is sent
    or saved. An event without a session state, or whose session state
    has no intent, is not answered: the fallback response cannot be
    built, the catch-all fails in the same way, and the handler throws
    that [TypeError], with nothing sent or saved. *)
Theorem handler_answers_iff_the_event_has_an_intent (event : AnyEvent) (w : World) :
  ((exists r, fst (handler_any P event w) = Ok r) <-> exists e, event = WithIntent e) /\
  (forall e, event = WithIntent e ->
     handler_any P event w = handler P e w /\
     (intent_name (intent (sessionState e)) = "DiningSuggestionsIntent" ->
      invocationSource e = "FulfillmentCodeHook" ->
      getSlotValue (intent_slots (intent (sessionState e))) "Cuisine" = None ->
      handler P e w = (Ok (buildFulfillmentResponse e msg_oops), w))) /\
  (forall hasSessionState, event = WithoutIntent hasSessionState ->
     handler_any P event w = (Throw (missingIntent hasSessionState), w)).
Proof.
  assert (Hsame : forall e, handler_any P (WithIntent e) = handler P e).
  { intros e. unfold handler_any, handler. cbn [buildFulfillmentResponse_any].
    destruct (String.eqb _ "GreetingIntent"); [reflexivity |].
    destruct (String.eqb _ "ThankYouIntent"); reflexivity. }
  assert (Hanswers : forall e, exists r, fst (handler P e w) = Ok r).
  { intros e.
    destruct (handler_cases e w) as [(m & -> & _) | [(_ & _ & ->) | (_ & _ & ->)]];
      [eauto | eauto |].
    unfold tryCatch.
    destruct (handleFulfillment P e _ _ w) as [[r | err] w1]; simpl; eauto. }
  split; [| split].
  - destruct event as [e | s].
    + rewrite Hsame. split; [eauto | intros _; apply Hanswers].
    + split; [| intros (e & C); discriminate].
      intros (r & C). discriminate.
  - intros e ->. split; [now rewrite Hsame |].
    intros Hi Hs Hc. rewrite handler_fulfilment by assumption.
    unfold tryCatch, handleFulfillment. rewrite Hc. reflexivity.
  - intros s ->. reflexivity.
Qed.

(** X10. Every response of the handler names the intent of the event and
    carries its session attributes (an empty object when it has none). A
    closing response is [Fulfilled], keeps the slots and has one
    plain-text message; a response that asks for a slot is [InProgress],
    has the slots with that one slot set to [null], asks for one of the
    six validated slots and has one plain-text message; a delegating
    response is [InProgress], keeps the slots and has no message. Only
    the dialog code hook of [DiningSuggestionsIntent] answers with
    anything but a closing response. *)
Theorem responses_echo_the_intent (event : Event) (w : World) (r : Response) :
  fst (handler P event w) = Ok r ->
  let slots := intent_slots (intent (sessionState event)) in
  intent_name (resp_intent r) = intent_name (intent (sessionState event)) /\
  resp_sessionAttributes r = attrsOrEmpty event /\
  match dialogAction r with
  | Close =>
      intent_state (resp_intent r) = "Fulfilled" /\ intent_slots (resp_intent r) = slots /\
      exists text, messages r = Some [ {| contentType := "PlainText"; content := text |} ]
  | ElicitSlot field =>
      intent_state (resp_intent r) = "InProgress" /\
      intent_slots (resp_intent r) = <[ field := None ]> slots /\
      In field validationOrder /\
      exists text, messages r = Some [ {| contentType := "PlainText"; content := text |} ]
  | Delegate =>
      intent_state (resp_intent r) = "InProgress" /\ intent_slots (resp_intent r) = slots /\
      messages r = None
  end /\
  (dialogAction r <> Close ->
   intent_name (intent (sessionState event)) = "DiningSuggestionsIntent" /\
   invocationSource event = "DialogCodeHook").
Proof.
  intros H slots.
  assert (Hclose : forall m, r = buildFulfillmentResponse event m ->
    intent_name (resp_intent r) = intent_name (intent (sessionState event)) /\
    resp_sessionAttributes r = attrsOrEmpty event /\
    match dialogAction r with
    | Close =>
        intent_state (resp_intent r) = "Fulfilled" /\ intent_slots (resp_intent r) = slots /\
        exists text, messages r = Some [ {| contentType := "PlainText"; content := text |} ]
    | ElicitSlot field =>
        intent_state (resp_intent r) = "InProgress" /\
        intent_slots (resp_intent r) = <[ field := None ]> slots /\
        In field validationOrder /\
        exists text, messages r = Some [ {| contentType := "PlainText"; content := text |} ]
    | Delegate =>
        intent_state (resp_intent r) = "InProgress" /\ intent_slots (resp_intent r) = slots /\
        messages r = None
    end /\
    (dialogAction r <> Close ->
     intent_name (intent (sessionState event)) = "DiningSuggestionsIntent" /\
     invocationSource event = "DialogCodeHook")).
  { intros m ->. cbn. repeat split; eauto; contradiction. }
  destruct (handler_cases event w) as [(m & E & _) | [(Hi & Hs & E) | (Hi & Hs & E)]];
    rewrite E in H.
  - injection H as <-. now apply (Hclose m).
  - injection H as <-.
    destruct (dialogTurn_cases P event)
      as [(_ & -> & _) | (field & m & _ & Hin & -> & _)]; cbn.
    + repeat split; auto.
    + repeat split; eauto.
  - unfold tryCatch in H.
    destruct (getSlotValue slots "Cuisine") as [cuisine |] eqn:Hc.
    + destruct (handleFulfillment_runs event w cuisine Hc) as
        [(_ & R) | (url & _ & _ & [(e & _ & R) | (_ & [(e & _ & R) | (_ & R)])])];
        cbv zeta in R; rewrite R in H; injection H as <-;
        eapply Hclose; reflexivity.
    + unfold handleFulfillment in H. fold slots in H. rewrite Hc in H.
      simpl in H. injection H as <-. eapply Hclose; reflexivity.
Qed.

(** X11. The handler changes the outside world only when it fulfils a
    [DiningSuggestionsIntent], and then it has put exactly one message on
    the queue: the cuisine lower-cased and trimmed, the party size, date,
    time and email as the slots give them, the location under its
    canonical name when the table knows it and as given when
    [normalizeLocation] returns [null]. At most one item is written to
    the [user-state] table, by a put that resolved, with the same email
    and location and with the cuisine as the slot gives it. *)
Theorem effects_only_when_enqueued (event : Event) (w : World) :
  snd (handler P event w) <> w ->
  let slots := intent_slots (intent (sessionState event)) in
  let w' := snd (handler P event w) in
  intent_name (intent (sessionState event)) = "DiningSuggestionsIntent" /\
  invocationSource event = "FulfillmentCodeHook" /\
  exists cuisine m,
    getSlotValue slots "Cuisine" = Some cuisine /\
    enqueued w' = m :: enqueued w /\
    msg_Cuisine m = trim (toLowerCase cuisine) /\
    msg_NumberOfPeople m = getSlotValue slots "NumberOfPeople" /\
    msg_DiningDate m = getSlotValue slots "DiningDate" /\
    msg_DiningTime m = getSlotValue slots "DiningTime" /\
    msg_Email m = getSlotValue slots "Email" /\
    (forall canonical,
       normalizeLocation (getSlotValue slots "Location") = Str canonical ->
       msg_Location m = Str canonical) /\
    (normalizeLocation (getSlotValue slots "Location") = Absent ->
     msg_Location m = ofOption (getSlotValue slots "Location")) /\
    (saved w' = saved w \/
     exists item,
       saved w' = item :: saved w /\ dynamo_put P item = Ok tt /\
       item_Email item = getSlotValue slots "Email" /\
       item_Cuisine item = cuisine /\ item_Location item = msg_Location m).
Proof.
  intros Hw slots w'. subst w' slots.
  destruct (handler_cases event w) as [(m & E & _) | [(_ & _ & E) | (Hi & Hs & E)]];
    rewrite E in Hw |- *; try (now contradiction Hw).
  split; [exact Hi |]. split; [exact Hs |].
  destruct (getSlotValue (intent_slots (intent (sessionState event))) "Cuisine")
    as [cuisine |] eqn:Hc.
  2:{ exfalso. apply Hw. unfold tryCatch, handleFulfillment.
      rewrite Hc. reflexivity. }
  assert (Hloc : forall loc,
    (forall canonical, normalizeLocation loc = Str canonical ->
       orValue (normalizeLocation loc) (ofOption loc) = Str canonical) /\
    (normalizeLocation loc = Absent ->
       orValue (normalizeLocation loc) (ofOption loc) = ofOption loc)).
  { intros loc. split.
    - intros canonical Hn.
      destruct (normalizeLocation_truthy loc) as [Ha | Ht]; [congruence |].
      unfold orValue. rewrite Ht. exact Hn.
    - intros ->. reflexivity. }
  exists cuisine.
  destruct (handleFulfillment_runs event w cuisine Hc) as
    [(_ & R) | (url & _ & _ & [(e & _ & R) | (_ & [(e & _ & R) | (Hput & R)])])];
    cbv zeta in R; unfold tryCatch in Hw |- *; rewrite R in Hw |- *;
    try (now contradiction Hw); cbn [snd enqueued saved];
    eexists; (split; [reflexivity |]); (split; [reflexivity |]);
    cbn [msg_Cuisine msg_NumberOfPeople msg_DiningDate msg_DiningTime msg_Email msg_Location];
    repeat (split; [reflexivity |]);
    (split; [apply Hloc |]); (split; [apply Hloc |]).
  - left. reflexivity.
  - right. eexists. split; [reflexivity |]. split; [exact Hput |]. repeat split.
Qed.

(** X12. When a fulfilment request with a cuisine puts nothing on the
    queue, the outside world is unchanged (no [user-state] item is
    written), and the response closes the intent with the message that
    the service is not configured, when [SQS_QUEUE_URL] is unset or
    empty, or else with the message that something went wrong, the send
    having been rejected. *)
Theorem fulfilment_without_enqueue (event : Event) (w : World) (cuisine : string) :
  intent_name (intent (sessionState event)) = "DiningSuggestionsIntent" ->
  invocationSource event = "FulfillmentCodeHook" ->
  getSlotValue (intent_slots (intent (sessionState event))) "Cuisine" = Some cuisine ->
  enqueued (snd (handler P event w)) = enqueued w ->
  snd (handler P event w) = w /\
  fst (handler P event w) =
    Ok (buildFulfillmentResponse event
          (if present (SQS_QUEUE_URL P) then msg_fulfillmentError else msg_notConfigured)) /\
  (present (SQS_QUEUE_URL P) = true ->
   exists url m e, SQS_QUEUE_URL P = Some url /\ sqs_send P url m = Throw e).
Proof.
  intros Hi Hs Hc Hq. rewrite handler_fulfilment in Hq |- * by assumption.
  unfold tryCatch in Hq |- *.
  destruct (handleFulfillment_runs event w cuisine Hc) as
    [(Hu & R) | (url & Hu & T & [(e & He & R) | (_ & [(e & _ & R) | (_ & R)])])];
    cbv zeta in R; rewrite R in Hq |- *; cbn [fst snd enqueued] in Hq |- *;
    try (now apply cons_neq in Hq).
  - rewrite Hu. repeat split. discriminate.
  - rewrite Hu. cbn [present]. rewrite T. repeat split. intros _. eauto.
Qed.

End Hook.

(** ** LF2: every run of the worker *)

Section WorkerRuns.

Import LF2 Spec.

Variable P : Platform.

(** Every run of the worker's handler. *)
Lemma handler_runs (w : World) :
  match JS.orElse (SQS_QUEUE_URL P) None with
  | None =>
      handler P w = (Ok {| statusCode := 500; body := "SQS_QUEUE_URL not configured" |}, w)
  | Some url =>
      let w0 := logged w [ReceiveMessage url] in
      match sqs_receive P (queue w) with
      | Throw e => handler P w = (Ok (failed e), w0)
      | Ok None | Ok (Some []) =>
          handler P w = (Ok {| statusCode := 200; body := "No messages to process" |}, w0)
      | Ok (Some (message :: _)) =>
          match JSON_parse P (Body message) with
          | Throw e => handler P w = (Ok (failed e), w0)
          | Ok b =>
              match searchOpenSearch P (Cuisine b) w0 with
              | (Throw e, w1) => handler P w = (Ok (failed e), w1)
              | (Ok [], w1) =>
                  handler P w =
                  match sqs_delete P (ReceiptHandle message) with
                  | Ok _ =>
                      (Ok {| statusCode := 200; body := "No restaurants found" |},
                       {| queue := without (ReceiptHandle message) (queue w1);
                          tape := tape w1; delivered := delivered w1;
                          calls := calls w1 ++ [DeleteMessage url (ReceiptHandle message)] |})
                  | Throw e =>
                      (Ok (failed e), logged w1 [DeleteMessage url (ReceiptHandle message)])
                  end
              | (Ok ids, w1) =>
                  let selected :=
                    fst (getRandomItems (Array_sort P) (randomBits P) ids 3 (tape w1)) in
                  let rest :=
                    snd (getRandomItems (Array_sort P) (randomBits P) ids 3 (tape w1)) in
                  let w2 := {| queue := queue w1; tape := rest; delivered := delivered w1;
                               calls := calls w1 |} in
                  let w3 := logged w2 (map GetItem selected) in
                  handler P w =
                  match fst (promiseAll (getRestaurantFromDynamoDB P) selected w2) with
                  | Throw e => (Ok (failed e), w3)
                  | Ok restaurants =>
                      let w4 := snd (sendEmailViaSES P (Email b) (Cuisine b)
                                       (NumberOfPeople b) (DiningDate b) (DiningTime b)
                                       restaurants w3) in
                      match sqs_delete P (ReceiptHandle message) with
                      | Ok _ =>
                          (Ok {| statusCode := 200; body := "Message processed" |},
                           {| queue := without (ReceiptHandle message) (queue w4);
                              tape := tape w4; delivered := delivered w4;
                              calls := calls w4
                                         ++ [DeleteMessage url (ReceiptHandle message)] |})
                      | Throw e =>
                          (Ok (failed e),
                           logged w4 [DeleteMessage url (ReceiptHandle message)])
                      end
                  end
              end
          end
      end
  end.
Proof.
  unfold handler. destruct (JS.orElse (SQS_QUEUE_URL P) None) as [url |]; [| reflexivity].
  cbv zeta.
  assert (Hstart : forall k : option (list QueueMessage) -> M World Response,
    tryCatch
      (_ <- call (ReceiveMessage url) ;; q <- getQueue ;;
       receiveResult <- settle (sqs_receive P q) ;; k receiveResult)%eff
      (fun error => ret (failed error)) w =
    match sqs_receive P (queue w) with
    | Ok received =>
        tryCatch (k received) (fun error => ret (failed error))
          (logged w [ReceiveMessage url])
    | Throw e => (Ok (failed e), logged w [ReceiveMessage url])
    end).
  { intros k. unfold tryCatch, bind at 1. rewrite call_run.
    unfold bind at 1, getQueue. unfold bind at 1, settle at 1.
    change (queue (logged w [ReceiveMessage url])) with (queue w).
    destruct (sqs_receive P (queue w)); reflexivity. }
  unfold failed in Hstart. rewrite Hstart. clear Hstart.
  destruct (sqs_receive P (queue w)) as [[[| message others] |] | e];
    try reflexivity.
  destruct (JSON_parse P (Body message)) as [b | e] eqn:Hparse.
  2:{ unfold tryCatch, bind, settle. rewrite ?Hparse. reflexivity. }
  destruct (searchOpenSearch P (Cuisine b) (logged w [ReceiveMessage url]))
    as [[ids | e] w1] eqn:Hsearch.
  2:{ unfold tryCatch, bind at 1, settle. rewrite ?Hparse.
      unfold bind at 1. rewrite Hsearch. reflexivity. }
  destruct ids as [| id0 ids0].
  - unfold tryCatch, bind at 1, settle. rewrite ?Hparse.
    unfold bind at 1. rewrite Hsearch. cbn [length Nat.eqb].
    unfold bind at 1. rewrite delete_run.
    destruct (sqs_delete P (ReceiptHandle message)) as [[] | e]; reflexivity.
  - cbv zeta.
    destruct (fst (promiseAll (getRestaurantFromDynamoDB P) _ _)) as [restaurants | e]
      eqn:Hlook.
    + destruct (sqs_delete P (ReceiptHandle message)) as [[] | e'] eqn:Hdel;
        unfold tryCatch at 1, bind at 1, settle; rewrite ?Hparse;
        unfold bind at 1; rewrite Hsearch; cbn [length Nat.eqb];
        unfold bind at 1, random;
        destruct (getRandomItems (Array_sort P) (randomBits P) (id0 :: ids0) 3 (tape w1))
          as [selected rest]; cbn [fst snd] in *;
        unfold bind at 1;
        pose proof (lookups_log P selected
          {| queue := queue w1; tape := rest; delivered := delivered w1;
             calls := calls w1 |}) as Hlog;
        destruct (promiseAll (getRestaurantFromDynamoDB P) selected _) as [rs wl];
        cbn [fst snd] in *; subst wl rs;
        rewrite notify_then_delete; cbv zeta; rewrite Hdel; reflexivity.
    + unfold tryCatch at 1, bind at 1, settle; rewrite ?Hparse;
        unfold bind at 1; rewrite Hsearch; cbn [length Nat.eqb];
        unfold bind at 1, random;
        destruct (getRandomItems (Array_sort P) (randomBits P) (id0 :: ids0) 3 (tape w1))
          as [selected rest]; cbn [fst snd] in *;
        unfold bind at 1;
        pose proof (lookups_log P selected
          {| queue := queue w1; tape := rest; delivered := delivered w1;
             calls := calls w1 |}) as Hlog;
        destruct (promiseAll (getRestaurantFromDynamoDB P) selected _) as [rs wl];
        cbn [fst snd] in *; subst wl rs; reflexivity.
Qed.


Lemma calls_logged (w : World) (cs : list Call) :
  calls (logged w cs) = (calls w ++ cs)%list.
Proof. reflexivity. Qed.

Lemma queue_logged (w : World) (cs : list Call) : queue (logged w cs) = queue w.
Proof. reflexivity. Qed.

Lemma delivered_logged (w : World) (cs : list Call) : delivered (logged w cs) = delivered w.
Proof. reflexivity. Qed.

Lemma search_world (cuisine : option string) (w : World) :
  match searchOpenSearch P cuisine w with
  | (Ok _, w1) => exists c, w1 = logged w [Search c]
  | (Throw _, w1) => w1 = w \/ exists c, w1 = logged w [Search c]
  end.
Proof.
  unfold searchOpenSearch.
  destruct (OPENSEARCH_ENDPOINT P) as [endpoint |]; [| now left].
  destruct (JS.truthy endpoint); [| now left].
  destruct cuisine as [c |]; [| now left].
  unfold bind, settle. rewrite call_run.
  destruct (opensearch P (JS.toLowerCase c)) as [[hits |] | e]; simpl; eauto.
Qed.

Lemma send_world (recipient cuisine people date time : option string)
  (restaurants : list Restaurant) (w : World) :
  let w' := snd (sendEmailViaSES P recipient cuisine people date time restaurants w) in
  exists mail,
    calls w' = (calls w ++ optCall SendEmail mail)%list /\ queue w' = queue w /\ tape w' = tape w /\
    (delivered w' = delivered w \/
     exists email, mail = Some email /\ ses_send P email = Ok tt /\
                   delivered w' = (delivered w ++ [email])%list).
Proof.
  destruct (sendEmail_run P recipient cuisine people date time restaurants w)
    as [(_ & _ & Hw) | [email [(Hok & _ & Hw) | (e & _ & _ & Hw)]]];
    cbv zeta in *; rewrite Hw.
  - exists None. simpl. rewrite app_nil_r. auto.
  - exists (Some email). simpl. repeat split; auto. right. eauto.
  - exists (Some email). simpl. auto.
Qed.

Lemma getRandomItems_length {A : Type} (sort : Sort A) (bits : nat) (array : list A)
  (n : nat) (tape : list Z) :
  (length (fst (getRandomItems sort bits array n tape)) <= n)%nat.
Proof.
  unfold getRandomItems, slice0.
  destruct (sort (randomComparator bits) array tape) as [shuffled rest].
  cbn [fst]. rewrite length_firstn. lia.
Qed.

(** X13. The calls of one invocation follow the pipeline: at most one
    receive, then at most one search, then at most three lookups, then at
    most one send, then at most one delete, in this order. Nothing is
    looked up, sent or deleted unless a search call was made, no search
    is made unless the queue was read, and the only message ever deleted
    is the first one that the receive returned, on the configured
    queue. *)
Theorem calls_follow_the_pipeline (w : World) :
  exists (received searched : option string) (selected : list string)
         (mail : option EmailMessage) (deleted : option (string * string)),
    callsMade P w =
      (optCall ReceiveMessage received ++ optCall Search searched ++
       map GetItem selected ++ optCall SendEmail mail ++
       optCall (fun d => DeleteMessage (fst d) (snd d)) deleted)%list /\
    (length selected <= 3)%nat /\
    (received = None -> searched = None) /\
    (searched = None -> selected = [] /\ mail = None /\ deleted = None) /\
    (forall url receiptHandle, deleted = Some (url, receiptHandle) ->
       JS.orElse (SQS_QUEUE_URL P) None = Some url /\
       exists message others,
         sqs_receive P (queue w) = Ok (Some (message :: others)) /\
         receiptHandle = ReceiptHandle message).
Proof.
  unfold callsMade. pose proof (handler_runs w) as R.
  destruct (JS.orElse (SQS_QUEUE_URL P) None) as [url |] eqn:Hurl.
  2:{ rewrite R. cbn [snd]. rewrite List.skipn_all.
      exists None, None, [], None, None. simpl. repeat split; auto; discriminate. }
  cbv zeta in R.
  assert (Hrecv_only :
    handler P w = (fst (handler P w), logged w [ReceiveMessage url]) ->
    exists (received searched : option string) (selected : list string)
           (mail : option EmailMessage) (deleted : option (string * string)),
      skipn (length (calls w)) (calls (snd (handler P w))) =
        (optCall ReceiveMessage received ++ optCall Search searched ++
         map GetItem selected ++ optCall SendEmail mail ++
         optCall (fun d => DeleteMessage (fst d) (snd d)) deleted)%list /\
      (length selected <= 3)%nat /\
      (received = None -> searched = None) /\
      (searched = None -> selected = [] /\ mail = None /\ deleted = None) /\
      (forall url0 receiptHandle, deleted = Some (url0, receiptHandle) ->
         Some url = Some url0 /\
         exists message others,
           sqs_receive P (queue w) = Ok (Some (message :: others)) /\
           receiptHandle = ReceiptHandle message)).
  { intros ->. cbn [snd logged calls]. rewrite skipn_prefix.
    exists (Some url), None, [], None, None. simpl. repeat split; auto; discriminate. }
  destruct (sqs_receive P (queue w)) as [[[| message others] |] | e] eqn:Hrecv;
    try (apply Hrecv_only; rewrite R; reflexivity).
  destruct (JSON_parse P (Body message)) as [b | e] eqn:Hparse;
    try (apply Hrecv_only; rewrite R; reflexivity).
  clear Hrecv_only.
  pose proof (search_world (Cuisine b) (logged w [ReceiveMessage url])) as Hs.
  destruct (searchOpenSearch P (Cuisine b) (logged w [ReceiveMessage url]))
    as [[ids | e] w1] eqn:Hsearch.
  2:{ rewrite R. cbn [snd]. destruct Hs as [-> | [c ->]];
        cbn [logged calls]; rewrite <- ?app_assoc, skipn_prefix.
      - exists (Some url), None, [], None, None. simpl. repeat split; auto; discriminate.
      - exists (Some url), (Some c), [], None, None. simpl.
        repeat split; auto; discriminate. }
  destruct Hs as [c ->].
  destruct ids as [| id0 ids0].
  - rewrite R. destruct (sqs_delete P (ReceiptHandle message)) as [[] | e];
      cbn [snd logged calls queue tape delivered]; rewrite <- ?app_assoc, skipn_prefix;
      exists (Some url), (Some c), [], None, (Some (url, ReceiptHandle message));
      simpl; repeat split; auto; try discriminate;
      try (match goal with H : Some _ = Some _ |- _ => injection H as <- <- end; eauto).
  - cbv zeta in R.
    set (selected := fst (getRandomItems (Array_sort P) (randomBits P) (id0 :: ids0) 3 _)) in *.
    assert (Hlen : (length selected <= 3)%nat) by apply getRandomItems_length.
    destruct (fst (promiseAll (getRestaurantFromDynamoDB P) selected _)) as [restaurants | e].
    + match type of R with context [sendEmailViaSES P ?r ?cu ?n ?d ?t ?rs ?w3] =>
        destruct (send_world r cu n d t rs w3) as (mail & Hcalls & _)
      end. cbv zeta in Hcalls.
      rewrite R. destruct (sqs_delete P (ReceiptHandle message)) as [[] | e];
        cbn [snd calls]; rewrite ?calls_logged in Hcalls |- *; rewrite Hcalls;
        cbn [snd logged calls queue tape delivered];
        rewrite <- ?app_assoc, skipn_prefix;
        exists (Some url), (Some c), selected, mail, (Some (url, ReceiptHandle message));
        simpl; repeat split; auto; try discriminate;
        try (match goal with H : Some _ = Some _ |- _ => injection H as <- <- end; eauto).
    + rewrite R. cbn [snd logged calls queue tape delivered].
      rewrite <- ?app_assoc, skipn_prefix.
      exists (Some url), (Some c), selected, None, None.
      simpl. rewrite app_nil_r. repeat split; auto; discriminate.
Qed.


(** X14. The worker's handler never throws: every invocation returns a
    response, whose status is 500, or 200 with one of the bodies "No
    messages to process", "No restaurants found" and "Message
    processed". *)
Theorem worker_always_answers (w : World) :
  exists r,
    fst (handler P w) = Ok r /\
    (statusCode r = 500 \/
     (statusCode r = 200 /\
      In (body r) ["No messages to process"; "No restaurants found"; "Message processed"])).
Proof.
  pose proof (handler_runs w) as R.
  destruct (JS.orElse (SQS_QUEUE_URL P) None) as [url |].
  2:{ rewrite R. eexists. split; [reflexivity |]. now left. }
  cbv zeta in R.
  destruct (sqs_receive P (queue w)) as [[[| message others] |] | e].
  2:{ destruct (JSON_parse P (Body message)) as [b | e].
      2:{ rewrite R. eexists. split; [reflexivity |]. now left. }
      destruct (searchOpenSearch P (Cuisine b) _) as [[[| id0 ids0] | e] w1].
      - destruct (sqs_delete P (ReceiptHandle message)) as [[] | e]; rewrite R;
          eexists; (split; [reflexivity |]); simpl; auto 10.
      - cbv zeta in R.
        destruct (fst (promiseAll (getRestaurantFromDynamoDB P) _ _)) as [restaurants | e].
        + destruct (sqs_delete P (ReceiptHandle message)) as [[] | e]; rewrite R;
            eexists; (split; [reflexivity |]); simpl; auto 10.
        + rewrite R. eexists. split; [reflexivity |]. now left.
      - rewrite R. eexists. split; [reflexivity |]. now left. }
  all: rewrite R; eexists; (split; [reflexivity |]); simpl; auto 10.
Qed.

(** X15. An invocation that answers 500 leaves the queue as it was, so
    the message is received again, also when the mail had been sent and
    only the delete failed. The queue changes only in an invocation that
    answers 200, by the delete, which resolved, of the messages with the
    receipt handle of the first message received. *)
Theorem failure_leaves_the_message (w : World) (r : Response) :
  fst (handler P w) = Ok r ->
  let w' := snd (handler P w) in
  (statusCode r = 500 -> queue w' = queue w) /\
  (queue w' <> queue w ->
   statusCode r = 200 /\
   exists message others,
     sqs_receive P (queue w) = Ok (Some (message :: others)) /\
     sqs_delete P (ReceiptHandle message) = Ok tt /\
     queue w' = without (ReceiptHandle message) (queue w)).
Proof.
  intros Hr w'. subst w'. pose proof (handler_runs w) as R.
  destruct (JS.orElse (SQS_QUEUE_URL P) None) as [url |].
  2:{ rewrite R in Hr |- *. split; [reflexivity | intros H; now contradiction H]. }
  cbv zeta in R.
  destruct (sqs_receive P (queue w)) as [[[| message others] |] | e];
    try (rewrite R in Hr |- *; split; [reflexivity | intros H; now contradiction H]).
  destruct (JSON_parse P (Body message)) as [b | e];
    try (rewrite R in Hr |- *; split; [reflexivity | intros H; now contradiction H]).
  pose proof (search_world (Cuisine b) (logged w [ReceiveMessage url])) as Hs.
  destruct (searchOpenSearch P (Cuisine b) _) as [[[| id0 ids0] | e] w1].
  - destruct Hs as [c ->].
    destruct (sqs_delete P (ReceiptHandle message)) as [[] | e] eqn:Hdel;
      rewrite R in Hr |- *; injection Hr as <-; cbn.
    + split; [discriminate |]. intros _. split; [reflexivity |]. eauto.
    + split; [reflexivity | intros H; now contradiction H].
  - destruct Hs as [c ->]. cbv zeta in R.
    destruct (fst (promiseAll (getRestaurantFromDynamoDB P) _ _)) as [restaurants | e].
    + match type of R with context [sendEmailViaSES P ?a ?cu ?n ?d ?t ?rs ?w3] =>
        destruct (send_world a cu n d t rs w3) as (mail & _ & Hq & _)
      end. cbv zeta in Hq.
      destruct (sqs_delete P (ReceiptHandle message)) as [[] | e] eqn:Hdel;
        rewrite R in Hr |- *; injection Hr as <-; cbn [snd queue statusCode];
        rewrite ?queue_logged in Hq |- *; rewrite Hq; cbn.
      * split; [discriminate |]. intros _. split; [reflexivity |]. eauto.
      * split; [reflexivity | intros H; now contradiction H].
    + rewrite R in Hr |- *. split; [reflexivity | intros H; now contradiction H].
  - rewrite R in Hr |- *. cbn [snd].
    destruct Hs as [-> | [c ->]]; (split; [reflexivity | intros H; now contradiction H]).
Qed.

(** X16. Without [SQS_QUEUE_URL] the worker answers 500 and calls no
    service. With a queue that returns no message (no [Messages], or an
    empty array) it answers 200 "No messages to process" after the one
    receive call, and a receive that is rejected is answered with 500 and
    the message of the error; nothing else is called or changed. *)
Theorem nothing_to_process (w : World) :
  (JS.orElse (SQS_QUEUE_URL P) None = None ->
   handler P w =
   (Ok {| statusCode := 500; body := "SQS_QUEUE_URL not configured" |}, w)) /\
  (forall url received,
     JS.orElse (SQS_QUEUE_URL P) None = Some url ->
     sqs_receive P (queue w) = Ok received ->
     received = None \/ received = Some [] ->
     handler P w =
     (Ok {| statusCode := 200; body := "No messages to process" |},
      logged w [ReceiveMessage url])) /\
  (forall url e,
     JS.orElse (SQS_QUEUE_URL P) None = Some url ->
     sqs_receive P (queue w) = Throw e ->
     handler P w = (Ok (failed e), logged w [ReceiveMessage url])).
Proof.
  pose proof (handler_runs w) as R. split; [| split].
  - intros H. rewrite H in R. exact R.
  - intros url received Hu Hr Hn. rewrite Hu in R. cbv zeta in R. rewrite Hr in R.
    destruct Hn as [-> | ->]; exact R.
  - intros url e Hu Hr. rewrite Hu in R. cbv zeta in R. rewrite Hr in R. exact R.
Qed.


Lemma lookups_throw (ids : list string) (id : string) (e : Error) :
  In id ids -> dynamo_get P id = Throw e ->
  forall w, exists id' e',
    In id' ids /\ dynamo_get P id' = Throw e' /\
    fst (promiseAll (getRestaurantFromDynamoDB P) ids w) = Throw e'.
Proof.
  induction ids as [| i ids IH]; intros Hin He w; [contradiction |].
  cbn [promiseAll].
  destruct (getRestaurantFromDynamoDB P i w) as [r w1] eqn:Er.
  assert (Hr : match dynamo_get P i with Ok _ => exists x, r = Ok x | Throw e0 => r = Throw e0 end).
  { revert Er. unfold getRestaurantFromDynamoDB, bind, settle. rewrite call_run.
    destruct (dynamo_get P i) as [[item |] | e0]; intros [= <- _]; eauto. }
  destruct (dynamo_get P i) as [item | e0] eqn:Ei.
  - destruct Hr as [x ->]. destruct Hin as [-> | Hin]; [congruence |].
    destruct (IH Hin He w1) as (id' & e' & Hin' & He' & Hp).
    destruct (promiseAll (getRestaurantFromDynamoDB P) ids w1) as [rs w2].
    simpl in Hp. subst rs. exists id', e'. simpl. auto.
  - subst r. exists i, e0.
    destruct (promiseAll (getRestaurantFromDynamoDB P) ids w1) as [rs w2].
    simpl. auto.
Qed.

(** X17. The isolation of failures covers the notification only: when a
    lookup that the invocation made is rejected, the answer is 500 with
    the message of a rejected lookup, no mail is sent, no delete call is
    made, and the queue and the delivered mail are as they were. *)
Theorem lookup_failure_is_not_isolated (w : World) (id : string) (e : Error) :
  In (GetItem id) (callsMade P w) -> dynamo_get P id = Throw e ->
  let w' := snd (handler P w) in
  (exists id' e',
     In (GetItem id') (callsMade P w) /\ dynamo_get P id' = Throw e' /\
     fst (handler P w) = Ok (failed e')) /\
  (forall c, In c (callsMade P w) ->
     isDelete c = false /\ forall mail, c <> SendEmail mail) /\
  queue w' = queue w /\ delivered w' = delivered w.
Proof.
  intros Hin He w'. subst w'. unfold callsMade in *.
  pose proof (handler_runs w) as R.
  destruct (JS.orElse (SQS_QUEUE_URL P) None) as [url |].
  2:{ exfalso. rewrite R in Hin. cbn [snd] in Hin. rewrite List.skipn_all in Hin.
      contradiction. }
  cbv zeta in R.
  assert (Hno : snd (handler P w) = logged w [ReceiveMessage url] -> False).
  { intros E. rewrite E in Hin. cbn [logged calls] in Hin. rewrite skipn_prefix in Hin.
    simpl in Hin. intuition discriminate. }
  destruct (sqs_receive P (queue w)) as [[[| message others] |] | e0];
    try (exfalso; apply Hno; rewrite R; reflexivity).
  destruct (JSON_parse P (Body message)) as [b | e0];
    try (exfalso; apply Hno; rewrite R; reflexivity).
  clear Hno.
  pose proof (search_world (Cuisine b) (logged w [ReceiveMessage url])) as Hs.
  destruct (searchOpenSearch P (Cuisine b) _) as [[[| id0 ids0] | e0] w1].
  - exfalso. destruct Hs as [c ->].
    destruct (sqs_delete P (ReceiptHandle message)) as [[] | e0]; rewrite R in Hin;
      cbn [snd logged calls] in Hin; rewrite <- ?app_assoc, skipn_prefix in Hin;
      simpl in Hin; intuition discriminate.
  - destruct Hs as [c ->]. cbv zeta in R.
    set (selected := fst (getRandomItems (Array_sort P) (randomBits P) (id0 :: ids0) 3 _)) in *.
    assert (Hsel : In id selected).
    { destruct (fst (promiseAll (getRestaurantFromDynamoDB P) selected _)) as [restaurants | e0].
      - match type of R with context [sendEmailViaSES P ?a ?cu ?n ?d ?t ?rs ?w3] =>
          destruct (send_world a cu n d t rs w3) as (mail & Hcalls & _)
        end. cbv zeta in Hcalls.
        destruct (sqs_delete P (ReceiptHandle message)) as [[] | e1]; rewrite R in Hin;
          cbn [snd calls] in Hin; rewrite ?calls_logged in Hcalls, Hin;
          rewrite Hcalls in Hin; cbn [logged calls] in Hin;
          rewrite <- ?app_assoc, skipn_prefix in Hin;
          repeat (apply in_app_or in Hin as [Hin | Hin]);
          try (simpl in Hin; intuition discriminate);
          try (apply in_map_iff in Hin as (x & [= ->] & Hx); exact Hx);
          destruct mail; simpl in Hin; intuition discriminate.
      - rewrite R in Hin. cbn [snd logged calls] in Hin.
        rewrite <- ?app_assoc, skipn_prefix in Hin.
        repeat (apply in_app_or in Hin as [Hin | Hin]);
          try (simpl in Hin; intuition discriminate).
        apply in_map_iff in Hin as (x & [= ->] & Hx). exact Hx. }
    match type of R with context [promiseAll _ _ ?w2] =>
      destruct (lookups_throw selected id e Hsel He w2) as (id' & e' & Hin' & He' & Hp)
    end.
    rewrite Hp in R. rewrite R. cbn [fst snd logged calls queue delivered].
    rewrite <- ?app_assoc, skipn_prefix.
    split; [| split; [| split; reflexivity]].
    + exists id', e'. split; [| split; [exact He' | reflexivity]].
      apply in_or_app. right. apply in_or_app. right. now apply in_map.
    + intros c0 Hc0.
      repeat (apply in_app_or in Hc0 as [Hc0 | Hc0]).
      * simpl in Hc0. destruct Hc0 as [<- | []]. split; [reflexivity | discriminate].
      * simpl in Hc0. destruct Hc0 as [<- | []]. split; [reflexivity | discriminate].
      * apply in_map_iff in Hc0 as (x & <- & _). split; [reflexivity | discriminate].
  - exfalso. rewrite R in Hin. cbn [snd] in Hin.
    destruct Hs as [-> | [c ->]]; cbn [logged calls] in Hin;
      rewrite <- ?app_assoc, skipn_prefix in Hin; simpl in Hin; intuition discriminate.
Qed.


(** X18. The path on which everything resolves: a message is received
    and parsed, the search returns hits, a sender is configured, the
    lookups return, and the send and the delete resolve. The invocation
    then calls the queue, the search, the records of the ids that
    [getRandomItems] chose from the hits with the random numbers of the
    tape, the mail service and the delete, in this order; it answers 200
    "Message processed"; exactly one mail is delivered, from the
    configured sender to the address of the request, with the cuisine in
    its subject; and the message is off the queue. *)
Theorem worker_delivers_and_acknowledges (w : World) (url sender : string)
  (message : QueueMessage) (others : list QueueMessage) (b : MessageBody)
  (ids : list string) :
  JS.orElse (SQS_QUEUE_URL P) None = Some url ->
  sqs_receive P (queue w) = Ok (Some (message :: others)) ->
  JSON_parse P (Body message) = Ok b ->
  (forall w0, fst (searchOpenSearch P (Cuisine b) w0) = Ok ids) ->
  ids <> [] ->
  JS.orElse (SES_SENDER_EMAIL P) None = Some sender ->
  (forall id, In (GetItem id) (callsMade P w) -> exists item, dynamo_get P id = Ok item) ->
  (forall email, In (SendEmail email) (callsMade P w) -> ses_send P email = Ok tt) ->
  sqs_delete P (ReceiptHandle message) = Ok tt ->
  let w' := snd (handler P w) in
  let selected := fst (getRandomItems (Array_sort P) (randomBits P) ids 3 (tape w)) in
  exists cuisine email,
    callsMade P w =
      ([ReceiveMessage url; Search cuisine] ++ map GetItem selected ++
       [SendEmail email; DeleteMessage url (ReceiptHandle message)])%list /\
    fst (handler P w) = Ok {| statusCode := 200; body := "Message processed" |} /\
    delivered w' = (delivered w ++ [email])%list /\
    Source email = sender /\ ToAddresses email = [Email b] /\
    Subject email = ("Your " ++ interp (Cuisine b) ++ " Restaurant Suggestions")%string /\
    queue w' = without (ReceiptHandle message) (queue w) /\
    tape w' = snd (getRandomItems (Array_sort P) (randomBits P) ids 3 (tape w)).
Proof.
  intros Hurl Hrecv Hparse Hsearch Hne Hsender Hlook Hsend Hdel w' selected.
  subst w'. unfold callsMade in *.
  pose proof (handler_runs w) as R. rewrite Hurl in R. cbv zeta in R.
  rewrite Hrecv, Hparse in R.
  destruct (searchOpenSearch_run P _ _ _ (Hsearch (logged w [ReceiveMessage url])))
    as [c Hc].
  rewrite Hc in R. destruct ids as [| id0 ids0]; [contradiction |].
  cbv zeta in R. rewrite Hdel in R.
  change (tape (logged (logged w [ReceiveMessage url]) [Search c])) with (tape w) in R.
  fold selected in R.
  match type of R with context [promiseAll _ _ ?w2] =>
    destruct (fst (promiseAll (getRestaurantFromDynamoDB P) selected w2))
      as [restaurants | e] eqn:Elook
  end.
  2:{ exfalso. rewrite R in Hlook. cbn [snd logged calls] in Hlook.
      rewrite <- ?app_assoc, skipn_prefix in Hlook.
      match type of Elook with context [promiseAll _ _ ?w2] =>
        destruct (lookups_return P selected) with (w := w2) as [rs Hrs]
      end.
      - intros id Hid. apply Hlook. right. right. now apply in_map.
      - congruence. }
  match type of R with context [sendEmailViaSES P ?a ?cu ?n ?d ?t ?rs ?w3] =>
    pose proof (eq_refl (sendEmailViaSES P a cu n d t rs w3)) as Hrun;
    unfold sendEmailViaSES at 2 in Hrun
  end.
  rewrite Hsender in Hrun. cbv zeta in Hrun.
  match type of Hrun with context [SendEmail ?m] => set (email := m) in * end.
  assert (Hok : ses_send P email = Ok tt).
  { apply Hsend. rewrite R. cbn [snd calls]. rewrite Hrun.
    unfold bind at 1. rewrite call_run. unfold bind, settle, modify.
    destruct (ses_send P email) as [[] | e]; cbn [snd logged calls];
      rewrite <- ?app_assoc, skipn_prefix; rewrite !in_app_iff; simpl; tauto. }
  unfold bind at 1 in Hrun. rewrite call_run in Hrun.
  unfold bind, settle, modify in Hrun. rewrite Hok in Hrun.
  rewrite R, Hrun. cbn [fst snd logged calls queue tape delivered].
  rewrite <- ?app_assoc, skipn_prefix.
  exists c, email. repeat split.
Qed.


(** X19. [getRestaurantFromDynamoDB] makes one [GetItem] call and
    rejects exactly when the call does. For a missing item it returns the
    placeholder name and address and no rating, review count or zip code.
    For an item it passes on every attribute that is there and not
    empty, and puts the placeholder name or address, "N/A" for the rating
    or the review count, or the empty string for the zip code, in place
    of one that is missing or empty. The name and the address it returns
    are never empty, and neither is a rating or a review count. *)
Theorem lookup_defaults (id : string) (w : World) :
  let run := getRestaurantFromDynamoDB P id w in
  snd run = logged w [GetItem id] /\
  (forall e, dynamo_get P id = Throw e -> fst run = Throw e) /\
  (dynamo_get P id = Ok None ->
   fst run = Ok {| name := "Unknown Restaurant"; address := "Address not available";
                   rating := None; numberOfReviews := None; zipCode := None |}) /\
  (forall item, dynamo_get P id = Ok (Some item) ->
     exists r, fst run = Ok r /\
       (forall s, item_Name item = Some s -> s <> "" -> name r = s) /\
       (item_Name item = None \/ item_Name item = Some "" ->
        name r = "Unknown Restaurant") /\
       (forall s, item_Address item = Some s -> s <> "" -> address r = s) /\
       (item_Address item = None \/ item_Address item = Some "" ->
        address r = "Address not available") /\
       (forall s, item_Rating item = Some s -> s <> "" -> rating r = Some s) /\
       (item_Rating item = None \/ item_Rating item = Some "" -> rating r = Some "N/A") /\
       (forall s, item_NumberOfReviews item = Some s -> s <> "" ->
        numberOfReviews r = Some s) /\
       (item_NumberOfReviews item = None \/ item_NumberOfReviews item = Some "" ->
        numberOfReviews r = Some "N/A") /\
       (forall s, item_ZipCode item = Some s -> zipCode r = Some s) /\
       (item_ZipCode item = None -> zipCode r = Some "")) /\
  (forall r, fst run = Ok r ->
     name r <> "" /\ address r <> "" /\ rating r <> Some "" /\
     numberOfReviews r <> Some "").
Proof.
  intros run. subst run. unfold getRestaurantFromDynamoDB, bind, settle.
  rewrite call_run.
  assert (Hd : forall o d, d <> "" -> orDefault o d <> "").
  { intros o d Hd. unfold orDefault, JS.orElse. destruct o as [[| c s] |]; simpl; congruence. }
  assert (Hs : forall o d s, o = Some s -> s <> "" -> orDefault o d = s).
  { intros o d s -> Hne. unfold orDefault, JS.orElse. destruct s; [contradiction | reflexivity]. }
  assert (Hn : forall o d, o = None \/ o = Some "" -> orDefault o d = d).
  { intros o d [-> | ->]; reflexivity. }
  assert (Hz : forall o s, o = Some s -> orDefault o "" = s).
  { intros o s ->. unfold orDefault, JS.orElse. destruct s; reflexivity. }
  destruct (dynamo_get P id) as [[item |] | e]; cbn [fst snd].
  - split; [reflexivity |]. split; [discriminate |]. split; [discriminate |]. split.
    + intros item' [= <-]. eexists. split; [reflexivity |]. cbn.
      repeat split; intros;
        first [ now apply Hs | f_equal; now apply Hs | f_equal; now apply Hz
              | rewrite Hn by auto; reflexivity ].
    + intros r [= <-]. cbn. repeat split; try (apply Hd; discriminate);
        intros [= H]; revert H; apply Hd; discriminate.
  - split; [reflexivity |]. split; [discriminate |]. split; [reflexivity |]. split.
    + discriminate.
    + intros r [= <-]. cbn. repeat split; discriminate.
  - split; [reflexivity |]. split; [now intros e' [= ->] |]. split; [discriminate |].
    split; discriminate.
Qed.

(** X20. A message that cannot be processed is never acknowledged. When
    the body of the first message does not parse, when
    [OPENSEARCH_ENDPOINT] is unset or empty, or when the body has no
    cuisine, the invocation answers 500 with the message of the error
    after the receive call alone: no search, no lookup, no mail and no
    delete, so the message stays on the queue for the next invocation. *)
Theorem malformed_message_is_never_acknowledged (w : World) (url : string)
  (message : QueueMessage) (others : list QueueMessage) :
  JS.orElse (SQS_QUEUE_URL P) None = Some url ->
  sqs_receive P (queue w) = Ok (Some (message :: others)) ->
  (forall e, JSON_parse P (Body message) = Throw e ->
     handler P w = (Ok (failed e), logged w [ReceiveMessage url])) /\
  (forall b, JSON_parse P (Body message) = Ok b ->
     (JS.present (OPENSEARCH_ENDPOINT P) = false ->
      handler P w =
      (Ok (failed (mkError "OPENSEARCH_ENDPOINT not configured")),
       logged w [ReceiveMessage url])) /\
     (JS.present (OPENSEARCH_ENDPOINT P) = true -> Cuisine b = None ->
      exists e, handler P w = (Ok (failed e), logged w [ReceiveMessage url]))).
Proof.
  intros Hurl Hrecv. pose proof (handler_runs w) as R.
  rewrite Hurl in R. cbv zeta in R. rewrite Hrecv in R. split.
  - intros e He. rewrite He in R. exact R.
  - intros b Hb. rewrite Hb in R. unfold searchOpenSearch in R. split.
    + intros Hcfg. destruct (OPENSEARCH_ENDPOINT P) as [endpoint |]; [| exact R].
      simpl in Hcfg. rewrite Hcfg in R. exact R.
    + intros Hcfg Hc. destruct (OPENSEARCH_ENDPOINT P) as [endpoint |]; [| discriminate].
      simpl in Hcfg. rewrite Hcfg, Hc in R. eexists. exact R.
Qed.

End WorkerRuns.

(** ** LF2: the request to the search index *)

Section HttpRequest.

Import Http Spec.

Lemma settled_stays (events : list NetEvent) :
  forall s r, promise s = Settled r -> promise (fold_left step events s) = Settled r.
Proof.
  induction events as [| ev events IH]; intros s r H; [exact H |].
  simpl. apply IH. destruct ev; simpl; try exact H.
  - destruct (response s); [exact H | exact H].
  - destruct (response s); simpl; [now rewrite H | exact H].
  - now rewrite H.
Qed.

Lemma quiet_keeps (events : list NetEvent) :
  forall s, quiet events = true -> promise (fold_left step events s) = promise s.
Proof.
  induction events as [| ev events IH]; intros s H; [reflexivity |].
  simpl in H. apply andb_true_iff in H as [Hev H]. simpl. rewrite IH by exact H.
  destruct ev; try discriminate; simpl; [reflexivity |].
  destruct (response s); reflexivity.
Qed.

Lemma append_assoc (a b c : string) :
  String.append (String.append a b) c = String.append a (String.append b c).
Proof.
  induction a as [| x a IH]; [reflexivity |].
  change (String x (String.append (String.append a b) c)
          = String x (String.append a (String.append b c))).
  now rewrite IH.
Qed.

Lemma append_empty_r (a : string) : String.append a EmptyString = a.
Proof.
  induction a as [| x a IH]; [reflexivity |].
  change (String x (String.append a EmptyString) = String x a). now rewrite IH.
Qed.

Lemma chunks_accumulate (chunks : list string) :
  forall s status, response s = Some status ->
    fold_left step (map OnData chunks) s =
    {| response := Some status; data := (data s ++ implode chunks)%string;
       promise := promise s |}.
Proof.
  induction chunks as [| c chunks IH]; intros s status H; simpl.
  - rewrite append_empty_r. destruct s. simpl in *. now subst.
  - erewrite IH by (simpl; rewrite H; reflexivity).
    simpl. rewrite H. simpl. now rewrite append_assoc.
Qed.

(** X21. When the response has arrived, its chunks have been received and
    it ends, [makeHttpRequest] resolves with the chunks, joined in the
    order in which they came, if the status is from 200 to 299, and
    otherwise rejects with an error whose message names the status and
    the body received; what happens on the connection afterwards changes
    nothing. *)
Theorem response_status_decides (options : Options) (status : Z)
  (chunks : list string) (later : list NetEvent) :
  snd (makeHttpRequest options
         (OnResponse status :: map OnData chunks ++ OnEnd :: later)) =
  Settled (if (200 <=? status) && (status <? 300) then Ok (implode chunks)
           else Throw (requestFailed status (implode chunks))).
Proof.
  unfold makeHttpRequest. cbn [snd fold_left]. rewrite fold_left_app.
  erewrite chunks_accumulate by reflexivity. cbn [fold_left].
  apply settled_stays. reflexivity.
Qed.

(** X22. The promise of [makeHttpRequest] is settled by the end of the
    response or by an error of the request, and by nothing else: as long
    as neither has happened it is pending (the code sets no timeout), an
    error then rejects it with that error whatever has been received, and
    once it is settled no later event changes it. *)
Theorem request_settles_on_end_or_error (options : Options) (events : list NetEvent) :
  (quiet events = true ->
   snd (makeHttpRequest options events) = Pending /\
   forall e later,
     snd (makeHttpRequest options (events ++ OnError e :: later)) = Settled (Throw e)) /\
  (forall r later,
     snd (makeHttpRequest options events) = Settled r ->
     snd (makeHttpRequest options (events ++ later)) = Settled r).
Proof.
  unfold makeHttpRequest. cbn [snd]. split.
  - intros Hq. split.
    + now rewrite quiet_keeps.
    + intros e later. rewrite fold_left_app. cbn [fold_left].
      apply settled_stays. cbn. now rewrite quiet_keeps.
  - intros r later H. rewrite fold_left_app. now apply settled_stays.
Qed.

End HttpRequest.

(** ** LF0: the chat API *)

Section ChatApi.

Import LF0 Spec.

Variable P : Platform.

(** Every run of the handler: it answers without asking Lex, or asks Lex
    once about the first message of the request. *)
Lemma chat_runs (event : Event) (w : World) :
  (exists status text,
     handler P event w = (Ok (reply P status text), w) /\
     ((status = 400 /\ text = msg_noMessage) \/
      (status = 500 /\ text = msg_oops) \/
      (status = 200 /\ text = msg_development /\
       (JS.orElse (BOT_ID P) None = None \/ JS.orElse (BOT_ALIAS_ID P) None = None)))) \/
  (exists body first rest u bot botAlias,
     requestBody P event body /\
     req_messages body = Some (Some first :: rest) /\
     req_unstructured first = Some u /\
     JS.orElse (BOT_ID P) None = Some bot /\
     JS.orElse (BOT_ALIAS_ID P) None = Some botAlias /\
     let command := {| botId := bot; botAliasId := botAlias; localeId := "en_US";
                       sessionId := sessionOf event; lex_text := req_text u |} in
     handler P event w =
     (match lex_send P command with
      | Ok response => Ok (reply P 200 (replyText response))
      | Throw e => Ok (reply P 500 msg_oops)
      end,
      {| recognized := recognized w ++ [command] |})).
Proof.
  destruct (handler P event w) as [r w'] eqn:E.
  unfold handler, tryCatch, bind at 1 in E.
  assert (Hbody : exists parsed : Result (option RequestBody),
    (match event_body event with
     | BodyString s => settle (JSON_parse P s)
     | BodyObject b => ret (Some b)
     | BodyMissing => ret (Some (event_self event))
     end w = (parsed, w)) /\
    forall body, parsed = Ok (Some body) -> requestBody P event body).
  { unfold requestBody. destruct (event_body event) as [s | b |].
    - exists (JSON_parse P s). split; [reflexivity | auto].
    - exists (Ok (Some b)). split; [reflexivity |]. now intros body [= ->].
    - exists (Ok (Some (event_self event))). split; [reflexivity |]. now intros body [= ->]. }
  destruct Hbody as (parsed & Hp & Hbody). rewrite Hp in E. clear Hp.
  destruct parsed as [[body |] | e].
  2,3: injection E as <- <-; left; do 2 eexists; split; [reflexivity |]; auto.
  specialize (Hbody body eq_refl).
  destruct (req_messages body) as [[| [first |] rest] |] eqn:Hm.
  1,3,4: injection E as <- <-; left; do 2 eexists; split; [reflexivity |]; auto.
  destruct (req_unstructured first) as [u |] eqn:Hu.
  2: injection E as <- <-; left; do 2 eexists; split; [reflexivity |]; auto.
  destruct (JS.orElse (BOT_ID P) None) as [bot |] eqn:Hb.
  2: injection E as <- <-; left; do 2 eexists; split; [reflexivity |]; auto 10.
  destruct (JS.orElse (BOT_ALIAS_ID P) None) as [botAlias |] eqn:Ha.
  2: injection E as <- <-; left; do 2 eexists; split; [reflexivity |]; auto 10.
  right. exists body, first, rest, u, bot, botAlias.
  repeat (split; [assumption || reflexivity |]).
  cbv zeta. unfold bind, recognizeText, bind, modify, settle in E.
  unfold sessionOf, replyText.
  destruct (lex_send P _) as [response | e]; [| now injection E as <- <-].
  destruct (lex_messages response) as [[| m ms] |]; now injection E as <- <-.
Qed.

(** X23. The chat API never throws: every request is answered with the
    CORS headers and one [unstructured] message with id 1, with status
    200, or 400 and the text that no message was received, or 500 and the
    apology. *)
Theorem chat_always_answers (event : Event) (w : World) :
  exists status text,
    fst (handler P event w) = Ok (reply P status text) /\
    (status = 200 \/ (status = 400 /\ text = msg_noMessage) \/
     (status = 500 /\ text = msg_oops)).
Proof.
  destruct (chat_runs event w)
    as [(status & text & -> & H) |
        (body & first & rest & u & bot & botAlias & _ & _ & _ & _ & _ & R)].
  - exists status, text. split; [reflexivity |]. intuition.
  - cbv zeta in R. rewrite R. cbn [fst].
    destruct (lex_send P _); do 2 eexists; (split; [reflexivity |]); auto.
Qed.

(** X24. An invocation asks Lex at most once, and only about the first
    message of the request: the text of its [unstructured] part, in
    locale [en_US], in the session of the caller's source address or the
    shared session [default-user], for the configured bot and alias.
    When the bot or its alias is not configured Lex is not asked, and an
    answer with status 200 is the text that the bot is under
    development. *)
Theorem lex_is_asked_about_the_first_message (event : Event) (w : World) :
  let w' := snd (handler P event w) in
  (recognized w' = recognized w \/
   exists body first rest u command,
     requestBody P event body /\
     req_messages body = Some (Some first :: rest) /\
     req_unstructured first = Some u /\
     recognized w' = (recognized w ++ [command])%list /\
     lex_text command = req_text u /\
     sessionId command = sessionOf event /\
     localeId command = "en_US" /\
     JS.orElse (BOT_ID P) None = Some (botId command) /\
     JS.orElse (BOT_ALIAS_ID P) None = Some (botAliasId command)) /\
  (JS.orElse (BOT_ID P) None = None \/ JS.orElse (BOT_ALIAS_ID P) None = None ->
   recognized w' = recognized w /\
   exists status text,
     fst (handler P event w) = Ok (reply P status text) /\
     (status = 200 -> text = msg_development)).
Proof.
  intros w'. subst w'.
  destruct (chat_runs event w)
    as [(status & text & -> & H) |
        (body & first & rest & u & bot & botAlias & Hb & Hm & Hu & Hbot & Halias & R)].
  - split; [now left |]. intros _. split; [reflexivity |].
    exists status, text. split; [reflexivity |].
    intros ->. destruct H as [[H _] | [[H _] | (_ & H & _)]]; [discriminate.. | exact H].
  - cbv zeta in R. rewrite R. cbn [fst snd recognized]. split.
    + right. eexists body, first, rest, u, _. repeat split; eauto.
    + intros [H | H]; congruence.
Qed.

Lemma snoc_neq {T : Type} (l : list T) (x : T) : (l ++ [x])%list <> l.
Proof.
  intros H. apply (f_equal (@length T)) in H. rewrite length_app in H. simpl in H. lia.
Qed.

(** X25. When Lex was asked: if the call is rejected the answer is 500
    with the apology; if it resolves the answer is 200, with the text
    that the bot did not understand when Lex returns no message, and
    otherwise with the contents of the messages joined by single spaces
    (a missing content counting as empty), so that a single message is
    passed on as it is. *)
Theorem reply_joins_what_lex_says (event : Event) (w : World) (command : LexCommand) :
  recognized (snd (handler P event w)) = (recognized w ++ [command])%list ->
  (forall e, lex_send P command = Throw e ->
     fst (handler P event w) = Ok (reply P 500 msg_oops)) /\
  (forall response, lex_send P command = Ok response ->
     exists text,
       fst (handler P event w) = Ok (reply P 200 text) /\
       (lex_messages response = None \/ lex_messages response = Some [] ->
        text = msg_notUnderstood) /\
       (forall ms, lex_messages response = Some ms -> ms <> [] ->
          text = JS.join " " (map (fun m => joined (lex_content m)) ms)) /\
       (forall c, lex_messages response = Some [ {| lex_content := Some c |} ] ->
          text = c)).
Proof.
  intros Hw.
  destruct (chat_runs event w)
    as [(status & text & E & _) |
        (body & first & rest & u & bot & botAlias & _ & _ & _ & _ & _ & R)].
  - rewrite E in Hw. cbn [snd] in Hw. symmetry in Hw. now apply snoc_neq in Hw.
  - cbv zeta in R. rewrite R in Hw |- *. cbn [fst snd recognized] in Hw |- *.
    apply app_inv_head in Hw. injection Hw as Hw. rewrite Hw. split.
    + intros e ->. reflexivity.
    + intros response ->. exists (replyText response). split; [reflexivity |].
      unfold replyText. split; [| split].
      * intros [-> | ->]; reflexivity.
      * intros ms -> Hne. destruct ms; [contradiction | reflexivity].
      * intros c ->. reflexivity.
Qed.

End ChatApi.

(** ** The validators and the worker on sample inputs *)

Section Examples.

Import JS Spec Samples.

(** The clock of the sample platform reads 2026-02-21 20:00. *)
Example date_window_examples :
  map (fun d => accepts (LF1.check_DiningDate lexPlatform (dialogEvent ∅) (Some d)))
      ["2026-02-20"; "2026-02-21"; "2026-05-22"; "2026-05-23"; "March 5th"]
  = [false; true; true; false; false].
Proof. vm_compute. reflexivity. Qed.

Example time_examples_today :
  map (fun t => accepts (LF1.check_DiningTime lexPlatform (dialogEvent ∅)
                           (Some "2026-02-21") (Some t)))
      ["19:30"; "20:00"; "20:01"; "23:59"; "24:00"; "05:59"; "7:30"; "20:99"]
  = [false; false; true; true; false; false; false; true].
Proof. vm_compute. reflexivity. Qed.

Example time_examples_without_date :
  map (fun t => accepts (LF1.check_DiningTime lexPlatform (dialogEvent ∅) None (Some t)))
      ["19:30"; "06:00"; "23:59"; "24:00"; "05:59"; "7:30"; "19:99"]
  = [true; true; true; false; false; false; true].
Proof. vm_compute. reflexivity. Qed.

Example party_size_examples :
  map (fun n => accepts (LF1.check_NumberOfPeople (dialogEvent ∅) (Some n)))
      ["0"; "1"; "20"; "21"; "two"; "-3"; "3 people"]
  = [false; true; true; false; false; false; true].
Proof. vm_compute. reflexivity. Qed.

Example cuisine_examples :
  map (fun c => accepts (LF1.check_Cuisine (dialogEvent ∅) (Some c)))
      ["Thai"; " ITALIAN "; "french"]
  = [true; true; false].
Proof. vm_compute. reflexivity. Qed.

Example email_examples :
  map (fun e => accepts (LF1.check_Email (dialogEvent ∅) (Some e)))
      ["ann@example.com"; "ann@example"; "ann smith@example.com"; "@example.com"]
  = [true; false; false; false].
Proof. vm_compute. reflexivity. Qed.

(** With five hits the worker looks up three of them and deletes the
    message once. *)
Example five_hits_run :
  List.filter (fun c => match c with
                        | LF2.GetItem _ | LF2.DeleteMessage _ _ => true
                        | _ => false
                        end)
    (callsMade (workerPlatform fiveIds) workerWorld)
  = [LF2.GetItem "r1"; LF2.GetItem "r2"; LF2.GetItem "r4";
     LF2.DeleteMessage "https://sqs.us-east-1.amazonaws.com/1/DiningRequestsQueue" "rh-1"].
Proof. vm_compute. reflexivity. Qed.

End Examples.

(** ** The theorems at work on the sample platforms *)

Section Witnesses.

Import JS Spec Samples.

Lemma first_field_to_break_witness :
  noInheritedName (dialogEvent largePartySlots) /\
  datesAgree lexPlatform (dialogEvent largePartySlots) /\
  firstToBreak lexPlatform (dialogEvent largePartySlots) "NumberOfPeople" /\
  LF1.dialogAction (dialogTurn lexPlatform (dialogEvent largePartySlots))
    = LF1.ElicitSlot "NumberOfPeople".
Proof.
  assert (Hl : noInheritedName (dialogEvent largePartySlots))
    by (apply nyc_noInheritedName; vm_compute; reflexivity).
  assert (Hd : datesAgree lexPlatform (dialogEvent largePartySlots))
    by (apply utc_datesAgree; right; vm_compute; reflexivity).
  split; [exact Hl |]. split; [exact Hd |]. split; [exact largeParty_firstToBreak |].
  exact (proj1 (proj1 first_field_to_break_its_rule_is_elicited lexPlatform _ _
                  Hl Hd largeParty_firstToBreak)).
Defined.

Lemma party_size_witness :
  LF1.getSlotValue largePartySlots "NumberOfPeople" = Some (showZ 25) /\
  (LF1.check_NumberOfPeople (dialogEvent largePartySlots) (Some (showZ 25)) = None
   <-> 1 <= 25 <= 20).
Proof.
  assert (H : LF1.getSlotValue largePartySlots "NumberOfPeople" = Some (showZ 25))
    by (vm_compute; reflexivity).
  split; [exact H |].
  exact (proj1 (party_size_accepted_iff lexPlatform (dialogEvent largePartySlots) 25 H)).
Defined.

Lemma dining_date_witness :
  LF1.getSlotValue thaiSlots "DiningDate" = Some "2026-02-22" /\
  LF1.Date_parse lexPlatform "2026-02-22T00:00:00" = Some (JSDate.midnightOf 0 20506) /\
  (LF1.check_DiningDate lexPlatform (dialogEvent thaiSlots) (Some "2026-02-22") = None
   <-> 20505 <= 20506 <= 20505 + 90).
Proof.
  assert (H : LF1.getSlotValue thaiSlots "DiningDate" = Some "2026-02-22")
    by (vm_compute; reflexivity).
  assert (Hp : LF1.Date_parse lexPlatform ("2026-02-22" ++ "T00:00:00")
               = Some (JSDate.midnightOf (LF1.utcOffset lexPlatform) 20506))
    by (vm_compute; reflexivity).
  split; [exact H |]. split; [exact Hp |].
  exact (proj1 (proj2 (dining_date_accepted_iff lexPlatform (dialogEvent thaiSlots)
                         "2026-02-22" H) 20506 Hp)).
Defined.

Lemma dining_time_today_witness :
  LF1.getSlotValue tonightSlots "DiningTime" = Some "19:30" /\
  datesAgree lexPlatform (dialogEvent tonightSlots) /\
  isToday lexPlatform (Some "2026-02-21") /\
  ~ laterThanNow lexPlatform 19 30 /\
  elicits "DiningTime" (dialogEvent tonightSlots)
    (LF1.check_DiningTime lexPlatform (dialogEvent tonightSlots)
       (Some "2026-02-21") (Some "19:30")).
Proof.
  assert (H : LF1.getSlotValue tonightSlots "DiningTime" = Some "19:30")
    by (vm_compute; reflexivity).
  assert (Hiso : forall d t,
            LF1.getSlotValue tonightSlots "DiningDate" = Some d ->
            calendarDate lexPlatform d = Some t -> d = JSDate.toISODate t).
  { intros d t Hd Hc. vm_compute in Hd. injection Hd as <-.
    vm_compute in Hc. injection Hc as <-. vm_compute. reflexivity. }
  assert (Hp : calendarDate lexPlatform (JSDate.toISODate (LF1.clock lexPlatform 1))
               = Some (JSDate.midnightOf 0 (JSDate.localDay 0 (LF1.clock lexPlatform 1))))
    by (vm_compute; reflexivity).
  pose proof (proj1 (proj2 dining_time_today_is_the_utc_date) lexPlatform
                (dialogEvent tonightSlots) eq_refl eq_refl Hp Hiso) as Hd.
  assert (Hl : ~ laterThanNow lexPlatform 19 30).
  { vm_compute. intros [C | [C _]]; discriminate. }
  split; [exact H |]. split; [exact Hd |]. split; [exact utc_today |].
  split; [exact Hl |].
  pose proof (proj1 dining_time_today_is_the_utc_date lexPlatform
                (dialogEvent tonightSlots) "19:30" H) as (_ & _ & Hhhmm & _).
  exact (proj2 (proj2 (Hhhmm "1" "9" "3" "0" eq_refl eq_refl eq_refl eq_refl eq_refl)%char)
           Hd utc_today Hl).
Defined.

Lemma minutes_unchecked_witness :
  LF1.getSlotValue lateMinutesSlots "DiningTime" = Some "19:99" /\
  datesAgree lexPlatform (dialogEvent lateMinutesSlots) /\
  ~ isToday lexPlatform (Some "2026-02-22") /\
  LF1.check_DiningTime lexPlatform (dialogEvent lateMinutesSlots)
    (Some "2026-02-22") (Some "19:99") = None.
Proof.
  assert (H : LF1.getSlotValue lateMinutesSlots "DiningTime" = Some (hhmm "1" "9" "9" "9"))
    by (vm_compute; reflexivity).
  assert (Hd : datesAgree lexPlatform (dialogEvent lateMinutesSlots))
    by (apply utc_datesAgree; right; vm_compute; reflexivity).
  assert (Hh : 6 <= twoDigits "1" "9" <= 23) by (vm_compute; split; discriminate).
  split; [exact H |]. split; [exact Hd |]. split; [exact utc_tomorrow |].
  pose proof (proj1 minutes_unchecked_unless_the_utc_date lexPlatform
                (dialogEvent lateMinutesSlots)
                "1" "9" "9" "9" eq_refl eq_refl eq_refl eq_refl Hh H)%char as [_ Hrule].
  exact (proj1 (Hrule Hd utc_tomorrow)).
Defined.

Lemma preference_failure_witness :
  LF1.enqueued (snd (LF1.handler lexPlatform (eventWith "FulfillmentCodeHook" thaiSlots)
                       emptyWorld)) <> [] /\
  LF1.saved (snd (LF1.handler lexPlatform (eventWith "FulfillmentCodeHook" thaiSlots)
                    emptyWorld)) = [] /\
  exists cuisine,
    fst (LF1.handler lexPlatform (eventWith "FulfillmentCodeHook" thaiSlots) emptyWorld)
    = Ok (LF1.buildFulfillmentResponse (eventWith "FulfillmentCodeHook" thaiSlots)
            (LF1.msg_confirmation cuisine (Some "4") (Some "2026-02-22") (Some "19:30")
               (Some "ann@example.com"))).
Proof.
  assert (H : LF1.enqueued (snd (LF1.handler lexPlatform
                 (eventWith "FulfillmentCodeHook" thaiSlots) emptyWorld))
              <> LF1.enqueued emptyWorld) by (vm_compute; discriminate).
  split; [exact H |]. split; [vm_compute; reflexivity |].
  destruct (preference_failure_is_swallowed lexPlatform
              (eventWith "FulfillmentCodeHook" thaiSlots) emptyWorld eq_refl eq_refl H)
    as (cuisine & _ & Hres & _).
  exists cuisine. exact Hres.
Defined.

Lemma getRandomItems_witness :
  LF2.permutes (@insertionSort string) /\
  length (fst (LF2.getRandomItems insertionSort 1 fiveIds 3 [1; 0; 0; 1; 1; 0; 1; 0; 0; 1]))
    = 3%nat.
Proof.
  split; [exact insertionSort_permutes |].
  exact (proj1 (getRandomItems_chooses_distinct_hits insertionSort 1 fiveIds
                  [1; 0; 0; 1; 1; 0; 1; 0; 0; 1] insertionSort_permutes)).
Defined.

Lemma no_hits_witness :
  fst (LF2.handler (workerPlatform []) workerWorld)
    = Ok {| LF2.statusCode := 200; LF2.body := "No restaurants found" |} /\
  ~ In thaiRequest (LF2.queue (snd (LF2.handler (workerPlatform []) workerWorld))).
Proof.
  pose proof (no_hits_still_acknowledged (workerPlatform []) workerWorld _ thaiRequest []
                thaiBody eq_refl eq_refl eq_refl (fun _ => eq_refl))
    as (_ & _ & _ & _ & H).
  destruct (H eq_refl) as (Hres & _ & Hgone). split; assumption.
Defined.

Lemma notification_failure_witness :
  fst (LF2.handler (workerPlatform fiveIds) workerWorld)
    = Ok {| LF2.statusCode := 200; LF2.body := "Message processed" |} /\
  LF2.delivered (snd (LF2.handler (workerPlatform fiveIds) workerWorld)) = [] /\
  ~ In thaiRequest (LF2.queue (snd (LF2.handler (workerPlatform fiveIds) workerWorld))).
Proof.
  assert (Hne : fiveIds <> []) by discriminate.
  pose proof (notification_failure_still_acknowledged (workerPlatform fiveIds) workerWorld _
                thaiRequest [] thaiBody fiveIds eq_refl eq_refl eq_refl (fun _ => eq_refl)
                Hne
                (fun _ _ => ex_intro _ None eq_refl)
                (fun _ _ => ex_intro _ (mkError "Email address is not verified") eq_refl))
    as (_ & Hdel & _ & H).
  destruct (H eq_refl) as (Hres & _ & Hgone). repeat split; assumption.
Defined.

End Witnesses.

(** ** The request to the index and the chat API on sample inputs *)

Section MoreExamples.

Import Spec Samples.

Example not_found_is_rejected :
  snd (Http.makeHttpRequest
         {| Http.hostname := "search.example.com"; Http.port := "443";
            Http.path := "/restaurants/_search"; Http.method := "POST";
            Http.headers := []; Http.body := Some "{}";
            Http.protocol := Some "https:" |}
         [Http.OnResponse 404; Http.OnData "Not "; Http.OnData "Found"; Http.OnEnd])
  = Http.Settled (Throw (mkError "OpenSearch request failed: 404 - Not Found")).
Proof. vm_compute. reflexivity. Qed.

Example empty_request_is_refused :
  LF0.handler chatPlatform
    {| LF0.event_body := LF0.BodyMissing;
       LF0.event_self := {| LF0.req_messages := Some [] |};
       LF0.sourceIp := None |} chatWorld
  = (Ok (LF0.reply chatPlatform 400 LF0.msg_noMessage), chatWorld).
Proof. reflexivity. Qed.

Example unparsable_body_is_an_error :
  LF0.handler chatPlatform
    {| LF0.event_body := LF0.BodyString "{";
       LF0.event_self := {| LF0.req_messages := None |};
       LF0.sourceIp := None |} chatWorld
  = (Ok (LF0.reply chatPlatform 500 LF0.msg_oops), chatWorld).
Proof. reflexivity. Qed.

End MoreExamples.

(** ** The further properties at work on the sample platforms *)

Section MoreWitnesses.

Import JS Spec Samples.

Lemma normalizeLocation_idempotent_witness :
  LF1.normalizeLocation (Some " New York ") = LF1.Str "manhattan" /\
  LF1.normalizeLocation (Some "manhattan") = LF1.Str "manhattan".
Proof.
  assert (H : LF1.normalizeLocation (Some " New York ") = LF1.Str "manhattan")
    by reflexivity.
  split; [exact H |].
  exact (proj2 (proj2 (normalizeLocation_idempotent " New York " "manhattan" H))).
Defined.

Lemma enqueued_cuisine_witness :
  truthy " ITALIAN " = true /\
  (LF1.check_Cuisine (dialogEvent ∅) (Some " ITALIAN ") = None <->
   In (trim (toLowerCase " ITALIAN ")) LF1.VALID_CUISINES).
Proof.
  split; [reflexivity |].
  exact (proj1 (enqueued_cuisine_is_searched_as_is (dialogEvent ∅) " ITALIAN " eq_refl)).
Defined.

Lemma party_size_leading_integer_witness :
  parseInt10 (" " ++ showZ 3 ++ " people") = Some 3.
Proof.
  exact (proj1 (party_size_reads_leading_integer (dialogEvent ∅) 3 " " " people"
                  eq_refl eq_refl)).
Defined.

Lemma dining_time_accepted_witness :
  LF1.check_DiningTime lexPlatform (dialogEvent ∅) (Some "2026-02-21") (Some "20:01")
    = None /\
  exists h1 h2 m1 m2, "20:01" = hhmm h1 h2 m1 m2 /\ 6 <= twoDigits h1 h2 <= 23.
Proof.
  assert (H : LF1.check_DiningTime lexPlatform (dialogEvent ∅) (Some "2026-02-21")
                (Some "20:01") = None) by (vm_compute; reflexivity).
  split; [exact H |].
  destruct (proj1 (dining_time_accepted_iff lexPlatform (dialogEvent ∅)
                     (Some "2026-02-21") "20:01" eq_refl) H)
    as (h1 & h2 & m1 & m2 & _ & _ & _ & _ & E & Hh & _).
  exists h1, h2, m1, m2. split; assumption.
Defined.


Lemma cleared_slot_witness :
  firstInvalid lexPlatform (dialogEvent largePartySlots) = Some "NumberOfPeople" /\
  LF1.getSlotValue
    (LF1.intent_slots
       (LF1.resp_intent (dialogTurn lexPlatform (dialogEvent largePartySlots))))
    "NumberOfPeople" = None.
Proof.
  assert (H : firstInvalid lexPlatform (dialogEvent largePartySlots)
              = Some "NumberOfPeople") by (vm_compute; reflexivity).
  split; [exact H |].
  exact (proj1 (cleared_slot_is_not_asked_again lexPlatform _ _ H)).
Defined.

Lemma responses_echo_witness :
  fst (LF1.handler lexPlatform (dialogEvent largePartySlots) emptyWorld)
    = Ok (dialogTurn lexPlatform (dialogEvent largePartySlots)) /\
  LF1.intent_name (LF1.resp_intent (dialogTurn lexPlatform (dialogEvent largePartySlots)))
    = "DiningSuggestionsIntent".
Proof.
  assert (H : fst (LF1.handler lexPlatform (dialogEvent largePartySlots) emptyWorld)
              = Ok (dialogTurn lexPlatform (dialogEvent largePartySlots)))
    by reflexivity.
  split; [exact H |].
  exact (proj1 (responses_echo_the_intent lexPlatform _ _ _ H)).
Defined.

Lemma effects_witness :
  snd (LF1.handler lexPlatform (eventWith "FulfillmentCodeHook" thaiSlots) emptyWorld)
    <> emptyWorld /\
  LF1.invocationSource (eventWith "FulfillmentCodeHook" thaiSlots) = "FulfillmentCodeHook".
Proof.
  assert (H : snd (LF1.handler lexPlatform (eventWith "FulfillmentCodeHook" thaiSlots)
                     emptyWorld) <> emptyWorld) by (vm_compute; discriminate).
  split; [exact H |].
  exact (proj1 (proj2 (effects_only_when_enqueued lexPlatform _ _ H))).
Defined.

Lemma fulfilment_without_queue_witness :
  fst (LF1.handler noQueuePlatform (eventWith "FulfillmentCodeHook" thaiSlots) emptyWorld)
    = Ok (LF1.buildFulfillmentResponse (eventWith "FulfillmentCodeHook" thaiSlots)
            LF1.msg_notConfigured) /\
  snd (LF1.handler noQueuePlatform (eventWith "FulfillmentCodeHook" thaiSlots) emptyWorld)
    = emptyWorld.
Proof.
  pose proof (fulfilment_without_enqueue noQueuePlatform
                (eventWith "FulfillmentCodeHook" thaiSlots) emptyWorld "Thai"
                eq_refl eq_refl eq_refl eq_refl) as (Hw & Hr & _).
  split; [exact Hr | exact Hw].
Defined.

Lemma failure_leaves_the_message_witness :
  fst (LF2.handler stuckDeletePlatform workerWorld)
    = Ok (failed (mkError "The receipt handle has expired")) /\
  length (LF2.delivered (snd (LF2.handler stuckDeletePlatform workerWorld))) = 1%nat /\
  LF2.queue (snd (LF2.handler stuckDeletePlatform workerWorld)) = [thaiRequest].
Proof.
  assert (H : fst (LF2.handler stuckDeletePlatform workerWorld)
              = Ok (failed (mkError "The receipt handle has expired")))
    by (vm_compute; reflexivity).
  split; [exact H |]. split; [vm_compute; reflexivity |].
  exact (proj1 (failure_leaves_the_message stuckDeletePlatform workerWorld _ H) eq_refl).
Defined.

Lemma lookup_failure_witness :
  In (LF2.GetItem "r1") (callsMade noRecordsPlatform workerWorld) /\
  LF2.queue (snd (LF2.handler noRecordsPlatform workerWorld)) = [thaiRequest] /\
  LF2.delivered (snd (LF2.handler noRecordsPlatform workerWorld)) = [].
Proof.
  assert (H : In (LF2.GetItem "r1") (callsMade noRecordsPlatform workerWorld))
    by (vm_compute; tauto).
  split; [exact H |].
  exact (proj2 (proj2 (lookup_failure_is_not_isolated noRecordsPlatform workerWorld
                         "r1" (mkError "Requested resource not found") H eq_refl))).
Defined.

Lemma malformed_message_witness :
  LF2.handler poisonPlatform workerWorld
  = (Ok (failed (mkError "Unexpected token h in JSON at position 1")),
     logged workerWorld
       [LF2.ReceiveMessage "https://sqs.us-east-1.amazonaws.com/1/DiningRequestsQueue"]).
Proof.
  exact (proj1 (malformed_message_is_never_acknowledged poisonPlatform workerWorld _
                  thaiRequest [] eq_refl eq_refl) _ eq_refl).
Defined.

Lemma worker_delivers_witness :
  exists cuisine email,
    callsMade happyPlatform workerWorld =
      ([LF2.ReceiveMessage "https://sqs.us-east-1.amazonaws.com/1/DiningRequestsQueue";
        LF2.Search cuisine] ++
       map LF2.GetItem ["r1"; "r2"; "r4"] ++
       [LF2.SendEmail email;
        LF2.DeleteMessage "https://sqs.us-east-1.amazonaws.com/1/DiningRequestsQueue"
          "rh-1"])%list /\
    LF2.delivered (snd (LF2.handler happyPlatform workerWorld)) = [email] /\
    LF2.ToAddresses email = [Some "ann@example.com"].
Proof.
  assert (Hne : fiveIds <> []) by discriminate.
  destruct (worker_delivers_and_acknowledges happyPlatform workerWorld _
              "concierge@example.com" thaiRequest [] thaiBody fiveIds
              eq_refl eq_refl eq_refl (fun _ => eq_refl) Hne eq_refl
              (fun _ _ => ex_intro _ (Some thaiItem) eq_refl)
              (fun _ _ => eq_refl) eq_refl)
    as (cuisine & email & Hcalls & _ & Hdel & _ & Hto & _).
  exists cuisine, email. split; [exact Hcalls |]. split; [exact Hdel | exact Hto].
Defined.

Lemma reply_joins_witness :
  fst (LF0.handler chatPlatform chatEvent chatWorld)
    = Ok (LF0.reply chatPlatform 200 "Great. What city?").
Proof.
  assert (H : LF0.recognized (snd (LF0.handler chatPlatform chatEvent chatWorld))
              = (LF0.recognized chatWorld ++
                 [ {| LF0.botId := "BOT123"; LF0.botAliasId := "ALIAS1";
                      LF0.localeId := "en_US"; LF0.sessionId := "203.0.113.7";
                      LF0.lex_text := Some "I want Thai food" |} ])%list)
    by reflexivity.
  destruct (proj2 (reply_joins_what_lex_says chatPlatform chatEvent chatWorld _ H)
              _ eq_refl) as (text & Hr & _ & Hjoin & _).
  rewrite Hr. f_equal. f_equal. exact (Hjoin _ eq_refl ltac:(discriminate)).
Defined.

End MoreWitnesses.
